(** * Instagram non-follower analyzer: the import and reconciliation logic

    A shallow embedding of the repository's scripts and the properties its
    design document states about them.

    The repository holds three revisions of the same script:
    - [MainJs]: [main.js], the first script, which keeps the names in plain
      arrays;
    - [Part000]: [unnamed/part_000], the first analyzer with uploads, batches
      and a sortable, searchable list;
    - [Part001]: [unnamed/part_001], the latest analyzer, the one the design
      document follows (wrapper keys, load flags, in-place re-sorting).

    Part I holds the definitions, Part II the lemmas and theorems. *)

From Stdlib Require Import ZArith String Ascii List Lia Permutation Sorted.
From stdpp Require Import base list strings gmap sorting.
Import ListNotations.
Set Warnings "-register-all".

(* ===================================================================== *)
(** * Part I: definitions *)
(* ===================================================================== *)

(** ** The host: JSON values, strings, sets and arrays of the JS runtime *)

(** A value produced by [JSON.parse]. The property list of an object is kept
    in the order [Object.keys] enumerates it, one pair per own property.
    Numbers carry an integer: this code only ever asks whether a number is
    zero. *)
Inductive json : Type :=
| JNull
| JBool (b : bool)
| JNum (z : Z)
| JStr (s : string)
| JArr (items : list json)
| JObj (fields : list (string * json)).

(** A JS value as an expression yields it: [None] is [undefined]. *)
Definition value : Type := option json.

Fixpoint assoc (k : string) (fields : list (string * json)) : value :=
  match fields with
  | [] => None
  | (k', v) :: rest => if String.eqb k k' then Some v else assoc k rest
  end.

(** [v[k]] and [v.k] on a base that is neither [null] nor [undefined], for the
    keys this code reads ([string_list_data], [value] and wrapper keys of an
    object): only an object parsed from JSON has such a property. *)
Definition prop (v : json) (k : string) : value :=
  match v with
  | JObj fields => assoc k fields
  | _ => None
  end.

(** [v?.k]: [undefined] when the base is [null]. *)
Definition opt_prop (v : json) (k : string) : value :=
  match v with
  | JNull => None
  | _ => prop v k
  end.

Definition Array_isArray (v : value) : bool :=
  match v with
  | Some (JArr _) => true
  | _ => false
  end.

(** [typeof v === 'object']: objects, arrays and [null]. *)
Definition typeof_object (v : json) : bool :=
  match v with
  | JNull | JArr _ | JObj _ => true
  | _ => false
  end.

Definition Object_keys (fields : list (string * json)) : list string :=
  map fst fields.

(** Truthiness, as [if (v)], [!v], [a && b] and [c ? a : b] test it. *)
Definition truthy_string (s : string) : bool := negb (String.eqb s EmptyString).

Definition truthy (v : value) : bool :=
  match v with
  | None | Some JNull => false
  | Some (JBool b) => b
  | Some (JNum z) => negb (z =? 0)%Z
  | Some (JStr s) => truthy_string s
  | Some (JArr _) | Some (JObj _) => true
  end.

(** *** Strings

    A string is a sequence of code units below 256 (Basic Latin and Latin-1
    Supplement); Instagram user names lie in Basic Latin. *)

Definition in_range (lo hi n : N) : bool := ((lo <=? n) && (n <=? hi))%N.

(** The code units with a lowercase mapping: A-Z, and the Latin-1 capitals
    U+00C0-U+00DE without the multiplication sign U+00D7. *)
Definition is_upper (c : ascii) : bool :=
  let n := N_of_ascii c in
  in_range 65 90 n || in_range 192 214 n || in_range 216 222 n.

Definition toLowerCase_unit (c : ascii) : ascii :=
  if is_upper c then ascii_of_N (N_of_ascii c + 32) else c.

Fixpoint toLowerCase (s : string) : string :=
  match s with
  | EmptyString => EmptyString
  | String c s' => String (toLowerCase_unit c) (toLowerCase s')
  end.

(** WhiteSpace and LineTerminator code points below 256: TAB, LF, VT, FF, CR,
    SP and NBSP. *)
Definition isWhiteSpace (c : ascii) : bool :=
  let n := N_of_ascii c in
  in_range 9 13 n || (n =? 32)%N || (n =? 160)%N.

Fixpoint trimStart (s : string) : string :=
  match s with
  | EmptyString => EmptyString
  | String c s' => if isWhiteSpace c then trimStart s' else s
  end.

Fixpoint trimEnd (s : string) : string :=
  match s with
  | EmptyString => EmptyString
  | String c s' =>
      match trimEnd s' with
      | EmptyString => if isWhiteSpace c then EmptyString else String c EmptyString
      | t => String c t
      end
  end.

Definition trim (s : string) : string := trimEnd (trimStart s).

(** [s.includes(t)]: [t] occurs in [s] as a contiguous run of code units. *)
Fixpoint includes (s t : string) : bool :=
  if String.prefix t s then true
  else match s with
       | EmptyString => false
       | String _ s' => includes s' t
       end.

(** *** Sets: an insertion-ordered collection without repetition

    [new Set()] is [[]]; [[...s]] reads the list off in insertion order. *)

Definition Set_has (s : list string) (x : string) : bool := bool_decide (x ∈ s).

Definition Set_add (x : string) (s : list string) : list string :=
  if Set_has s x then s else s ++ [x].

Definition Set_clear (s : list string) : list string := [].

Definition Set_size (s : list string) : nat := length s.

(** *** [Array.prototype.sort]

    The sort is stable; [cmp a b > 0] asks for [b] before [a]. A stable
    insertion sort gives the order any stable sort gives under a consistent
    comparator. *)
Fixpoint sort_insert (cmp : string → string → Z) (x : string) (l : list string)
  : list string :=
  match l with
  | [] => [x]
  | y :: l' => if (0 <? cmp x y)%Z then y :: sort_insert cmp x l' else x :: l
  end.

Definition Array_sort (cmp : string → string → Z) (l : list string) : list string :=
  foldr (sort_insert cmp) [] l.

(** *** Lines and JSON text

    [Array.prototype.join], [String.prototype.split] on a one-character
    separator, and [JSON.stringify] on strings and on arrays of strings. *)

Definition newline : ascii := "010"%char.

Definition nl : string := String newline EmptyString.

Definition Array_join (sep : string) (l : list string) : string := String.concat sep l.

Fixpoint split_on (c : ascii) (s : string) : list string :=
  match s with
  | EmptyString => [EmptyString]
  | String d s' =>
      if Ascii.eqb d c then EmptyString :: split_on c s'
      else match split_on c s' with
           | x :: xs => String d x :: xs
           | [] => [String d EmptyString]
           end
  end.

Definition quotation_mark : ascii := "034"%char.

Definition reverse_solidus : ascii := "092"%char.

Definition hex_digit (n : N) : ascii :=
  if (n <? 10)%N then ascii_of_N (48 + n) else ascii_of_N (87 + n).

(** QuoteJSONString, one code unit at a time: the two-character escapes, the
    [\u00xx] form for the other control characters, and the unit itself. *)
Definition escape_unit (c : ascii) : string :=
  let n := N_of_ascii c in
  if (n =? 34)%N then String reverse_solidus (String quotation_mark EmptyString)
  else if (n =? 92)%N then String reverse_solidus (String reverse_solidus EmptyString)
  else if (n =? 8)%N then String reverse_solidus "b"
  else if (n =? 12)%N then String reverse_solidus "f"
  else if (n =? 10)%N then String reverse_solidus "n"
  else if (n =? 13)%N then String reverse_solidus "r"
  else if (n =? 9)%N then String reverse_solidus "t"
  else if (n <? 32)%N
  then String reverse_solidus
         ("u00" +:+ String (hex_digit (n / 16)) (String (hex_digit (n mod 16)) EmptyString))
  else String c EmptyString.

Fixpoint escape (s : string) : string :=
  match s with
  | EmptyString => EmptyString
  | String c s' => escape_unit c +:+ escape s'
  end.

Definition quoteJSONString (s : string) : string :=
  String quotation_mark (escape s +:+ String quotation_mark EmptyString).

(** [JSON.stringify(l, null, 2)] for an array of strings that sits at the
    indentation [current]. *)
Definition stringify_array (current : string) (l : list string) : string :=
  match l with
  | [] => "[]"
  | _ =>
      "[" +:+ nl
      +:+ Array_join ("," +:+ nl) ((λ x, current +:+ "  " +:+ quoteJSONString x) <$> l)
      +:+ nl +:+ current +:+ "]"
  end.

(** [JSON.stringify({ key: l }, null, 2)]. *)
Definition stringify_object (key : string) (l : list string) : string :=
  "{" +:+ nl +:+ "  " +:+ quoteJSONString key +:+ ": " +:+ stringify_array "  " l
  +:+ nl +:+ "}".

(** *** What the engine supplies

    [JSON.parse] yields the parsed value or the message of its [SyntaxError];
    [String.prototype.localeCompare] is the engine's collation. *)
Class Host : Type := {
  JSON_parse : string → string + json;
  localeCompare : string → string → Z
}.

(** [a] is not asked to come after [b]. *)
Definition before (cmp : string → string → Z) (a b : string) : Prop := (cmp a b ≤ 0)%Z.

(** The comparator negated, as the descending sort uses it. *)
Definition descending (cmp : string → string → Z) (a b : string) : Z := (- cmp a b)%Z.

(** The comparator is consistent on a list and separates its distinct
    members: what a lexicographic comparison of distinct names provides. *)
Definition cmp_antisym (cmp : string → string → Z) (l : list string) : Prop :=
  Forall (λ a, Forall (λ b, Z.sgn (cmp b a) = (- Z.sgn (cmp a b))%Z) l) l.

Definition cmp_trans (cmp : string → string → Z) (l : list string) : Prop :=
  Forall (λ a, Forall (λ b, Forall (λ c,
    (cmp a b < 0)%Z → (cmp b c < 0)%Z → (cmp a c < 0)%Z) l) l) l.

Definition cmp_separates (cmp : string → string → Z) (l : list string) : Prop :=
  Forall (λ a, Forall (λ b, cmp a b = 0%Z → a = b) l) l.

Definition total_order_on (cmp : string → string → Z) (l : list string) : Prop :=
  cmp_antisym cmp l ∧ cmp_trans cmp l ∧ cmp_separates cmp l.

#[global] Instance total_order_on_dec cmp l : Decision (total_order_on cmp l).
Proof. unfold total_order_on, cmp_antisym, cmp_trans, cmp_separates. apply _. Defined.

(* --------------------------------------------------------------------- *)
(** ** [unnamed/part_001]: the latest analyzer *)
(* --------------------------------------------------------------------- *)

Module Part001.

(** The [state] object (theme and chart handle left out). *)
Record State : Type := mkState {
  followers : list string;
  following : list string;
  nonFollowers : list string;
  uploadedFollowersData : option (list json);
  uploadedFollowingData : option (list json);
  sortAsc : bool;
  isDataProcessing : bool;
  followersFileLoaded : bool;
  followingFileLoaded : bool
}.

Definition initial_state : State :=
  mkState [] [] [] None None true false false false.

Definition set_followers (v : list string) (s : State) : State :=
  mkState v (following s) (nonFollowers s) (uploadedFollowersData s)
    (uploadedFollowingData s) (sortAsc s) (isDataProcessing s)
    (followersFileLoaded s) (followingFileLoaded s).

Definition set_following (v : list string) (s : State) : State :=
  mkState (followers s) v (nonFollowers s) (uploadedFollowersData s)
    (uploadedFollowingData s) (sortAsc s) (isDataProcessing s)
    (followersFileLoaded s) (followingFileLoaded s).

Definition set_nonFollowers (v : list string) (s : State) : State :=
  mkState (followers s) (following s) v (uploadedFollowersData s)
    (uploadedFollowingData s) (sortAsc s) (isDataProcessing s)
    (followersFileLoaded s) (followingFileLoaded s).

Definition set_uploadedFollowersData (v : option (list json)) (s : State) : State :=
  mkState (followers s) (following s) (nonFollowers s) v
    (uploadedFollowingData s) (sortAsc s) (isDataProcessing s)
    (followersFileLoaded s) (followingFileLoaded s).

Definition set_uploadedFollowingData (v : option (list json)) (s : State) : State :=
  mkState (followers s) (following s) (nonFollowers s) (uploadedFollowersData s)
    v (sortAsc s) (isDataProcessing s)
    (followersFileLoaded s) (followingFileLoaded s).

Definition set_sortAsc (v : bool) (s : State) : State :=
  mkState (followers s) (following s) (nonFollowers s) (uploadedFollowersData s)
    (uploadedFollowingData s) v (isDataProcessing s)
    (followersFileLoaded s) (followingFileLoaded s).

Definition set_isDataProcessing (v : bool) (s : State) : State :=
  mkState (followers s) (following s) (nonFollowers s) (uploadedFollowersData s)
    (uploadedFollowingData s) (sortAsc s) v
    (followersFileLoaded s) (followingFileLoaded s).

Definition set_followersFileLoaded (v : bool) (s : State) : State :=
  mkState (followers s) (following s) (nonFollowers s) (uploadedFollowersData s)
    (uploadedFollowingData s) (sortAsc s) (isDataProcessing s)
    v (followingFileLoaded s).

Definition set_followingFileLoaded (v : bool) (s : State) : State :=
  mkState (followers s) (following s) (nonFollowers s) (uploadedFollowersData s)
    (uploadedFollowingData s) (sortAsc s) (isDataProcessing s)
    (followersFileLoaded s) v.

(** The three paragraphs [renderResults] can put in place of the list. *)
Inductive info : Type :=
| NoUsersMatch
| EveryoneFollowsBack
| UploadYourFiles.

(** What [#users-list] shows. The list placeholder and the paragraph that
    stands in for it when it is missing are both [Placeholder]. *)
Inductive rendering : Type :=
| Loader
| Placeholder
| Info (text : info)
| UserList (users : list string).

(** The page: the [state] object, the text of [#searchInput] and the content
    of [#users-list]. *)
Record Page : Type := mkPage {
  state : State;
  searchInput : string;
  container : rendering
}.

Definition initial_page : Page := mkPage initial_state EmptyString Loader.

Definition map_state (f : State → State) (p : Page) : Page :=
  mkPage (f (state p)) (searchInput p) (container p).

Definition set_searchInput (v : string) (p : Page) : Page :=
  mkPage (state p) v (container p).

Definition set_container (v : rendering) (p : Page) : Page :=
  mkPage (state p) (searchInput p) v.

(** The exceptions this code can meet, one constructor per [throw] or
    [reject] site, and [TypeError] for a call of something that is not a
    function. *)
Inductive error : Type :=
| InvalidJSON (detail : string)
| FailedToRead
| FileReadError (detail : string)
| NotRecognized
| TypeError (detail : string).

Definition message (e : error) : string :=
  match e with
  | InvalidJSON detail => "Invalid JSON: " +:+ detail
  | FailedToRead => "Failed to read file content."
  | FileReadError detail => "File Read Error: " +:+ detail
  | NotRecognized =>
      "JSON data structure not recognized. Expected an array or a common wrapper object (e.g., { relationships_followers: [...] })."
  | TypeError detail => detail
  end.

(** Code that updates the page and may throw: the page at the throw is kept. *)
Definition M (A : Type) : Type := Page → Page * (error + A).

Definition ret {A} (a : A) : M A := λ p, (p, inr a).

Definition throw {A} (e : error) : M A := λ p, (p, inl e).

Definition bind {A B} (c : M A) (k : A → M B) : M B :=
  λ p, match c p with
       | (p', inr a) => k a p'
       | (p', inl e) => (p', inl e)
       end.

Definition modify (f : State → State) : M unit := λ p, (map_state f p, inr tt).

Definition lift {A} (r : error + A) : M A := λ p, (p, r).

Definition effect (f : Page → Page) : M unit := λ p, (f p, inr tt).

Definition try_catch {A} (body : M A) (handler : error → M A) : M A :=
  λ p, match body p with
       | (p', inr a) => (p', inr a)
       | (p', inl e) => handler e p'
       end.

#[global] Instance M_ret : MRet M := @ret.
#[global] Instance M_bind : MBind M := λ A B k c, bind c k.

Fixpoint forEach {A} (f : A → M unit) (l : list A) : M unit :=
  match l with
  | [] => ret tt
  | x :: l' => f x;; forEach f l'
  end.

(** *** Reading and parsing an uploaded file *)

(** What the [FileReader] reports for a file: [onerror], or [onload] with a
    result that is or is not a string. *)
Inductive read_result : Type :=
| ReadFailed (reason : string)
| ReadNotText
| ReadText (text : string).

Record File : Type := mkFile {
  name : string;
  content : read_result
}.

Definition parseJsonFile `{Host} (file : File) : error + json :=
  match content file with
  | ReadText text =>
      match JSON_parse text with
      | inr data => inr data
      | inl detail => inl (InvalidJSON detail)
      end
  | ReadNotText => inl FailedToRead
  | ReadFailed reason => inl (FileReadError reason)
  end.

Definition potentialKeys : list string :=
  ["relationships_followers"; "relationships_following";
   "relationships_unfollowed_users"; "string_map_data"].

(** The [for (const key of potentialKeys)] loop: the value of the first key
    whose value is an array. *)
Fixpoint scan_keys (data : json) (keys : list string) : option (list json) :=
  match keys with
  | [] => None
  | key :: rest =>
      match prop data key with
      | Some (JArr items) => Some items
      | _ => scan_keys data rest
      end
  end.

Definition extractDataArray (data : json) : error + list json :=
  match data with
  | JArr items => inr items
  | JObj fields =>
      match scan_keys data potentialKeys with
      | Some items => inr items
      | None =>
          match Object_keys fields with
          | firstKey :: _ =>
              if truthy_string firstKey then
                match prop data firstKey with
                | Some (JArr items) => inr items
                | _ => inl NotRecognized
                end
              else inl NotRecognized
          | [] => inl NotRecognized
          end
      end
  | _ => inl NotRecognized
  end.

(** *** From records to user names *)

(** The body both batch functions share: for every entry of every item's
    [string_list_data], add the lowercased [value] with [add]. *)
Definition add_entry (add : string → State → State) (entry : json) : M unit :=
  let v := opt_prop entry "value" in
  if truthy v then
    match v with
    | Some (JStr s) => modify (add (toLowerCase s))
    | _ => throw (TypeError "entry.value.toLowerCase is not a function")
    end
  else ret tt.

Definition add_item (add : string → State → State) (item : json) : M unit :=
  match opt_prop item "string_list_data" with
  | None | Some JNull => ret tt
  | Some (JArr entries) => forEach (add_entry add) entries
  | Some _ => throw (TypeError "item?.string_list_data?.forEach is not a function")
  end.

Definition add_follower (x : string) (s : State) : State :=
  set_followers (Set_add x (followers s)) s.

Definition add_following (x : string) (s : State) : State :=
  set_following (Set_add x (following s)) s.

Definition processFollowerDataBatch (dataArray : list json) : M unit :=
  modify (λ s, set_followers (Set_clear (followers s)) s);;
  forEach (add_item add_follower) dataArray.

Definition processFollowingDataBatch (dataArray : list json) : M unit :=
  modify (λ s, set_following (Set_clear (following s)) s);;
  forEach (add_item add_following) dataArray.

(** *** Reconciliation *)

Definition sortNonFollowers `{Host} (s : State) : State :=
  set_nonFollowers
    (Array_sort (λ a b, let compare := localeCompare a b in
                        if sortAsc s then compare else (- compare)%Z)
                (nonFollowers s)) s.

Definition calculateNonFollowers `{Host} (s : State) : State :=
  if (Set_size (following s) =? 0)%nat then set_nonFollowers [] s
  else
    sortNonFollowers
      (set_nonFollowers
         (filter (λ user, negb (Set_has (followers s) user)) (following s)) s).

(** *** The list view *)

(** [searchTerm] and [filteredUsers] of [renderResults]. *)
Definition searchTerm (p : Page) : string := trim (toLowerCase (searchInput p)).

Definition filteredUsers (p : Page) : list string :=
  if truthy_string (searchTerm p)
  then filter (λ user, includes (toLowerCase user) (searchTerm p))
              (nonFollowers (state p))
  else nonFollowers (state p).

Definition renderResults (p : Page) : Page :=
  let s := state p in
  if negb (followersFileLoaded s) || negb (followingFileLoaded s) || isDataProcessing s
  then (if negb (isDataProcessing s) then set_container Placeholder p else p)
  else
    if (length (filteredUsers p) =? 0)%nat then
      if (0 <? length (nonFollowers s))%nat && truthy_string (searchTerm p)
      then set_container (Info NoUsersMatch) p
      else if (length (nonFollowers s) =? 0)%nat
              && ((0 <? Set_size (followers s))%nat || (0 <? Set_size (following s))%nat)
      then set_container (Info EveryoneFollowsBack) p
      else set_container (Info UploadYourFiles) p
    else set_container (UserList (filteredUsers p)) p.

Definition handleSearchInput (p : Page) : Page := renderResults p.

Definition toggleSort `{Host} (p : Page) : Page :=
  let p1 := map_state (λ s, set_sortAsc (negb (sortAsc s)) s) p in
  let p2 := map_state sortNonFollowers p1 in
  renderResults p2.

(** *** Uploads *)

Definition processLoadedData `{Host} (p : Page) : Page :=
  let s := state p in
  if negb (followersFileLoaded s) || negb (followingFileLoaded s) then p
  else if isDataProcessing s then p
  else
    let p1 := map_state (set_isDataProcessing true) p in
    let p2 := map_state calculateNonFollowers p1 in
    let p3 := renderResults p2 in
    map_state (set_isDataProcessing false) p3.

Definition checkAllDataReady `{Host} (p : Page) : Page :=
  if followersFileLoaded (state p) && followingFileLoaded (state p)
  then processLoadedData p
  else p.

(** The [change] event of a file input: the input's id and its files. *)
Record change_event : Type := mkChange {
  target_id : string;
  files : list File
}.

Inductive side : Type := Followers | Following.

Definition type_of (event : change_event) : side :=
  if includes (target_id event) "followers" then Followers else Following.

Inductive outcome : Type :=
| NoFile
| Loaded
| Failed (e : error).

Definition handleFileUpload `{Host} (event : change_event) : M outcome :=
  match files event with
  | [] => ret NoFile
  | file :: _ =>
      let type := type_of event in
      try_catch
        (data ← lift (parseJsonFile file);
         dataArray ← lift (extractDataArray data);
         (match type with
          | Followers =>
              modify (λ s, set_followers (Set_clear (followers s)) s);;
              modify (set_uploadedFollowersData (Some dataArray));;
              processFollowerDataBatch dataArray;;
              modify (set_followersFileLoaded true)
          | Following =>
              modify (λ s, set_following (Set_clear (following s)) s);;
              modify (set_uploadedFollowingData (Some dataArray));;
              processFollowingDataBatch dataArray;;
              modify (set_followingFileLoaded true)
          end : M unit);;
         effect checkAllDataReady;;
         ret Loaded)
        (λ error,
           modify (match type with
                   | Followers => set_followersFileLoaded false
                   | Following => set_followingFileLoaded false
                   end);;
           ret (Failed error))
  end.

(** What the user can do with the page, and the page after a series of it. *)
Inductive event : Type :=
| FileChosen (ev : change_event)
| SearchTyped (text : string)
| SortClicked.

Definition step `{Host} (e : event) (p : Page) : Page :=
  match e with
  | FileChosen ev => fst (handleFileUpload ev p)
  | SearchTyped text => handleSearchInput (set_searchInput text p)
  | SortClicked => toggleSort p
  end.

Definition run `{Host} (es : list event) (p : Page) : Page :=
  foldl (λ p e, step e p) p es.

(** *** Vocabulary of the properties *)

(** The user name an entry carries: its [value], when that is a non-empty
    string. *)
Definition entry_value (entry : json) : option string :=
  match opt_prop entry "value" with
  | Some (JStr s) => if truthy_string s then Some s else None
  | _ => None
  end.

(** The user names of a record and of a file, in the order of the text. *)
Definition item_values (item : json) : list string :=
  match opt_prop item "string_list_data" with
  | Some (JArr entries) => omap entry_value entries
  | _ => []
  end.

Definition file_values (dataArray : list json) : list string :=
  concat (map item_values dataArray).

(** An entry the loop gets past: its [value] is missing, falsy or a string. *)
Definition entry_ok (entry : json) : bool :=
  match opt_prop entry "value" with
  | Some (JStr _) => true
  | v => negb (truthy v)
  end.

(** A record the loop gets past: [string_list_data] is missing, [null], or
    an array of such entries. *)
Definition item_ok (item : json) : bool :=
  match opt_prop item "string_list_data" with
  | None | Some JNull => true
  | Some (JArr entries) => forallb entry_ok entries
  | Some _ => false
  end.

(** A record without the [string_list_data] field. *)
Definition lacks_string_list_data (item : json) : Prop :=
  opt_prop item "string_list_data" = None.

(** A record of the export: [{ string_list_data: [ { value: string, ... },
    ... ] }]. *)
Definition well_formed (item : json) : Prop :=
  ∃ entries, prop item "string_list_data" = Some (JArr entries)
    ∧ Forall (λ entry, ∃ s, prop entry "value" = Some (JStr s)) entries.

(** The page after the names [vs] went through [add], lowercased, one after
    the other. *)
Definition import_values (add : string → State → State) (vs : list string) (p : Page)
  : Page :=
  foldl (λ p v, map_state (add (toLowerCase v)) p) p vs.

(** The collection after the names [vs] were added to it, lowercased. *)
Definition add_all (vs : list string) (acc : list string) : list string :=
  foldl (λ acc v, Set_add (toLowerCase v) acc) acc vs.

(** The two stored collections hold no name twice and no empty name, and
    every name in its lowercased form. *)
Definition names_ok (l : list string) : Prop :=
  NoDup l ∧ Forall (λ u, u ≠ EmptyString ∧ toLowerCase u = u) l.

Definition sets_ok (s : State) : Prop :=
  names_ok (followers s) ∧ names_ok (following s).

(** The flag of the side an upload is for, cleared. *)
Definition mark_not_loaded (ev : change_event) (p : Page) : Page :=
  map_state (match type_of ev with
             | Followers => set_followersFileLoaded false
             | Following => set_followingFileLoaded false
             end) p.

(** A computation that keeps [sets_ok], however it ends. *)
Definition keeps_sets_ok {A} (c : M A) : Prop :=
  ∀ p, sets_ok (state p) → sets_ok (state (fst (c p))).

(** The filter as the design document words it: the members of the list
    that contain the substring, case-insensitively, in the order of the
    list. *)
Definition spec_filter (substring : string) (l : list string) : list string :=
  filter (λ user, includes (toLowerCase user) (toLowerCase substring)) l.

(** An error message names the keys that were tried. *)
Definition names_attempted_keys (text : string) : Prop :=
  Forall (λ key, includes text key = true) potentialKeys.

(** *** Export *)

(** The export dialog: the inline [display] of [#exportModal], the value of
    [#exportFormat], the state of [#cleanUsernames] and the text of
    [#exportPreview]. *)
Record ExportDialog : Type := mkDialog {
  display : string;
  format : string;
  cleanUsernames : bool;
  exportPreview : string
}.

Definition set_display (v : string) (d : ExportDialog) : ExportDialog :=
  mkDialog v (format d) (cleanUsernames d) (exportPreview d).

Definition set_exportPreview (v : string) (d : ExportDialog) : ExportDialog :=
  mkDialog (display d) (format d) (cleanUsernames d) v.

Definition usersToExport (d : ExportDialog) (s : State) : list string :=
  (λ user, if cleanUsernames d then user else "@" +:+ user) <$> nonFollowers s.

Definition generateExportContent (d : ExportDialog) (s : State) : string :=
  if String.eqb (format d) "csv"
  then "Username" +:+ nl +:+ Array_join nl (usersToExport d s)
  else if String.eqb (format d) "json"
  then stringify_object "nonFollowers" (usersToExport d s)
  else Array_join nl (usersToExport d s).

Definition maxPreviewLines : nat := 10.

Definition updateExportPreview (s : State) (d : ExportDialog) : ExportDialog :=
  if String.eqb (display d) "none" then d
  else
    let previewContent := generateExportContent d s in
    let previewLines := split_on newline previewContent in
    if (maxPreviewLines <? length previewLines)%nat
    then set_exportPreview
           (Array_join nl (take maxPreviewLines previewLines) +:+ nl +:+ "...") d
    else set_exportPreview previewContent d.

Definition showExportModal (s : State) (d : ExportDialog) : ExportDialog :=
  if (length (nonFollowers s) =? 0)%nat then d
  else set_display "block" (updateExportPreview s d).

Definition hideExportModal (d : ExportDialog) : ExportDialog := set_display "none" d.

(** The file [performExport] hands to the browser; [today] is
    [new Date().toISOString().slice(0, 10)]. *)
Record Download : Type := mkDownload {
  mime : string;
  filename : string;
  body : string
}.

Definition performExport (today : string) (s : State) (d : ExportDialog)
  : Download * ExportDialog :=
  let content := generateExportContent d s in
  (mkDownload
     ("text/" +:+ (if String.eqb (format d) "json" then "json"
                   else if String.eqb (format d) "csv" then "csv" else "plain")
      +:+ ";charset=utf-8")
     ("instagram_non_followers_" +:+ today +:+ "." +:+ format d)
     content,
   hideExportModal d).

(** *** More vocabulary *)

(** The names the loop adds before it stops: all of them when every entry
    and record passes, else those before the first that does not. *)
Fixpoint entries_read (entries : list json) : list string :=
  match entries with
  | [] => []
  | entry :: rest =>
      if entry_ok entry then option_list (entry_value entry) ++ entries_read rest
      else []
  end.

Fixpoint file_read (dataArray : list json) : list string :=
  match dataArray with
  | [] => []
  | item :: rest =>
      if item_ok item then item_values item ++ file_read rest
      else match opt_prop item "string_list_data" with
           | Some (JArr entries) => entries_read entries
           | _ => []
           end
  end.

(** The page once an upload for a side has cleared the side, kept the record
    array and read the names [vs]. *)
Definition stored (type : side) (dataArray : list json) (vs : list string) (p : Page)
  : Page :=
  match type with
  | Followers =>
      import_values add_follower vs
        (map_state (λ s, set_uploadedFollowersData (Some dataArray)
                           (set_followers [] s)) p)
  | Following =>
      import_values add_following vs
        (map_state (λ s, set_uploadedFollowingData (Some dataArray)
                           (set_following [] s)) p)
  end.

Definition mark_loaded (type : side) (v : bool) (p : Page) : Page :=
  map_state (match type with
             | Followers => set_followersFileLoaded v
             | Following => set_followingFileLoaded v
             end) p.

(** The comparator [sortNonFollowers] sorts with. *)
Definition current_order `{Host} (s : State) : string → string → Z :=
  if sortAsc s then localeCompare else descending localeCompare.

(** The list is the difference of the two collections, in some order. *)
Definition list_is_difference (s : State) : Prop :=
  nonFollowers s ≡ₚ filter (λ user, user ∉ followers s) (following s).

(** Between two events no analysis is running, and while both files count as
    loaded the list is the difference of the two collections. *)
Definition analysed (s : State) : Prop :=
  isDataProcessing s = false
  ∧ (followersFileLoaded s = true → followingFileLoaded s = true →
     list_is_difference s).

End Part001.

(* --------------------------------------------------------------------- *)
(** ** [unnamed/part_000]: the first analyzer *)
(* --------------------------------------------------------------------- *)

Module Part000.

Record Config : Type := mkConfig { batchSize : nat }.

Definition CONFIG : Config := {| batchSize := 500 |}.

(** *** [processInBatches]

    The processor acts on a world [W]; what it throws is caught and logged,
    so a call always hands a world back. A job is what the closure of
    [processInBatches] holds, with a log of the indices the processor was
    called at, the number of runs of [processBatch], and whether a timer is
    pending or the promise resolved. *)
Section Batches.
Context {A W : Type}.
Variable cfg : Config.
Variable processor : A → W → W.

Record Job : Type := mkJob {
  index : nat;
  world : W;
  invoked : list nat;
  batches : nat;
  pending : bool;
  resolved : bool
}.

(** One turn of [for (; index < end; index++)]; [index < end <= data.length]
    there, so [data[index]] is an element. *)
Definition call_processor (data : list A) (j : Job) : Job :=
  mkJob (S (index j))
        (match data !! index j with
         | Some item => processor item (world j)
         | None => world j
         end)
        (invoked j ++ [index j]) (batches j) (pending j) (resolved j).

Fixpoint for_loop (data : list A) (turns : nat) (j : Job) : Job :=
  match turns with
  | O => j
  | S turns' => for_loop data turns' (call_processor data j)
  end.

Definition processBatch (data : list A) (j : Job) : Job :=
  let totalItems := length data in
  let end_ := Nat.min (index j + batchSize cfg) totalItems in
  let j' := for_loop data (end_ - index j) j in
  if (index j' <? totalItems)%nat
  then mkJob (index j') (world j') (invoked j') (S (batches j')) true false
  else mkJob (index j') (world j') (invoked j') (S (batches j')) false true.

(** The timers [setTimeout(processBatch, 0)] leaves behind, run one after
    the other. *)
Fixpoint run_timers (fuel : nat) (data : list A) (j : Job) : Job :=
  match fuel with
  | O => j
  | S fuel' =>
      if pending j
      then run_timers fuel' data
             (processBatch data
                (mkJob (index j) (world j) (invoked j) (batches j) false (resolved j)))
      else j
  end.

Definition processInBatches (data : list A) (s0 : W) : Job :=
  run_timers (length data) data (processBatch data (mkJob 0 s0 [] 0 false false)).

End Batches.

(** [ceil (n / d)]. *)
Definition ceil_div (n d : nat) : nat := (n + d - 1) / d.

(** *** Reconciliation and the list view *)

Record State : Type := mkState {
  followers : list string;
  following : list string;
  nonFollowers : list string;
  uploadedFollowersData : option (list json);
  uploadedFollowingData : option (list json);
  sortAsc : bool;
  isDataProcessing : bool
}.

Definition set_nonFollowers (v : list string) (s : State) : State :=
  mkState (followers s) (following s) v (uploadedFollowersData s)
    (uploadedFollowingData s) (sortAsc s) (isDataProcessing s).

Definition set_sortAsc (v : bool) (s : State) : State :=
  mkState (followers s) (following s) (nonFollowers s) (uploadedFollowersData s)
    (uploadedFollowingData s) v (isDataProcessing s).

Definition set_isDataProcessing (v : bool) (s : State) : State :=
  mkState (followers s) (following s) (nonFollowers s) (uploadedFollowersData s)
    (uploadedFollowingData s) (sortAsc s) v.

(** [(a, b) => state.sortAsc ? a.localeCompare(b) : b.localeCompare(a)]. *)
Definition by_sortAsc `{Host} (s : State) (a b : string) : Z :=
  if sortAsc s then localeCompare a b else localeCompare b a.

Definition calculateNonFollowers `{Host} (s : State) : State :=
  set_nonFollowers
    (Array_sort (by_sortAsc s)
       (filter (λ user, negb (Set_has (followers s) user)) (following s))) s.

(** The analysis runs only when neither collection is empty; it ends with
    [clearLoader()], which clears [state.isDataProcessing]. *)
Definition processLoadedData `{Host} (s : State) : State :=
  if (Set_size (followers s) =? 0)%nat || (Set_size (following s) =? 0)%nat then s
  else set_isDataProcessing false (calculateNonFollowers s).

(** [filteredUsers] of [renderResults], for the text of [#searchInput]: the
    matches, sorted again. *)
Definition filteredUsers `{Host} (searchInput : string) (s : State) : list string :=
  let searchTerm := toLowerCase searchInput in
  Array_sort (by_sortAsc s)
    (filter (λ user, includes (toLowerCase user) searchTerm) (nonFollowers s)).

(** [toggleSort] flips the flag and renders; [state.nonFollowers] stays. *)
Definition toggleSort (s : State) : State := set_sortAsc (negb (sortAsc s)) s.

(** *** Uploads: the record array of a parsed file

    [Array.isArray(data) ? data : data[Object.keys(data)[0]]], then the
    [Array.isArray] test. [Object.keys(null)] throws; a number or a boolean
    has no key, and the first key of a string holds a one-character string. *)
Inductive error : Type :=
| NotAnArray
| TypeError (detail : string).

Definition uploaded_dataArray (data : json) : error + list json :=
  match data with
  | JArr items => inr items
  | JNull => inl (TypeError "Cannot convert undefined or null to object")
  | JObj ((_, JArr items) :: _) => inr items
  | _ => inl NotAnArray
  end.

(** *** Import

    [processFollowerData] and [processFollowingData] add the names of one
    record to a set; what they throw leaves the set as the loop left it. *)
Definition set_followers (v : list string) (s : State) : State :=
  mkState v (following s) (nonFollowers s) (uploadedFollowersData s)
    (uploadedFollowingData s) (sortAsc s) (isDataProcessing s).

Definition set_following (v : list string) (s : State) : State :=
  mkState (followers s) v (nonFollowers s) (uploadedFollowersData s)
    (uploadedFollowingData s) (sortAsc s) (isDataProcessing s).

(** [forEach(entry => { if (entry?.value) set.add(entry.value.toLowerCase()) })]:
    the set after the loop, and the error that stopped it. *)
Fixpoint add_entries (entries : list json) (set : list string)
  : list string * option error :=
  match entries with
  | [] => (set, None)
  | entry :: rest =>
      let v := opt_prop entry "value" in
      if truthy v then
        match v with
        | Some (JStr s) => add_entries rest (Set_add (toLowerCase s) set)
        | _ => (set, Some (TypeError "entry.value.toLowerCase is not a function"))
        end
      else add_entries rest set
  end.

(** [item.string_list_data?.forEach(...)]. *)
Definition add_item (item : json) (set : list string) : list string * option error :=
  match item with
  | JNull =>
      (set, Some (TypeError "Cannot read properties of null (reading 'string_list_data')"))
  | _ =>
      match prop item "string_list_data" with
      | None | Some JNull => (set, None)
      | Some (JArr entries) => add_entries entries set
      | Some _ => (set, Some (TypeError "item.string_list_data?.forEach is not a function"))
      end
  end.

Definition processFollowerData (item : json) (s : State) : State * option error :=
  let '(set, e) := add_item item (followers s) in (set_followers set s, e).

Definition processFollowingData (item : json) (s : State) : State * option error :=
  let '(set, e) := add_item item (following s) in (set_following set s, e).

(** [item => item.string_list_data || []], the callback of [flatMap]. *)
Definition string_list_data_or_empty (item : json) : error + value :=
  match item with
  | JNull =>
      inl (TypeError "Cannot read properties of null (reading 'string_list_data')")
  | _ =>
      let v := prop item "string_list_data" in
      if truthy v then inr v else inr (Some (JArr []))
  end.

(** [Array.prototype.flatMap]: an array the callback returns is spliced in,
    anything else is one element. *)
Fixpoint Array_flatMap (f : json → error + value) (l : list json) : error + list json :=
  match l with
  | [] => inr []
  | x :: l' =>
      match f x with
      | inl e => inl e
      | inr y =>
          match Array_flatMap f l' with
          | inl e => inl e
          | inr ys =>
              inr (match y with
                   | Some (JArr elements) => elements ++ ys
                   | Some other => other :: ys
                   | None => ys
                   end)
          end
      end
  end.

Definition processFollowerDataBatch (dataArray : list json) (s : State)
  : State * option error :=
  let s1 := set_followers (Set_clear (followers s)) s in
  match Array_flatMap string_list_data_or_empty dataArray with
  | inl e => (s1, Some e)
  | inr flat => processFollowerData (JObj [("string_list_data", JArr flat)]) s1
  end.

Definition processFollowingDataBatch (dataArray : list json) (s : State)
  : State * option error :=
  let s1 := set_following (Set_clear (following s)) s in
  match Array_flatMap string_list_data_or_empty dataArray with
  | inl e => (s1, Some e)
  | inr flat => processFollowingData (JObj [("string_list_data", JArr flat)]) s1
  end.


(** *** Start

    [showLoader] inserts the loader and raises [state.isDataProcessing] when
    [#users-list] holds no loader; [has_loader] says whether it holds one
    (a page without [#users-list] behaves as one that holds a loader). *)
Definition showLoader (has_loader : bool) (s : State) : State :=
  if has_loader then s else set_isDataProcessing true s.

(** [loadStaticJsonData] up to its first [await]: the state, and whether the
    call went on to [fetch]. *)
Definition loadStaticJsonData_enter (s : State) : State * bool :=
  if isDataProcessing s then (s, false) else (set_isDataProcessing true s, true).

(** [initializeApp] up to its [await]: [showLoader()], and the two calls of
    [loadStaticJsonData] that [Promise.all] is built from, each run up to
    its own first [await]. The result says which of the two files are being
    fetched. *)
Definition initializeApp_enter (has_loader : bool) (s : State) : State * (bool * bool) :=
  let s0 := showLoader has_loader s in
  let '(s1, followers_fetched) := loadStaticJsonData_enter s0 in
  let '(s2, following_fetched) := loadStaticJsonData_enter s1 in
  (s2, (followers_fetched, following_fetched)).


(** *** Export

    [format] is the value of [#exportFormat] and [clean] the state of
    [#cleanUsernames]. *)
Definition processedUsers (clean : bool) (users : list string) : list string :=
  (λ user, if clean then user else "@" +:+ user) <$> users.

(** The text [updateExportPreview] puts into [#exportPreview]. *)
Definition previewText (format : string) (clean : bool) (s : State) : string :=
  let previewUsers := take 5 (nonFollowers s) in
  if (length previewUsers =? 0)%nat then "[No non-followers to preview]"
  else if String.eqb format "txt" then Array_join nl (processedUsers clean previewUsers)
  else if String.eqb format "csv"
  then "Username" +:+ nl +:+ Array_join nl (processedUsers clean previewUsers)
  else if String.eqb format "json"
  then stringify_array EmptyString (processedUsers clean previewUsers)
  else "[Invalid format selected]".

Record Download : Type := mkDownload {
  fileContent : string;
  mimeType : string;
  fileExtension : string
}.

(** What [performExport] hands to the browser, if anything. *)
Definition performExport (format : string) (clean : bool) (s : State) : option Download :=
  let usersToExport := processedUsers clean (nonFollowers s) in
  if (length usersToExport =? 0)%nat then None
  else if String.eqb format "txt"
  then Some (mkDownload (Array_join nl usersToExport) "text/plain" "txt")
  else if String.eqb format "csv"
  then Some (mkDownload ("Username" +:+ nl +:+ Array_join nl usersToExport) "text/csv" "csv")
  else if String.eqb format "json"
  then Some (mkDownload (stringify_array EmptyString usersToExport) "application/json" "json")
  else None.

End Part000.

(* --------------------------------------------------------------------- *)
(** ** [main.js]: the first script *)
(* --------------------------------------------------------------------- *)

Module MainJs.

Inductive error : Type :=
| TypeError (detail : string).

(** [followingNames] and [followersNames] hold whatever [stringData.value]
    was, [undefined] included. This is [namesArray] after the inner
    [forEach], and the error that stopped it. *)
Fixpoint push_values (entries : list json) (namesArray : list value)
  : list value * option error :=
  match entries with
  | [] => (namesArray, None)
  | JNull :: _ =>
      (namesArray, Some (TypeError "Cannot read properties of null (reading 'value')"))
  | stringData :: rest => push_values rest (namesArray ++ [prop stringData "value"])
  end.

Definition visit_item (item : json) (namesArray : list value)
  : list value * option error :=
  match item with
  | JNull =>
      (namesArray,
       Some (TypeError "Cannot read properties of null (reading 'string_list_data')"))
  | _ =>
      let string_list_data := prop item "string_list_data" in
      if negb (truthy string_list_data) then (namesArray, None)
      else match string_list_data with
           | Some (JArr entries) => push_values entries namesArray
           | _ => (namesArray,
                   Some (TypeError "item.string_list_data.forEach is not a function"))
           end
  end.

Fixpoint visit_items (items : list json) (namesArray : list value)
  : list value * option error :=
  match items with
  | [] => (namesArray, None)
  | item :: rest =>
      match visit_item item namesArray with
      | (namesArray', None) => visit_items rest namesArray'
      | stopped => stopped
      end
  end.

(** The [then] callback of [fetchAndProcessJSON] on the parsed response. *)
Definition fetchAndProcessJSON (data : json) (namesArray : list value)
  : list value * option error :=
  match data with
  | JArr items => visit_items items namesArray
  | JNull =>
      (namesArray, Some (TypeError "Cannot read properties of null (reading 'forEach')"))
  | _ => (namesArray, Some (TypeError "data.forEach is not a function"))
  end.

(** [Array.prototype.includes] compares with SameValueZero; the two arrays
    come from two responses, so an object in one is never the object in the
    other. *)
Definition sameValueZero (a b : value) : bool :=
  match a, b with
  | None, None => true
  | Some JNull, Some JNull => true
  | Some (JBool x), Some (JBool y) => Bool.eqb x y
  | Some (JNum x), Some (JNum y) => (x =? y)%Z
  | Some (JStr x), Some (JStr y) => String.eqb x y
  | _, _ => false
  end.

Definition Array_includes (l : list value) (x : value) : bool :=
  existsb (sameValueZero x) l.

(** [usersWhoDontFollowBack] of [getUsersWhoDonotFollowBack]. *)
Definition getUsersWhoDonotFollowBack (followingNames followersNames : list value)
  : list value :=
  List.filter (λ name, negb (Array_includes followersNames name)) followingNames.

(** The two arrays and [#users-list]: the paragraphs appended to it, each
    as the names it lists ([@name] joined by [<br>]). *)
Record Page : Type := mkPage {
  followersNames : list value;
  followingNames : list value;
  container : list (list value)
}.

(** [getUsersWhoDonotFollowBack()] on the page. *)
Definition show_users (p : Page) : Page :=
  let usersWhoDontFollowBack :=
    getUsersWhoDonotFollowBack (followingNames p) (followersNames p) in
  if (0 <? length usersWhoDontFollowBack)%nat
  then mkPage (followersNames p) (followingNames p)
              (container p ++ [usersWhoDontFollowBack])
  else p.

Inductive names_array : Type := FollowersNames | FollowingNames.

(** [fetchAndProcessJSON(jsonFile, namesArray)] from the moment the parsed
    response arrives: the callback runs to its end before any other
    callback starts, and what it throws is caught and logged. *)
Definition response_arrives (namesArray : names_array) (data : json) (p : Page) : Page :=
  let '(names, stopped) :=
    fetchAndProcessJSON data (match namesArray with
                              | FollowersNames => followersNames p
                              | FollowingNames => followingNames p
                              end) in
  let p1 := match namesArray with
            | FollowersNames => mkPage names (followingNames p) (container p)
            | FollowingNames => mkPage (followersNames p) names (container p)
            end in
  match stopped with
  | Some _ => p1
  | None => if (0 <? length names)%nat then show_users p1 else p1
  end.

End MainJs.

(* --------------------------------------------------------------------- *)
(** ** A host to run the code on *)
(* --------------------------------------------------------------------- *)

(** The theorems hold for every [Host]. To evaluate the code on concrete
    files, this host compares strings by code units and parses a fragment of
    JSON: [null], [true], [false], integers, strings without escapes, arrays,
    and objects whose keys are distinct and do not start with a digit (so
    that the order of the text is the order of [Object.keys]). On a text of
    the fragment it yields the value [JSON.parse] yields; it rejects every
    other text. *)
Module Sample.

Definition codeUnitCompare (a b : string) : Z :=
  match String.compare a b with
  | Lt => (-1)%Z
  | Eq => 0%Z
  | Gt => 1%Z
  end.

Definition is_json_ws (c : ascii) : bool :=
  let n := N_of_ascii c in
  (n =? 32)%N || (n =? 9)%N || (n =? 10)%N || (n =? 13)%N.

Definition is_digit (c : ascii) : bool := in_range 48 57 (N_of_ascii c).

Definition quote : ascii := "034"%char.

Definition backslash : ascii := "092"%char.

(** JSON texts are written with apostrophes in place of the double quotes. *)
Fixpoint dq (s : string) : string :=
  match s with
  | EmptyString => EmptyString
  | String c s' => String (if Ascii.eqb c "'"%char then quote else c) (dq s')
  end.

Fixpoint skip_ws (s : string) : string :=
  match s with
  | String c s' => if is_json_ws c then skip_ws s' else s
  | EmptyString => EmptyString
  end.

(** The characters of a string literal after its opening quote. *)
Fixpoint parse_chars (s : string) : option (string * string) :=
  match s with
  | EmptyString => None
  | String c s' =>
      if Ascii.eqb c quote then Some (EmptyString, s')
      else if Ascii.eqb c "\"%char || (N_of_ascii c <? 32)%N then None
      else match parse_chars s' with
           | Some (str, rest) => Some (String c str, rest)
           | None => None
           end
  end.

Fixpoint parse_digits (acc : Z) (s : string) : Z * string :=
  match s with
  | String c s' =>
      if is_digit c
      then parse_digits (10 * acc + Z.of_N (N_of_ascii c - 48)) s'
      else (acc, s)
  | EmptyString => (acc, s)
  end.

(** An integer without a sign: one digit, or several not starting with 0,
    and no fraction or exponent after it. *)
Definition parse_nat (s : string) : option (Z * string) :=
  match s with
  | String c s' =>
      if is_digit c then
        let '(z, rest) := parse_digits 0 s in
        let leading_zero :=
          Ascii.eqb c "0"%char &&
          match s' with String d _ => is_digit d | EmptyString => false end in
        let continues :=
          match rest with
          | String d _ => Ascii.eqb d "."%char || Ascii.eqb d "e"%char || Ascii.eqb d "E"%char
          | EmptyString => false
          end in
        if leading_zero || continues then None else Some (z, rest)
      else None
  | EmptyString => None
  end.

Definition expect (word : string) (v : json) (s : string) : option (json * string) :=
  if String.prefix word s
  then Some (v, String.substring (String.length word)
                                 (String.length s - String.length word) s)
  else None.

Definition key_ok (k : string) (seen : list (string * json)) : bool :=
  match k with
  | String c _ => negb (is_digit c)
  | EmptyString => true
  end && negb (bool_decide (k ∈ map fst seen)).

Fixpoint parse_value (fuel : nat) (s : string) : option (json * string) :=
  match fuel with
  | O => None
  | S fuel' =>
      match skip_ws s with
      | String c rest =>
          if Ascii.eqb c "n"%char then expect "null" JNull (String c rest)
          else if Ascii.eqb c "t"%char then expect "true" (JBool true) (String c rest)
          else if Ascii.eqb c "f"%char then expect "false" (JBool false) (String c rest)
          else if Ascii.eqb c quote then
            match parse_chars rest with
            | Some (str, rest') => Some (JStr str, rest')
            | None => None
            end
          else if Ascii.eqb c "-"%char then
            match parse_nat rest with
            | Some (z, rest') => Some (JNum (- z), rest')
            | None => None
            end
          else if is_digit c then
            match parse_nat (String c rest) with
            | Some (z, rest') => Some (JNum z, rest')
            | None => None
            end
          else if Ascii.eqb c "["%char then
            match skip_ws rest with
            | String d rest' =>
                if Ascii.eqb d "]"%char then Some (JArr [], rest')
                else parse_elements fuel' [] rest
            | EmptyString => None
            end
          else if Ascii.eqb c "{"%char then
            match skip_ws rest with
            | String d rest' =>
                if Ascii.eqb d "}"%char then Some (JObj [], rest')
                else parse_members fuel' [] rest
            | EmptyString => None
            end
          else None
      | EmptyString => None
      end
  end
with parse_elements (fuel : nat) (acc : list json) (s : string)
  : option (json * string) :=
  match fuel with
  | O => None
  | S fuel' =>
      match parse_value fuel' s with
      | Some (v, rest) =>
          match skip_ws rest with
          | String d rest' =>
              if Ascii.eqb d ","%char then parse_elements fuel' (v :: acc) rest'
              else if Ascii.eqb d "]"%char then Some (JArr (rev (v :: acc)), rest')
              else None
          | EmptyString => None
          end
      | None => None
      end
  end
with parse_members (fuel : nat) (acc : list (string * json)) (s : string)
  : option (json * string) :=
  match fuel with
  | O => None
  | S fuel' =>
      match skip_ws s with
      | String q after_quote =>
          if Ascii.eqb q quote then
            match parse_chars after_quote with
            | Some (k, rest) =>
                match skip_ws rest with
                | String colon rest' =>
                    if Ascii.eqb colon ":"%char && key_ok k acc then
                      match parse_value fuel' rest' with
                      | Some (v, rest'') =>
                          match skip_ws rest'' with
                          | String d rest3 =>
                              if Ascii.eqb d ","%char
                              then parse_members fuel' ((k, v) :: acc) rest3
                              else if Ascii.eqb d "}"%char
                              then Some (JObj (rev ((k, v) :: acc)), rest3)
                              else None
                          | EmptyString => None
                          end
                      | None => None
                      end
                    else None
                | EmptyString => None
                end
            | None => None
            end
          else None
      | EmptyString => None
      end
  end.

Definition parse (text : string) : string + json :=
  match parse_value (S (String.length text)) text with
  | Some (v, rest) =>
      match skip_ws rest with
      | EmptyString => inr v
      | _ => inl "Unexpected non-whitespace character after JSON"
      end
  | None => inl "Unexpected token"
  end.

Definition host : Host := {|
  JSON_parse := parse;
  localeCompare := codeUnitCompare
|}.

(** A second host. Its collation gives no weight to the control characters
    U+0000 to U+0008 and U+000E to U+001F, as the collation of the engines
    does: two names that differ only in such characters compare as equal. *)
Definition ignorable (c : ascii) : bool :=
  let n := N_of_ascii c in
  ((n <=? 8) || ((14 <=? n) && (n <=? 31)))%N.

Fixpoint collation_key (s : string) : string :=
  match s with
  | EmptyString => EmptyString
  | String c s' => if ignorable c then collation_key s' else String c (collation_key s')
  end.

Definition collating_host : Host := {|
  JSON_parse := parse;
  localeCompare := λ a b, codeUnitCompare (collation_key a) (collation_key b)
|}.

End Sample.

(* --------------------------------------------------------------------- *)
(** ** Concrete pages, files and records *)
(* --------------------------------------------------------------------- *)

Section Inputs.
Import Part001.

Definition state_of (F G : list string) : State :=
  mkState F G [] None None true false false false.

Definition followers_upload (text : string) : change_event :=
  mkChange "followersFile" [mkFile "followers_1.json" (ReadText text)].

Definition following_upload (text : string) : change_event :=
  mkChange "followingFile" [mkFile "following.json" (ReadText text)].

Definition alice_twice : list json :=
  [JObj [("string_list_data", JArr [JObj [("value", JStr "Alice")]])];
   JObj [("string_list_data", JArr [JObj [("value", JStr "alice")]])]].

Definition loaded_page (users : list string) (search : string) : Page :=
  mkPage (mkState [] users users None None true false true true) search Loader.

Definition one_without_field : list json :=
  [JObj [("string_list_data", JArr [JObj [("value", JStr "a")]])];
   JObj [("no_string_list_data", JBool true)];
   JObj [("string_list_data", JArr [JObj [("value", JStr "b")]])]].

(** The text of an export with one record per name. *)
Definition names_file (names : list string) : string :=
  Sample.dq
    ("[" +:+ String.concat ","
              ((λ n, "{'string_list_data':[{'value':'" +:+ n +:+ "'}]}") <$> names)
         +:+ "]").

(** A file whose second entry carries a number where the name belongs. *)
Definition number_for_name : string :=
  Sample.dq "[{'string_list_data':[{'value':'Ann'},{'value':7},{'value':'Bob'}]}]".

(** A record array with a [null] record after a good one. *)
Definition null_record_last : list json :=
  [JObj [("string_list_data", JArr [JObj [("value", JStr "Ann")]])]; JNull].

(** The export dialog, displayed, with a format chosen. *)
Definition dialog_for (format : string) (clean : bool) : ExportDialog :=
  mkDialog "block" format clean EmptyString.

Definition listed (users : list string) : State :=
  set_nonFollowers users initial_state.

(** The name [a] followed by the control character U+0001. *)
Definition a_and_control : string := String "a" (String "001" EmptyString).

Definition part000_state (F G l : list string) (asc : bool) : Part000.State :=
  Part000.mkState F G l None None asc false.

End Inputs.

(* ===================================================================== *)
(** * Part II: lemmas and theorems *)
(* ===================================================================== *)

(** ** Strings *)

Lemma toLowerCase_unit_idem (c : ascii) :
  toLowerCase_unit (toLowerCase_unit c) = toLowerCase_unit c.
Proof. destruct c as [[] [] [] [] [] [] [] []]; reflexivity. Qed.

Lemma toLowerCase_idem (s : string) : toLowerCase (toLowerCase s) = toLowerCase s.
Proof.
  induction s as [|c s IH]; simpl; [reflexivity|].
  by rewrite toLowerCase_unit_idem, IH.
Qed.

Lemma toLowerCase_empty (s : string) : toLowerCase s = EmptyString → s = EmptyString.
Proof. destruct s; [reflexivity | discriminate]. Qed.

Lemma truthy_string_spec (s : string) : truthy_string s = true ↔ s ≠ EmptyString.
Proof.
  unfold truthy_string. destruct (String.eqb_spec s EmptyString) as [->|Hne]; simpl.
  - split; [discriminate | congruence].
  - split; [intros _; exact Hne | reflexivity].
Qed.

Lemma append_cons (c : ascii) (a b : string) : String c a +:+ b = String c (a +:+ b).
Proof. reflexivity. Qed.

Lemma prefix_spec (t s : string) :
  String.prefix t s = true ↔ ∃ b, s = t +:+ b.
Proof.
  revert s. induction t as [|c t IH]; intros s; simpl.
  - split; [intros _; by exists s | intros _; by destruct s].
  - destruct s as [|d s]; [split; [discriminate | intros [b Hb]; discriminate]|].
    simpl. destruct (ascii_dec c d) as [->|Hne].
    + rewrite IH. split; intros [b Hb]; exists b.
      * by rewrite append_cons, Hb.
      * rewrite append_cons in Hb. by injection Hb.
    + split; [discriminate | intros [b Hb]; rewrite append_cons in Hb; congruence].
Qed.

Lemma includes_unfold (s t : string) :
  includes s t =
  if String.prefix t s then true
  else match s with
       | EmptyString => false
       | String _ s' => includes s' t
       end.
Proof. by destruct s. Qed.

(** [includes s t] holds exactly when [s] is [a t b] for some [a] and [b]. *)
Lemma includes_spec (s t : string) :
  includes s t = true ↔ ∃ a b, s = a +:+ t +:+ b.
Proof.
  induction s as [|c s IH]; rewrite includes_unfold.
  - destruct (String.prefix t EmptyString) eqn:Hp.
    + apply prefix_spec in Hp as [b Hb]. split; [intros _ | reflexivity].
      by exists EmptyString, b.
    + split; [discriminate|]. intros (a & b & Hab).
      destruct a; [|discriminate].
      assert (String.prefix t EmptyString = true) by (apply prefix_spec; eauto).
      congruence.
  - destruct (String.prefix t (String c s)) eqn:Hp.
    + apply prefix_spec in Hp as [b Hb]. split; [intros _ | reflexivity].
      by exists EmptyString, b.
    + rewrite IH. split.
      * intros (a & b & ->). by exists (String c a), b.
      * intros (a & b & Hab). destruct a as [|c' a].
        -- assert (String.prefix t (String c s) = true) by (apply prefix_spec; eauto).
           congruence.
        -- rewrite append_cons in Hab. injection Hab as -> ->. eauto.
Qed.

Lemma includes_empty (s : string) : includes s EmptyString = true.
Proof. apply includes_spec. by exists EmptyString, s. Qed.

(** ** Sets *)

Lemma Set_has_spec (s : list string) (x : string) : Set_has s x = true ↔ x ∈ s.
Proof. unfold Set_has. by rewrite bool_decide_eq_true. Qed.

Lemma elem_of_Set_add (x y : string) (s : list string) :
  y ∈ Set_add x s ↔ y = x ∨ y ∈ s.
Proof.
  unfold Set_add. destruct (Set_has s x) eqn:Hx.
  - apply Set_has_spec in Hx. split; [auto | intros [->|]; auto].
  - rewrite elem_of_app, list_elem_of_singleton. tauto.
Qed.

Lemma NoDup_Set_add (x : string) (s : list string) : NoDup s → NoDup (Set_add x s).
Proof.
  intros Hs. unfold Set_add. destruct (Set_has s x) eqn:Hx; [exact Hs|].
  apply NoDup_app. split_and!; [exact Hs | | apply NoDup_singleton].
  intros y Hy ->%list_elem_of_singleton.
  apply Set_has_spec in Hy. congruence.
Qed.

(** ** Sorting *)

Lemma elem_of_rev {A} (x : A) (l : list A) : x ∈ rev l ↔ x ∈ l.
Proof. by rewrite !list_elem_of_In, <- in_rev. Qed.

Lemma sort_insert_perm cmp x l : sort_insert cmp x l ≡ₚ x :: l.
Proof.
  induction l as [|y l IH]; simpl; [reflexivity|].
  destruct (0 <? cmp x y)%Z; [|reflexivity].
  rewrite IH. apply perm_swap.
Qed.

Lemma Array_sort_perm cmp l : Array_sort cmp l ≡ₚ l.
Proof.
  induction l as [|x l IH]; simpl; [reflexivity|].
  by rewrite sort_insert_perm, IH.
Qed.

Lemma elem_of_Array_sort cmp l x : x ∈ Array_sort cmp l ↔ x ∈ l.
Proof. by rewrite Array_sort_perm. Qed.

Section Comparator.
Variable cmp : string → string → Z.
Variable L : list string.
Hypothesis order : total_order_on cmp L.

Lemma cmp_flip a b : a ∈ L → b ∈ L → Z.sgn (cmp b a) = (- Z.sgn (cmp a b))%Z.
Proof.
  intros Ha Hb. destruct order as (Hanti & _ & _). unfold cmp_antisym in Hanti.
  rewrite Forall_forall in Hanti. specialize (Hanti a Ha).
  rewrite Forall_forall in Hanti. exact (Hanti b Hb).
Qed.

Lemma cmp_lt_trans a b c :
  a ∈ L → b ∈ L → c ∈ L → (cmp a b < 0)%Z → (cmp b c < 0)%Z → (cmp a c < 0)%Z.
Proof.
  intros Ha Hb Hc. destruct order as (_ & Htr & _). unfold cmp_trans in Htr.
  rewrite Forall_forall in Htr. specialize (Htr a Ha).
  rewrite Forall_forall in Htr. specialize (Htr b Hb).
  rewrite Forall_forall in Htr. exact (Htr c Hc).
Qed.

Lemma cmp_zero a b : a ∈ L → b ∈ L → cmp a b = 0%Z → a = b.
Proof.
  intros Ha Hb. destruct order as (_ & _ & Hsep). unfold cmp_separates in Hsep.
  rewrite Forall_forall in Hsep. specialize (Hsep a Ha).
  rewrite Forall_forall in Hsep. exact (Hsep b Hb).
Qed.

Lemma before_trans a b c :
  a ∈ L → b ∈ L → c ∈ L → before cmp a b → before cmp b c → before cmp a c.
Proof.
  unfold before. intros Ha Hb Hc Hab Hbc.
  destruct (Z.eq_dec (cmp a b) 0%Z) as [E|E]; [by rewrite (cmp_zero a b Ha Hb E)|].
  destruct (Z.eq_dec (cmp b c) 0%Z) as [E'|E']; [by rewrite <- (cmp_zero b c Hb Hc E')|].
  pose proof (cmp_lt_trans a b c Ha Hb Hc). lia.
Qed.

Lemma before_antisym a b :
  a ∈ L → b ∈ L → before cmp a b → before cmp b a → a = b.
Proof.
  unfold before. intros Ha Hb Hab Hba. apply cmp_zero; [done..|].
  pose proof (cmp_flip a b Ha Hb). lia.
Qed.

Lemma before_descending a b :
  a ∈ L → b ∈ L → before (descending cmp) a b ↔ before cmp b a.
Proof.
  unfold before, descending. intros Ha Hb. pose proof (cmp_flip a b Ha Hb). lia.
Qed.

Lemma sort_insert_sorted x l :
  x ∈ L → l ⊆ L →
  StronglySorted (before cmp) l → StronglySorted (before cmp) (sort_insert cmp x l).
Proof.
  intros Hx Hl Hs. induction l as [|y l IH]; simpl.
  - repeat constructor.
  - assert (Hy : y ∈ L) by (apply Hl; left).
    assert (Hl' : l ⊆ L) by (intros z Hz; apply Hl; by right).
    apply StronglySorted_inv in Hs as [Hs Hall].
    destruct (0 <? cmp x y)%Z eqn:Hc.
    + apply Z.ltb_lt in Hc. constructor; [by apply IH|].
      rewrite sort_insert_perm. constructor; [|exact Hall].
      unfold before. pose proof (cmp_flip x y Hx Hy). lia.
    + apply Z.ltb_ge in Hc. constructor; [by constructor|].
      constructor; [exact Hc|].
      rewrite Forall_forall in Hall |- *. intros z Hz.
      apply (before_trans x y z); auto.
Qed.

Lemma Array_sort_sorted l : l ⊆ L → StronglySorted (before cmp) (Array_sort cmp l).
Proof.
  induction l as [|x l IH]; intros Hl; simpl; [constructor|].
  apply sort_insert_sorted.
  - apply Hl; left.
  - intros z Hz. apply Hl. right. by rewrite elem_of_Array_sort in Hz.
  - apply IH. intros z Hz. apply Hl. by right.
Qed.

Lemma descending_order : total_order_on (descending cmp) L.
Proof.
  unfold total_order_on, cmp_antisym, cmp_trans, cmp_separates, descending.
  split_and!.
  - apply Forall_forall; intros a Ha. apply Forall_forall; intros b Hb.
    pose proof (cmp_flip a b Ha Hb). rewrite !Z.sgn_opp. lia.
  - apply Forall_forall; intros a Ha. apply Forall_forall; intros b Hb.
    apply Forall_forall; intros c Hc.
    pose proof (cmp_flip a b Ha Hb). pose proof (cmp_flip b c Hb Hc).
    pose proof (cmp_flip a c Ha Hc). pose proof (cmp_lt_trans c b a Hc Hb Ha). lia.
  - apply Forall_forall; intros a Ha. apply Forall_forall; intros b Hb.
    intros E. apply cmp_zero; auto. lia.
Qed.

Lemma sorted_rev l :
  l ⊆ L → StronglySorted (before cmp) l → StronglySorted (before (descending cmp)) (rev l).
Proof.
  intros Hl Hs. induction Hs as [|x l Hs IH Hall]; simpl; [constructor|].
  assert (Hx : x ∈ L) by (apply Hl; left).
  assert (Hl' : l ⊆ L) by (intros z Hz; apply Hl; by right).
  apply StronglySorted_app_2; [|by apply IH|repeat constructor].
  intros z y Hz ->%list_elem_of_singleton. rewrite elem_of_rev in Hz.
  apply before_descending; auto.
  rewrite Forall_forall in Hall. auto.
Qed.

End Comparator.

(** Sorting a sorted list with the comparator negated reverses it. *)
Lemma Array_sort_descending cmp l :
  total_order_on cmp l →
  Array_sort (descending cmp) (Array_sort cmp l) = rev (Array_sort cmp l).
Proof.
  intros Hord.
  assert (Hsub : Array_sort cmp l ⊆ l) by (intros z; by rewrite elem_of_Array_sort).
  apply (StronglySorted_unique_strong (before (descending cmp))).
  - intros a b Ha Hb. rewrite elem_of_rev in Hb.
    apply (before_antisym _ l (descending_order cmp l Hord)).
    + rewrite elem_of_Array_sort in Ha. by apply Hsub.
    + by apply Hsub.
  - apply (Array_sort_sorted _ l (descending_order cmp l Hord)). exact Hsub.
  - apply (sorted_rev cmp l Hord); [exact Hsub|].
    by apply (Array_sort_sorted cmp l Hord).
  - rewrite Array_sort_perm. apply Permutation_rev.
Qed.

(** ** [Part001]: reconciliation *)

Section Reconciliation.
Import Part001.
Context `{Host}.

Lemma nonFollowers_sortNonFollowers (s : State) :
  nonFollowers (sortNonFollowers s) =
  Array_sort (if sortAsc s then localeCompare else descending localeCompare)
             (nonFollowers s).
Proof. unfold sortNonFollowers. simpl. by destruct (sortAsc s). Qed.

Lemma sortNonFollowers_perm (s : State) :
  nonFollowers (sortNonFollowers s) ≡ₚ nonFollowers s.
Proof. rewrite nonFollowers_sortNonFollowers. apply Array_sort_perm. Qed.

Lemma filter_no_followers (l : list string) :
  filter (λ user, negb (Set_has [] user)) l = l.
Proof.
  induction l as [|x l IH]; [reflexivity|].
  rewrite filter_cons_True; [by rewrite IH | reflexivity].
Qed.

Lemma calculateNonFollowers_empty (s : State) :
  following s = [] → calculateNonFollowers s = set_nonFollowers [] s.
Proof. intros HG. unfold calculateNonFollowers. by rewrite HG. Qed.

Lemma calculateNonFollowers_nonempty (s : State) :
  following s ≠ [] →
  calculateNonFollowers s =
  sortNonFollowers
    (set_nonFollowers
       (filter (λ user, negb (Set_has (followers s) user)) (following s)) s).
Proof.
  intros HG. unfold calculateNonFollowers, Set_size.
  by destruct (following s).
Qed.

Lemma calculateNonFollowers_perm (s : State) :
  nonFollowers (calculateNonFollowers s) ≡ₚ
  filter (λ user, user ∉ followers s) (following s).
Proof.
  destruct (decide (following s = [])) as [HG|HG].
  - rewrite (calculateNonFollowers_empty s HG). by rewrite HG.
  - rewrite (calculateNonFollowers_nonempty s HG), sortNonFollowers_perm. simpl.
    erewrite list_filter_iff; [reflexivity|].
    intros x. unfold Set_has. rewrite negb_True, bool_decide_spec. tauto.
Qed.

(** C1. For all collections F (followers) and G (following), the computed
    non-follower list is, as a set, exactly { u ∈ G : u ∉ F }; it repeats no
    name when G repeats none; and it is the same collection in whatever order
    the inputs list their elements. *)
Theorem calculateNonFollowers_set_difference (s : State) :
  (list_to_set (nonFollowers (calculateNonFollowers s)) : gset string) =
    list_to_set (following s) ∖ list_to_set (followers s)
  ∧ (NoDup (following s) → NoDup (nonFollowers (calculateNonFollowers s)))
  ∧ (∀ s', followers s' ≡ₚ followers s → following s' ≡ₚ following s →
       nonFollowers (calculateNonFollowers s') ≡ₚ
       nonFollowers (calculateNonFollowers s)).
Proof.
  split_and!.
  - apply set_eq. intros u.
    rewrite elem_of_list_to_set, calculateNonFollowers_perm, list_elem_of_filter.
    rewrite elem_of_difference, !elem_of_list_to_set. tauto.
  - intros HG. rewrite calculateNonFollowers_perm. by apply NoDup_filter.
  - intros s' HF HG. rewrite !calculateNonFollowers_perm, HG.
    erewrite list_filter_iff; [reflexivity|].
    intros x. simpl. by rewrite HF.
Qed.

(** C3. With an empty following set the non-follower list is empty, and the
    computation returns normally; with an empty follower set and a non-empty
    following set, recomputing yields the whole following list (in the
    current sort order). *)
Theorem calculateNonFollowers_edge_cases (s : State) :
  (following s = [] → nonFollowers (calculateNonFollowers s) = [])
  ∧ (following s ≠ [] → followers s = [] →
       nonFollowers (calculateNonFollowers s) ≡ₚ following s
       ∧ nonFollowers (calculateNonFollowers s) =
           Array_sort (if sortAsc s then localeCompare else descending localeCompare)
                      (following s)).
Proof.
  split.
  - intros HG. by rewrite (calculateNonFollowers_empty s HG).
  - intros HG HF.
    assert (E : nonFollowers (calculateNonFollowers s) =
                Array_sort (if sortAsc s then localeCompare else descending localeCompare)
                           (following s)).
    { rewrite (calculateNonFollowers_nonempty s HG), nonFollowers_sortNonFollowers.
      simpl. by rewrite HF, filter_no_followers. }
    split; [|exact E]. rewrite E. apply Array_sort_perm.
Qed.

(** C7. Sorting the non-follower list ascending and then toggling the sort
    direction to descending yields exactly the reverse of the ascending
    sequence, whenever [localeCompare] orders the names of the list
    consistently and ties on no two distinct names. *)
Theorem toggleSort_reverses (p : Page) :
  total_order_on localeCompare (nonFollowers (state p)) →
  let ascending := map_state (λ s, sortNonFollowers (set_sortAsc true s)) p in
  sortAsc (state (toggleSort ascending)) = false
  ∧ nonFollowers (state (toggleSort ascending)) = rev (nonFollowers (state ascending)).
Proof.
  intros Hord ascending.
  assert (Hst : state (toggleSort ascending) =
                sortNonFollowers (set_sortAsc false (state ascending))).
  { unfold toggleSort, renderResults, set_container, map_state. simpl.
    repeat case_match; reflexivity. }
  rewrite Hst. split; [reflexivity|].
  assert (Hasc : nonFollowers (state ascending) =
                 Array_sort localeCompare (nonFollowers (state p))).
  { subst ascending. unfold map_state; simpl state.
    by rewrite nonFollowers_sortNonFollowers. }
  rewrite nonFollowers_sortNonFollowers.
  change (nonFollowers (set_sortAsc false (state ascending)))
    with (nonFollowers (state ascending)).
  change (sortAsc (set_sortAsc false (state ascending))) with false.
  cbv iota. rewrite Hasc. by apply Array_sort_descending.
Qed.

End Reconciliation.

(** ** [Part001]: the importer *)

Section Importer.
Import Part001.
Context `{Host}.

Lemma bind_inr {A B} (c : M A) (k : A → M B) p p' a :
  c p = (p', inr a) → (c ≫= k) p = k a p'.
Proof. intros E. unfold mbind, M_bind, bind. by rewrite E. Qed.

Lemma bind_inl {A B} (c : M A) (k : A → M B) p p' e :
  c p = (p', inl e) → (c ≫= k) p = (p', inl e).
Proof. intros E. unfold mbind, M_bind, bind. by rewrite E. Qed.

Lemma import_values_app add vs ws p :
  import_values add (vs ++ ws) p = import_values add ws (import_values add vs p).
Proof. apply foldl_app. Qed.

Lemma add_entry_ok add entry p :
  entry_ok entry = true →
  add_entry add entry p = (import_values add (option_list (entry_value entry)) p, inr tt).
Proof.
  unfold add_entry, entry_ok, entry_value.
  destruct (opt_prop entry "value") as [[| | |s| |]|]; simpl;
    try (intros ->%negb_true_iff; reflexivity); try discriminate; try reflexivity.
  intros _. by destruct (truthy_string s).
Qed.

Lemma add_entry_fail add entry p :
  entry_ok entry = false → ∃ e, add_entry add entry p = (p, inl e).
Proof.
  unfold add_entry, entry_ok.
  destruct (opt_prop entry "value") as [[| | |s| |]|]; simpl;
    try discriminate; try (intros ->%negb_false_iff; eauto); eauto.
Qed.

Lemma forEach_entries_ok add entries p :
  forallb entry_ok entries = true →
  forEach (add_entry add) entries p =
  (import_values add (omap entry_value entries) p, inr tt).
Proof.
  revert p. induction entries as [|entry entries IH]; intros p Hok; [reflexivity|].
  simpl in Hok. apply andb_true_iff in Hok as [Hentry Hrest].
  simpl forEach. rewrite (bind_inr _ _ _ _ _ (add_entry_ok add entry p Hentry)).
  rewrite IH by done. simpl. by destruct (entry_value entry).
Qed.

Lemma forEach_entries_fail add entries p :
  forallb entry_ok entries = false →
  ∃ p' e, forEach (add_entry add) entries p = (p', inl e).
Proof.
  revert p. induction entries as [|entry entries IH]; intros p Hok; [discriminate|].
  simpl in Hok. simpl forEach. destruct (entry_ok entry) eqn:Hentry.
  - rewrite (bind_inr _ _ _ _ _ (add_entry_ok add entry p Hentry)). by apply IH.
  - destruct (add_entry_fail add entry p Hentry) as [e He].
    rewrite (bind_inl _ _ _ _ _ He). eauto.
Qed.

Lemma add_item_ok add item p :
  item_ok item = true →
  add_item add item p = (import_values add (item_values item) p, inr tt).
Proof.
  unfold add_item, item_ok, item_values.
  destruct (opt_prop item "string_list_data") as [[| | | |entries|]|];
    try discriminate; try reflexivity.
  apply forEach_entries_ok.
Qed.

Lemma add_item_fail add item p :
  item_ok item = false → ∃ p' e, add_item add item p = (p', inl e).
Proof.
  unfold add_item, item_ok.
  destruct (opt_prop item "string_list_data") as [[| | | |entries|]|];
    try discriminate; try (intros _; by eexists _, _).
  apply forEach_entries_fail.
Qed.

Lemma forEach_items_ok add dataArray p :
  forallb item_ok dataArray = true →
  forEach (add_item add) dataArray p =
  (import_values add (file_values dataArray) p, inr tt).
Proof.
  revert p. induction dataArray as [|item items IH]; intros p Hok; [reflexivity|].
  simpl in Hok. apply andb_true_iff in Hok as [Hitem Hrest].
  simpl forEach. rewrite (bind_inr _ _ _ _ _ (add_item_ok add item p Hitem)).
  rewrite IH by done. unfold file_values. simpl. by rewrite import_values_app.
Qed.

Lemma forEach_items_fail add dataArray p :
  forallb item_ok dataArray = false →
  ∃ p' e, forEach (add_item add) dataArray p = (p', inl e).
Proof.
  revert p. induction dataArray as [|item items IH]; intros p Hok; [discriminate|].
  simpl in Hok. simpl forEach. destruct (item_ok item) eqn:Hitem.
  - rewrite (bind_inr _ _ _ _ _ (add_item_ok add item p Hitem)). by apply IH.
  - destruct (add_item_fail add item p Hitem) as (p' & e & He).
    rewrite (bind_inl _ _ _ _ _ He). eauto.
Qed.

(** An import returns normally exactly when every record passes. *)
Lemma forEach_items_success add dataArray p p' :
  forEach (add_item add) dataArray p = (p', inr tt) →
  forallb item_ok dataArray = true
  ∧ p' = import_values add (file_values dataArray) p.
Proof.
  intros E. destruct (forallb item_ok dataArray) eqn:Hok.
  - rewrite forEach_items_ok in E by done. split; [done | congruence].
  - destruct (forEach_items_fail add dataArray p Hok) as (q & e & Hq). congruence.
Qed.

Lemma followers_import_values vs p :
  followers (state (import_values add_follower vs p)) = add_all vs (followers (state p))
  ∧ following (state (import_values add_follower vs p)) = following (state p).
Proof.
  revert p. induction vs as [|v vs IH]; intros p; [done|].
  unfold import_values, add_all in *. simpl. destruct (IH (map_state (add_follower (toLowerCase v)) p)) as [-> ->].
  done.
Qed.

Lemma following_import_values vs p :
  following (state (import_values add_following vs p)) = add_all vs (following (state p))
  ∧ followers (state (import_values add_following vs p)) = followers (state p).
Proof.
  revert p. induction vs as [|v vs IH]; intros p; [done|].
  unfold import_values, add_all in *. simpl. destruct (IH (map_state (add_following (toLowerCase v)) p)) as [-> ->].
  done.
Qed.

Lemma elem_of_add_all u vs acc :
  u ∈ add_all vs acc ↔ u ∈ acc ∨ u ∈ toLowerCase <$> vs.
Proof.
  revert acc. induction vs as [|v vs IH]; intros acc; simpl.
  - rewrite elem_of_nil. tauto.
  - unfold add_all in *. simpl. rewrite IH, elem_of_Set_add, elem_of_cons. tauto.
Qed.

Lemma names_ok_add_all vs acc :
  Forall (λ v, v ≠ EmptyString) vs → names_ok acc → names_ok (add_all vs acc).
Proof.
  revert acc. induction vs as [|v vs IH]; intros acc Hvs Hacc; [exact Hacc|].
  apply Forall_cons in Hvs as [Hv Hvs]. unfold add_all in *. simpl. apply IH; [done|].
  destruct Hacc as [Hnd Hall]. split; [by apply NoDup_Set_add|].
  apply Forall_forall. intros u [->|Hu]%elem_of_Set_add.
  - split; [|apply toLowerCase_idem]. intros E. by apply toLowerCase_empty in E.
  - rewrite Forall_forall in Hall. auto.
Qed.

Lemma entry_value_nonempty entry v : entry_value entry = Some v → v ≠ EmptyString.
Proof.
  unfold entry_value. destruct (opt_prop entry "value") as [[| | |s| |]|]; try discriminate.
  destruct (truthy_string s) eqn:Hs; [|discriminate].
  intros [= <-]. by apply truthy_string_spec.
Qed.

Lemma file_values_nonempty dataArray : Forall (λ v, v ≠ EmptyString) (file_values dataArray).
Proof.
  apply Forall_forall. intros v. unfold file_values.
  rewrite list_elem_of_In, in_concat. intros (vs & Hvs & Hv).
  apply in_map_iff in Hvs as (item & <- & _). unfold item_values in Hv.
  destruct (opt_prop item "string_list_data") as [[| | | |entries|]|];
    try (by destruct Hv).
  apply list_elem_of_In, list_elem_of_omap in Hv as (entry & _ & Hentry).
  by apply entry_value_nonempty in Hentry.
Qed.

Lemma processFollowerDataBatch_success dataArray p p' :
  processFollowerDataBatch dataArray p = (p', inr tt) →
  forallb item_ok dataArray = true
  ∧ followers (state p') = add_all (file_values dataArray) []
  ∧ following (state p') = following (state p).
Proof.
  unfold processFollowerDataBatch. intros E.
  rewrite (bind_inr _ _ p (map_state (λ s, set_followers (Set_clear (followers s)) s) p) tt)
    in E by done.
  apply forEach_items_success in E as [Hok ->]. split; [done|].
  destruct (followers_import_values (file_values dataArray)
              (map_state (λ s, set_followers (Set_clear (followers s)) s) p)) as [-> ->].
  done.
Qed.

Lemma processFollowingDataBatch_success dataArray p p' :
  processFollowingDataBatch dataArray p = (p', inr tt) →
  forallb item_ok dataArray = true
  ∧ following (state p') = add_all (file_values dataArray) []
  ∧ followers (state p') = followers (state p).
Proof.
  unfold processFollowingDataBatch. intros E.
  rewrite (bind_inr _ _ p (map_state (λ s, set_following (Set_clear (following s)) s) p) tt)
    in E by done.
  apply forEach_items_success in E as [Hok ->]. split; [done|].
  destruct (following_import_values (file_values dataArray)
              (map_state (λ s, set_following (Set_clear (following s)) s) p)) as [-> ->].
  done.
Qed.

Lemma processFollowerDataBatch_ok dataArray p :
  forallb item_ok dataArray = true →
  ∃ p', processFollowerDataBatch dataArray p = (p', inr tt).
Proof.
  intros Hok. unfold processFollowerDataBatch.
  rewrite (bind_inr _ _ p (map_state (λ s, set_followers (Set_clear (followers s)) s) p) tt)
    by done.
  rewrite forEach_items_ok by done. eauto.
Qed.

Lemma processFollowingDataBatch_ok dataArray p :
  forallb item_ok dataArray = true →
  ∃ p', processFollowingDataBatch dataArray p = (p', inr tt).
Proof.
  intros Hok. unfold processFollowingDataBatch.
  rewrite (bind_inr _ _ p (map_state (λ s, set_following (Set_clear (following s)) s) p) tt)
    by done.
  rewrite forEach_items_ok by done. eauto.
Qed.

Lemma names_ok_nil : names_ok [].
Proof. split; constructor. Qed.

(** The stored names that are [a] up to letter case are the one name
    [toLowerCase a]. *)
Lemma add_all_collapses vs a :
  Forall (λ v, v ≠ EmptyString) vs → a ∈ vs →
  filter (λ u, toLowerCase u = toLowerCase a) (add_all vs []) = [toLowerCase a].
Proof.
  intros Hvs Ha.
  destruct (names_ok_add_all vs [] Hvs names_ok_nil) as [Hnd Hall].
  assert (Hin : toLowerCase a ∈ add_all vs []).
  { apply elem_of_add_all. right. by apply list_elem_of_fmap_2. }
  revert Hnd Hall Hin. generalize (add_all vs []). intros l.
  induction l as [|u l IH]; intros Hnd Hall Hin; [by apply elem_of_nil in Hin|].
  apply NoDup_cons in Hnd as [Hu Hnd]. apply Forall_cons in Hall as [[_ Hlow] Hall].
  destruct (decide (u = toLowerCase a)) as [->|Hne].
  - rewrite filter_cons_True by apply toLowerCase_idem. f_equal.
    clear IH Hin. induction l as [|w l IH]; [reflexivity|].
    apply Forall_cons in Hall as [[_ Hw] Hall].
    rewrite filter_cons_False.
    + apply IH; [|by apply NoDup_cons in Hnd as [_ ?]|done].
      intros Hin. apply Hu. by right.
    + intros E. apply Hu, elem_of_cons. left. congruence.
  - rewrite filter_cons_False by congruence.
    apply IH; [done..|]. by apply elem_of_cons in Hin as [E|Hin]; [congruence|].
Qed.

Lemma well_formed_item_ok item : well_formed item → item_ok item = true.
Proof.
  intros (entries & Hsld & Hentries). unfold item_ok, opt_prop.
  destruct item; try discriminate. rewrite Hsld.
  apply forallb_forall. intros entry Hentry%list_elem_of_In.
  rewrite Forall_forall in Hentries. destruct (Hentries entry Hentry) as [s Hs].
  unfold entry_ok, opt_prop. destruct entry; try discriminate. by rewrite Hs.
Qed.

Lemma lacking_item_ok item : lacks_string_list_data item → item_ok item = true.
Proof. unfold lacks_string_list_data, item_ok. by intros ->. Qed.

Lemma lacking_item_values item : lacks_string_list_data item → item_values item = [].
Proof. unfold lacks_string_list_data, item_values. by intros ->. Qed.

Lemma forEach_app {A} (f : A → M unit) (l k : list A) p :
  forEach f (l ++ k) p = (forEach f l ≫= λ _, forEach f k) p.
Proof.
  revert p. induction l as [|x l IH]; intros p; [reflexivity|].
  simpl. unfold mbind, M_bind, bind in *.
  destruct (f x p) as [p' [e|[]]]; [reflexivity|]. apply IH.
Qed.

Lemma forEach_skips_lacking add before item after p :
  lacks_string_list_data item →
  forEach (add_item add) (before ++ item :: after) p
  = forEach (add_item add) (before ++ after) p.
Proof.
  intros Hlack. rewrite !forEach_app. unfold mbind, M_bind, bind.
  destruct (forEach (add_item add) before p) as [p' [e|[]]]; [reflexivity|].
  simpl. unfold mbind, M_bind, bind, add_item.
  unfold lacks_string_list_data in Hlack. by rewrite Hlack.
Qed.

(** C8. A record without the [string_list_data] field is skipped without
    failing: on either side, for every sequence of records, the import does
    with such a record in the sequence what it does without it; and for every
    sequence of records that are each either well formed or without the
    field, the import returns normally and the stored names are exactly the
    lowercased non-empty values of the well-formed records. *)
Theorem import_skips_records_without_field (dataArray : list json) (p : Page) :
  (∀ before item after,
     dataArray = before ++ item :: after → lacks_string_list_data item →
     processFollowerDataBatch dataArray p = processFollowerDataBatch (before ++ after) p
     ∧ processFollowingDataBatch dataArray p = processFollowingDataBatch (before ++ after) p)
  ∧ (Forall (λ item, well_formed item ∨ lacks_string_list_data item) dataArray →
     let from_well_formed (u : string) : Prop :=
       ∃ item v, item ∈ dataArray ∧ well_formed item ∧ v ∈ item_values item
                 ∧ u = toLowerCase v in
     (∃ p', processFollowerDataBatch dataArray p = (p', inr tt)
            ∧ ∀ u, u ∈ followers (state p') ↔ from_well_formed u)
     ∧ (∃ p', processFollowingDataBatch dataArray p = (p', inr tt)
            ∧ ∀ u, u ∈ following (state p') ↔ from_well_formed u)).
Proof.
  split.
  { intros before item after -> Hlack.
    unfold processFollowerDataBatch, processFollowingDataBatch, mbind, M_bind, bind.
    simpl. by rewrite !(forEach_skips_lacking _ before item after _ Hlack). }
  intros Hall from_well_formed.
  assert (Hok : forallb item_ok dataArray = true).
  { apply forallb_forall. intros item Hitem%list_elem_of_In.
    rewrite Forall_forall in Hall.
    destruct (Hall item Hitem); [by apply well_formed_item_ok | by apply lacking_item_ok]. }
  assert (Hnames : ∀ u, u ∈ add_all (file_values dataArray) [] ↔ from_well_formed u).
  { intros u. rewrite elem_of_add_all, elem_of_nil, list_elem_of_fmap.
    unfold from_well_formed, file_values. split.
    - intros [[]|(v & -> & Hv)].
      apply list_elem_of_In, in_concat in Hv as (vs & Hvs & Hv).
      apply in_map_iff in Hvs as (item & <- & Hitem%list_elem_of_In).
      apply list_elem_of_In in Hv. exists item, v. split_and!; try done.
      rewrite Forall_forall in Hall. destruct (Hall item Hitem) as [|Hlack]; [done|].
      rewrite (lacking_item_values item Hlack) in Hv. by apply elem_of_nil in Hv.
    - intros (item & v & Hitem & _ & Hv & ->). right. exists v. split; [done|].
      apply list_elem_of_In, in_concat. exists (item_values item).
      split; [|by apply list_elem_of_In]. apply in_map. by apply list_elem_of_In. }
  split.
  - destruct (processFollowerDataBatch_ok dataArray p Hok) as [p' E].
    exists p'. split; [done|].
    apply processFollowerDataBatch_success in E as (_ & -> & _). exact Hnames.
  - destruct (processFollowingDataBatch_ok dataArray p Hok) as [p' E].
    exists p'. split; [done|].
    apply processFollowingDataBatch_success in E as (_ & -> & _). exact Hnames.
Qed.

End Importer.

(** ** [Part001]: uploads *)

Section Uploads.
Import Part001.
Context `{Host}.

Lemma handleFileUpload_parse_failure ev file rest e p :
  files ev = file :: rest →
  parseJsonFile file = inl e →
  handleFileUpload ev p = (mark_not_loaded ev p, inr (Failed e)).
Proof.
  intros Hfiles Hparse. unfold handleFileUpload. rewrite Hfiles.
  unfold try_catch. rewrite (bind_inl _ _ p p e); [reflexivity|].
  unfold lift. by rewrite Hparse.
Qed.

(** C2. For every stored state and every input text that is not valid JSON,
    importing the text for either side fails with the parse error ("Invalid
    JSON: ...") and leaves the stored follower and following collections, and
    the computed list, as they were. *)
Theorem invalid_json_leaves_sets (ev : change_event) (file : File) (rest : list File)
    (text detail : string) (p : Page) :
  files ev = file :: rest →
  content file = ReadText text →
  JSON_parse text = inl detail →
  let result := handleFileUpload ev p in
  snd result = inr (Failed (InvalidJSON detail))
  ∧ followers (state (fst result)) = followers (state p)
  ∧ following (state (fst result)) = following (state p)
  ∧ nonFollowers (state (fst result)) = nonFollowers (state p).
Proof.
  intros Hfiles Hcontent Hparse result. subst result.
  rewrite (handleFileUpload_parse_failure ev file rest (InvalidJSON detail) p Hfiles).
  - unfold mark_not_loaded. by destruct (type_of ev).
  - unfold parseJsonFile. by rewrite Hcontent, Hparse.
Qed.

(** *** [extractDataArray] *)

Lemma scan_keys_found fields keys before key after items :
  keys = before ++ key :: after →
  (∀ k, k ∈ before → Array_isArray (assoc k fields) = false) →
  assoc key fields = Some (JArr items) →
  scan_keys (JObj fields) keys = Some items.
Proof.
  intros -> Hbefore Hkey. induction before as [|k before IH]; simpl.
  - by rewrite Hkey.
  - assert (Hk : Array_isArray (assoc k fields) = false) by (apply Hbefore; left).
    rewrite IH by (intros k' Hk'; apply Hbefore; by right).
    by destruct (assoc k fields) as [[]|].
Qed.

Lemma scan_keys_none fields keys :
  (∀ k, k ∈ keys → Array_isArray (assoc k fields) = false) →
  scan_keys (JObj fields) keys = None.
Proof.
  intros Hkeys. induction keys as [|k keys IH]; [reflexivity|]. simpl.
  assert (Hk : Array_isArray (assoc k fields) = false) by (apply Hkeys; left).
  rewrite IH by (intros k' Hk'; apply Hkeys; by right).
  by destruct (assoc k fields) as [[]|].
Qed.

(** C5, as the code has it. Extraction follows this order: an array is used
    as it is; otherwise the first of the four wrapper keys, in their fixed
    order, whose value is an array gives the result; otherwise the first own
    property, when its name is not empty and its value is an array, gives the
    result; and when the value is no array, no wrapper key holds an array and
    the object is empty or its first own property holds no array, extraction
    fails with the fixed "JSON data structure not recognized" error. *)
Theorem extractDataArray_resolution_order :
  (∀ items, extractDataArray (JArr items) = inr items)
  ∧ (∀ fields before key after items,
       potentialKeys = before ++ key :: after →
       (∀ k, k ∈ before → Array_isArray (assoc k fields) = false) →
       assoc key fields = Some (JArr items) →
       extractDataArray (JObj fields) = inr items)
  ∧ (∀ firstKey items rest,
       (∀ k, k ∈ potentialKeys →
          Array_isArray (assoc k ((firstKey, JArr items) :: rest)) = false) →
       firstKey ≠ EmptyString →
       extractDataArray (JObj ((firstKey, JArr items) :: rest)) = inr items)
  ∧ (∀ data,
       match data with
       | JArr _ => False
       | JObj fields =>
           (∀ k, k ∈ potentialKeys → Array_isArray (assoc k fields) = false)
           ∧ Array_isArray (snd <$> head fields) = false
       | _ => True
       end →
       extractDataArray data = inl NotRecognized)
  ∧ message NotRecognized =
      "JSON data structure not recognized. Expected an array or a common wrapper object (e.g., { relationships_followers: [...] }).".
Proof.
  split_and!.
  - reflexivity.
  - intros fields before key after items Hkeys Hbefore Hkey. unfold extractDataArray.
    by rewrite (scan_keys_found fields _ before key after items Hkeys Hbefore Hkey).
  - intros firstKey items rest Hnone Hne. unfold extractDataArray.
    rewrite (scan_keys_none _ _ Hnone). simpl.
    apply truthy_string_spec in Hne. rewrite Hne. by rewrite String.eqb_refl.
  - intros data Hdata. destruct data as [| | | |items|fields]; try reflexivity; [done|].
    destruct Hdata as [Hnone Hfirst]. unfold extractDataArray.
    rewrite (scan_keys_none _ _ Hnone).
    destruct fields as [|[firstKey v] rest]; [reflexivity|]. simpl.
    destruct (truthy_string firstKey); [|reflexivity].
    rewrite String.eqb_refl. simpl in Hfirst. by destruct v.
  - reflexivity.
Qed.

(** *** The stored collections through any series of events *)

Lemma keeps_ret {A} (a : A) : keeps_sets_ok (ret a).
Proof. by intros p. Qed.

Lemma keeps_throw {A} e : keeps_sets_ok (@throw A e).
Proof. by intros p. Qed.

Lemma keeps_lift {A} (r : error + A) : keeps_sets_ok (lift r).
Proof. by intros p. Qed.

Lemma keeps_bind {A B} (c : M A) (k : A → M B) :
  keeps_sets_ok c → (∀ a, keeps_sets_ok (k a)) → keeps_sets_ok (c ≫= k).
Proof.
  intros Hc Hk p Hp. unfold mbind, M_bind, bind.
  specialize (Hc p Hp). destruct (c p) as [p' [e|a]]; [exact Hc|].
  by apply Hk.
Qed.

Lemma keeps_try_catch {A} (body : M A) (handler : error → M A) :
  keeps_sets_ok body → (∀ e, keeps_sets_ok (handler e)) →
  keeps_sets_ok (try_catch body handler).
Proof.
  intros Hb Hh p Hp. unfold try_catch.
  specialize (Hb p Hp). destruct (body p) as [p' [e|a]]; [|exact Hb].
  by apply Hh.
Qed.

Lemma keeps_forEach {A} (f : A → M unit) (l : list A) :
  (∀ x, keeps_sets_ok (f x)) → keeps_sets_ok (forEach f l).
Proof.
  intros Hf. induction l as [|x l IH]; simpl; [apply keeps_ret|].
  apply keeps_bind; [apply Hf | intros _; exact IH].
Qed.

Lemma keeps_modify (f : State → State) :
  (∀ s, sets_ok s → sets_ok (f s)) → keeps_sets_ok (modify f).
Proof. intros Hf p Hp. by apply Hf. Qed.

Lemma keeps_effect (g : Page → Page) :
  (∀ p, sets_ok (state p) → sets_ok (state (g p))) → keeps_sets_ok (effect g).
Proof. intros Hg p Hp. by apply Hg. Qed.

Lemma names_ok_Set_add x l :
  x ≠ EmptyString → names_ok l → names_ok (Set_add (toLowerCase x) l).
Proof.
  intros Hx Hl. apply (names_ok_add_all [x] l); [|exact Hl].
  by repeat constructor.
Qed.

Lemma keeps_add_entry add entry :
  (∀ x s, x ≠ EmptyString → sets_ok s → sets_ok (add (toLowerCase x) s)) →
  keeps_sets_ok (add_entry add entry).
Proof.
  intros Hadd. unfold add_entry.
  destruct (opt_prop entry "value") as [[| | |x| |]|]; simpl;
    try (case_match; (apply keeps_ret || apply keeps_throw)); try apply keeps_ret;
    try apply keeps_throw.
  destruct (truthy_string x) eqn:Hx; [|apply keeps_ret].
  apply keeps_modify. intros s. apply Hadd. by apply truthy_string_spec.
Qed.

Lemma keeps_add_item add item :
  (∀ x s, x ≠ EmptyString → sets_ok s → sets_ok (add (toLowerCase x) s)) →
  keeps_sets_ok (add_item add item).
Proof.
  intros Hadd. unfold add_item.
  destruct (opt_prop item "string_list_data") as [[| | | |entries|]|];
    try apply keeps_ret; try apply keeps_throw.
  apply keeps_forEach. intros entry. by apply keeps_add_entry.
Qed.

Lemma keeps_processFollowerDataBatch dataArray :
  keeps_sets_ok (processFollowerDataBatch dataArray).
Proof.
  apply keeps_bind.
  - apply keeps_modify. intros s [_ Hg]. split; [apply names_ok_nil | exact Hg].
  - intros _. apply keeps_forEach. intros item. apply keeps_add_item.
    intros x s Hx [Hf Hg]. split; [by apply names_ok_Set_add | exact Hg].
Qed.

Lemma keeps_processFollowingDataBatch dataArray :
  keeps_sets_ok (processFollowingDataBatch dataArray).
Proof.
  apply keeps_bind.
  - apply keeps_modify. intros s [Hf _]. split; [exact Hf | apply names_ok_nil].
  - intros _. apply keeps_forEach. intros item. apply keeps_add_item.
    intros x s Hx [Hf Hg]. split; [exact Hf | by apply names_ok_Set_add].
Qed.

Lemma state_map_state f p : state (map_state f p) = f (state p).
Proof. reflexivity. Qed.

(** [renderResults] writes to [#users-list] only. *)
Lemma state_renderResults p : state (renderResults p) = state p.
Proof. unfold renderResults, set_container. repeat case_match; reflexivity. Qed.

Lemma sets_sortNonFollowers s :
  followers (sortNonFollowers s) = followers s
  ∧ following (sortNonFollowers s) = following s.
Proof. done. Qed.

Lemma sets_calculateNonFollowers s :
  followers (calculateNonFollowers s) = followers s
  ∧ following (calculateNonFollowers s) = following s.
Proof. unfold calculateNonFollowers. by case_match. Qed.

Lemma sets_processLoadedData p :
  followers (state (processLoadedData p)) = followers (state p)
  ∧ following (state (processLoadedData p)) = following (state p).
Proof.
  unfold processLoadedData. repeat case_match; try done.
  rewrite state_map_state, state_renderResults, !state_map_state.
  apply (sets_calculateNonFollowers (set_isDataProcessing true (state p))).
Qed.

Lemma sets_checkAllDataReady p :
  followers (state (checkAllDataReady p)) = followers (state p)
  ∧ following (state (checkAllDataReady p)) = following (state p).
Proof. unfold checkAllDataReady. case_match; [apply sets_processLoadedData | done]. Qed.

Lemma sets_toggleSort p :
  followers (state (toggleSort p)) = followers (state p)
  ∧ following (state (toggleSort p)) = following (state p).
Proof. unfold toggleSort. by rewrite state_renderResults. Qed.

Lemma keeps_handleFileUpload ev : keeps_sets_ok (handleFileUpload ev).
Proof.
  unfold handleFileUpload. destruct (files ev) as [|file rest]; [apply keeps_ret|].
  apply keeps_try_catch.
  - apply keeps_bind; [apply keeps_lift|]. intros data.
    apply keeps_bind; [apply keeps_lift|]. intros dataArray.
    apply keeps_bind.
    + destruct (type_of ev).
      * apply keeps_bind.
        { apply keeps_modify. intros s [_ Hg]. split; [apply names_ok_nil | exact Hg]. }
        intros _. apply keeps_bind; [by apply keeps_modify|].
        intros _. apply keeps_bind; [apply keeps_processFollowerDataBatch|].
        intros _. by apply keeps_modify.
      * apply keeps_bind.
        { apply keeps_modify. intros s [Hf _]. split; [exact Hf | apply names_ok_nil]. }
        intros _. apply keeps_bind; [by apply keeps_modify|].
        intros _. apply keeps_bind; [apply keeps_processFollowingDataBatch|].
        intros _. by apply keeps_modify.
    + intros _. apply keeps_bind; [|intros _; apply keeps_ret].
      apply keeps_effect. intros p [Hf Hg].
      destruct (sets_checkAllDataReady p) as [Ef Eg]. unfold sets_ok. by rewrite Ef, Eg.
  - intros e. apply keeps_bind; [|intros _; apply keeps_ret].
    apply keeps_modify. by destruct (type_of ev).
Qed.

Lemma sets_ok_step e p : sets_ok (state p) → sets_ok (state (step e p)).
Proof.
  intros Hp. destruct e as [ev|text|]; simpl.
  - by apply keeps_handleFileUpload.
  - unfold handleSearchInput. by rewrite state_renderResults.
  - destruct (sets_toggleSort p) as [Ef Eg]. unfold sets_ok. by rewrite Ef, Eg.
Qed.

Lemma sets_ok_run es p : sets_ok (state p) → sets_ok (state (run es p)).
Proof.
  revert p. induction es as [|e es IH]; intros p Hp; [exact Hp|].
  apply IH. by apply sets_ok_step.
Qed.

(** C9. After every series of events (uploads on either side, search input,
    sort toggles), starting from the freshly loaded page, the stored follower
    and following collections hold no name twice and no empty name (a stored
    value is always a string, in lowercased form). *)
Theorem stored_sets_invariant (es : list event) :
  let s := state (run es initial_page) in
  NoDup (followers s) ∧ (EmptyString ∉ followers s)
  ∧ NoDup (following s) ∧ (EmptyString ∉ following s)
  ∧ sets_ok s.
Proof.
  assert (Hok : sets_ok (state (run es initial_page))).
  { apply sets_ok_run. split; apply names_ok_nil. }
  simpl. destruct Hok as [[Hf Hfall] [Hg Hgall]].
  split_and!; try done.
  - intros Hin. rewrite Forall_forall in Hfall. by destruct (Hfall _ Hin).
  - intros Hin. rewrite Forall_forall in Hgall. by destruct (Hgall _ Hin).
Qed.

End Uploads.

(** ** [Part001]: the list view *)

Section ListView.
Import Part001.

Lemma isWhiteSpace_toLowerCase_unit c : isWhiteSpace (toLowerCase_unit c) = isWhiteSpace c.
Proof. destruct c as [[] [] [] [] [] [] [] []]; reflexivity. Qed.

Lemma trimStart_toLowerCase s : trimStart (toLowerCase s) = toLowerCase (trimStart s).
Proof.
  induction s as [|c s IH]; [reflexivity|]. simpl.
  rewrite isWhiteSpace_toLowerCase_unit. by destruct (isWhiteSpace c).
Qed.

Lemma trimEnd_toLowerCase s : trimEnd (toLowerCase s) = toLowerCase (trimEnd s).
Proof.
  induction s as [|c s IH]; [reflexivity|]. simpl.
  rewrite IH, isWhiteSpace_toLowerCase_unit.
  destruct (trimEnd s); simpl; [by destruct (isWhiteSpace c) | reflexivity].
Qed.

(** Trimming and lowercasing commute. *)
Lemma trim_toLowerCase s : trim (toLowerCase s) = toLowerCase (trim s).
Proof. unfold trim. by rewrite trimStart_toLowerCase, trimEnd_toLowerCase. Qed.

Lemma spec_filter_empty l : spec_filter EmptyString l = l.
Proof.
  unfold spec_filter. induction l as [|x l IH]; [reflexivity|].
  rewrite filter_cons_True; [by rewrite IH|].
  simpl. by rewrite includes_empty.
Qed.

Lemma filteredUsers_spec p :
  filteredUsers p = spec_filter (trim (searchInput p)) (nonFollowers (state p)).
Proof.
  unfold filteredUsers, searchTerm. rewrite trim_toLowerCase.
  destruct (truthy_string (toLowerCase (trim (searchInput p)))) eqn:E; [reflexivity|].
  assert (Hempty : trim (searchInput p) = EmptyString).
  { apply toLowerCase_empty. unfold truthy_string in E.
    apply negb_false_iff in E. by apply String.eqb_eq in E. }
  by rewrite Hempty, spec_filter_empty.
Qed.

(** C6, as the code has it. The search text is trimmed first: the list shown
    is exactly the sub-sequence of the canonical list whose names contain the
    trimmed text case-insensitively, in the canonical list's order; rendering
    leaves the [state] object, and so the canonical list, as it was; and a
    text that is empty once trimmed gives the full list. *)
Theorem filter_by_trimmed_search (p : Page) :
  filteredUsers p = spec_filter (trim (searchInput p)) (nonFollowers (state p))
  ∧ (∀ u, u ∈ filteredUsers p ↔
          u ∈ nonFollowers (state p)
          ∧ ∃ a b, toLowerCase u = a +:+ toLowerCase (trim (searchInput p)) +:+ b)
  ∧ filteredUsers p `sublist_of` nonFollowers (state p)
  ∧ state (renderResults p) = state p
  ∧ (trim (searchInput p) = EmptyString → filteredUsers p = nonFollowers (state p))
  ∧ (followersFileLoaded (state p) = true → followingFileLoaded (state p) = true →
     isDataProcessing (state p) = false → filteredUsers p ≠ [] →
     container (renderResults p) = UserList (filteredUsers p)).
Proof.
  split_and!.
  - apply filteredUsers_spec.
  - intros u. rewrite filteredUsers_spec. unfold spec_filter.
    rewrite list_elem_of_filter, Is_true_true, includes_spec. tauto.
  - rewrite filteredUsers_spec. apply sublist_filter.
  - apply state_renderResults.
  - intros E. by rewrite filteredUsers_spec, E, spec_filter_empty.
  - intros Hf Hg Hproc Hne. unfold renderResults. rewrite Hf, Hg, Hproc. simpl.
    destruct (filteredUsers p); [done | reflexivity].
Qed.

(** C6, as worded, fails on a search text with white space around it: a
    single space shows every name, though no name contains a space. *)
Lemma filter_as_worded_counterexample :
  let p := mkPage (set_nonFollowers ["bob"] initial_state) " " Loader in
  filteredUsers p = ["bob"]
  ∧ spec_filter (searchInput p) (nonFollowers (state p)) = []
  ∧ filteredUsers p ≠ spec_filter (searchInput p) (nonFollowers (state p)).
Proof. vm_compute. split_and!; [reflexivity | reflexivity | discriminate]. Qed.

End ListView.

(** ** [Part000]: batches *)

Lemma ceil_div_small m d : 0 < m → m ≤ d → Part000.ceil_div m d = 1.
Proof.
  intros Hm Hd. unfold Part000.ceil_div. symmetry.
  apply (Nat.div_unique _ _ _ (m - 1)); lia.
Qed.

Lemma ceil_div_step m d : 0 < d → d < m → Part000.ceil_div m d = S (Part000.ceil_div (m - d) d).
Proof.
  intros Hd Hm. unfold Part000.ceil_div.
  replace (m + d - 1) with ((m - d + d - 1) + 1 * d) by lia.
  rewrite Nat.div_add by lia. lia.
Qed.

Section BatchProofs.
Import Part000.
Context {A W : Type}.
Variable cfg : Config.
Variable processor : A → W → W.
Variable data : list A.
Hypothesis batchSize_pos : 0 < batchSize cfg.

Abbreviation run_processor := (foldl (λ w item, processor item w)).

Lemma for_loop_spec turns j :
  index j + turns ≤ length data →
  for_loop processor data turns j =
  mkJob (index j + turns)
        (run_processor (world j) (take turns (drop (index j) data)))
        (invoked j ++ seq (index j) turns)
        (batches j) (pending j) (resolved j).
Proof.
  revert j. induction turns as [|turns IH]; intros j Hle.
  - simpl. rewrite Nat.add_0_r, app_nil_r. by destruct j.
  - simpl for_loop. rewrite IH by (simpl; lia). simpl.
    destruct (lookup_lt_is_Some_2 data (index j)) as [item Hitem]; [lia|].
    rewrite Hitem, (drop_S _ _ _ Hitem). simpl.
    rewrite <- app_assoc. simpl. f_equal. lia.
Qed.

Lemma processBatch_spec j :
  index j ≤ length data →
  let end_ := Nat.min (index j + batchSize cfg) (length data) in
  processBatch cfg processor data j =
  mkJob end_
        (run_processor (world j) (take (end_ - index j) (drop (index j) data)))
        (invoked j ++ seq (index j) (end_ - index j))
        (S (batches j))
        (end_ <? length data) (negb (end_ <? length data)).
Proof.
  intros Hle end_. unfold processBatch. fold end_.
  rewrite for_loop_spec by lia. simpl.
  replace (index j + (end_ - index j)) with end_ by lia.
  by destruct (end_ <? length data).
Qed.

Lemma run_timers_idle fuel j :
  pending j = false → run_timers cfg processor fuel data j = j.
Proof. intros Hp. destruct fuel; simpl; [reflexivity | by rewrite Hp]. Qed.

Lemma run_timers_spec fuel j :
  pending j = true → index j < length data →
  length data - index j ≤ fuel * batchSize cfg →
  run_timers cfg processor fuel data j =
  mkJob (length data)
        (run_processor (world j) (drop (index j) data))
        (invoked j ++ seq (index j) (length data - index j))
        (batches j + ceil_div (length data - index j) (batchSize cfg))
        false true.
Proof.
  revert j. induction fuel as [|fuel IH]; intros j Hp Hlt Hfuel; [simpl in Hfuel; lia|].
  simpl run_timers. rewrite Hp, processBatch_spec by (simpl; lia). simpl index.
  set (end_ := Nat.min (index j + batchSize cfg) (length data)).
  assert (Hsplit : drop (index j) data =
                   take (end_ - index j) (drop (index j) data) ++ drop end_ data).
  { rewrite <- (take_drop (end_ - index j) (drop (index j) data)) at 1.
    rewrite drop_drop. do 2 f_equal. lia. }
  destruct (end_ <? length data) eqn:Hend.
  - apply Nat.ltb_lt in Hend.
    rewrite IH by (simpl; nia). simpl.
    rewrite Hsplit at 2. rewrite foldl_app, <- app_assoc.
    replace (length data - index j) with ((end_ - index j) + (length data - end_)) at 1 by lia.
    rewrite seq_app.
    replace (index j + (end_ - index j)) with end_ by lia.
    rewrite (ceil_div_step (length data - index j)) by lia.
    replace (length data - index j - batchSize cfg) with (length data - end_) by lia.
    f_equal. lia.
  - apply Nat.ltb_ge in Hend.
    rewrite run_timers_idle by done. simpl.
    assert (E : end_ = length data) by lia.
    assert (Hrest : drop end_ data = []) by (rewrite E; apply drop_all).
    rewrite Hrest, app_nil_r in Hsplit. rewrite <- Hsplit.
    rewrite ceil_div_small by lia.
    rewrite E. f_equal. lia.
Qed.

Lemma processInBatches_spec s0 :
  processInBatches cfg processor data s0 =
  mkJob (length data) (run_processor s0 data) (seq 0 (length data))
        (Nat.max 1 (ceil_div (length data) (batchSize cfg))) false true.
Proof.
  unfold processInBatches. rewrite processBatch_spec by (simpl; lia). simpl index.
  set (end_ := Nat.min (0 + batchSize cfg) (length data)). simpl.
  rewrite Nat.sub_0_r, drop_0.
  destruct (end_ <? length data) eqn:Hend.
  - apply Nat.ltb_lt in Hend.
    rewrite run_timers_spec by (simpl; nia). simpl.
    rewrite <- foldl_app, take_drop, <- seq_app.
    replace (end_ + (length data - end_)) with (length data) by lia.
    rewrite (ceil_div_step (length data) (batchSize cfg)) by lia.
    f_equal. replace (length data - batchSize cfg) with (length data - end_) by lia. lia.
  - apply Nat.ltb_ge in Hend. rewrite run_timers_idle by done.
    assert (E : end_ = length data) by lia. rewrite E, firstn_all.
    f_equal. destruct (decide (length data = 0)) as [Hz|Hnz].
    + rewrite Hz. unfold ceil_div. rewrite Nat.div_small by lia. reflexivity.
    + rewrite ceil_div_small by lia. reflexivity.
Qed.

End BatchProofs.

(** C10, as the code has it. For every array and every processor, with the
    configured batch size of 500, [processInBatches] calls the processor
    exactly once on each element, in increasing index order, and its promise
    resolves, with no timer left, after [max 1 (ceil (n / 500))] runs of
    [processBatch]: [ceil (n / 500)] runs for a non-empty array and one run,
    over no element, for the empty array. *)
Theorem processInBatches_terminates {A W} (processor : A → W → W) (data : list A) (s0 : W) :
  let job := Part000.processInBatches Part000.CONFIG processor data s0 in
  Part000.resolved job = true
  ∧ Part000.pending job = false
  ∧ Part000.invoked job = seq 0 (length data)
  ∧ Part000.world job = foldl (λ w item, processor item w) s0 data
  ∧ Part000.batches job = Nat.max 1 (Part000.ceil_div (length data) 500)
  ∧ (data ≠ [] → Part000.batches job = Part000.ceil_div (length data) 500).
Proof.
  intros job. subst job.
  rewrite (processInBatches_spec Part000.CONFIG processor data) by (simpl; lia).
  split_and!; try reflexivity.
  intros Hne. cbn [Part000.batches].
  change (Part000.batchSize Part000.CONFIG) with 500.
  assert (0 < length data) by (destruct data; [done | simpl; lia]).
  destruct (decide (length data ≤ 500)).
  - rewrite ceil_div_small by lia. reflexivity.
  - rewrite (ceil_div_step (length data) 500) by lia. lia.
Qed.

(** C10, as worded, fails on the empty array: [processBatch] runs once, over
    no element, before the promise resolves, while [ceil (0 / 500)] is 0. *)
Lemma processInBatches_empty_counterexample :
  let job := Part000.processInBatches Part000.CONFIG (λ (_ : nat) (w : unit), w) [] tt in
  Part000.resolved job = true
  ∧ Part000.batches job = 1
  ∧ Part000.ceil_div 0 (Part000.batchSize Part000.CONFIG) = 0
  ∧ Part000.batches job ≠ Part000.ceil_div 0 (Part000.batchSize Part000.CONFIG).
Proof. vm_compute. split_and!; [reflexivity.. | discriminate]. Qed.

(** C5, as worded, fails twice: an object whose first own property has the
    empty name and an array value is rejected, and the error raised names a
    single wrapper key, as an example, not the keys that were tried. *)
Lemma extractDataArray_counterexample :
  Part001.extractDataArray (JObj [(EmptyString, JArr [JStr "x"])]) = inl Part001.NotRecognized
  ∧ includes (Part001.message Part001.NotRecognized) "relationships_following" = false
  ∧ ¬ Part001.names_attempted_keys (Part001.message Part001.NotRecognized).
Proof.
  split_and!; [reflexivity | by vm_compute |].
  unfold Part001.names_attempted_keys. intros Hall.
  apply Forall_cons in Hall as [_ Hall]. apply Forall_cons in Hall as [Hkey _].
  vm_compute in Hkey. discriminate.
Qed.

(** ** The properties at concrete inputs *)

Section Witnesses.
Import Part001.

Lemma calculateNonFollowers_set_difference_witness :
  let s := state_of ["x"; "y"] ["x"; "y"; "z"; "w"] in
  let s' := state_of ["y"; "x"] ["w"; "z"; "y"; "x"] in
  NoDup (following s)
  ∧ followers s' ≡ₚ followers s
  ∧ following s' ≡ₚ following s
  ∧ nonFollowers (calculateNonFollowers (H := Sample.host) s) = ["w"; "z"]
  ∧ NoDup (nonFollowers (calculateNonFollowers (H := Sample.host) s))
  ∧ nonFollowers (calculateNonFollowers (H := Sample.host) s') ≡ₚ
    nonFollowers (calculateNonFollowers (H := Sample.host) s).
Proof.
  intros s s'.
  assert (HG : NoDup (following s)) by (simpl; compute_done).
  assert (HF' : followers s' ≡ₚ followers s) by (simpl; compute_done).
  assert (HG' : following s' ≡ₚ following s) by (simpl; compute_done).
  destruct (calculateNonFollowers_set_difference (H := Sample.host) s) as (_ & Hnd & Hperm).
  split_and!; [exact HG | exact HF' | exact HG' | reflexivity | exact (Hnd HG) |].
  exact (Hperm s' HF' HG').
Defined.

Lemma calculateNonFollowers_edge_cases_witness :
  following (state_of ["a"] []) = []
  ∧ following (state_of [] ["b"; "a"]) ≠ []
  ∧ followers (state_of [] ["b"; "a"]) = []
  ∧ nonFollowers (calculateNonFollowers (H := Sample.host) (state_of ["a"] [])) = []
  ∧ nonFollowers (calculateNonFollowers (H := Sample.host) (state_of [] ["b"; "a"]))
    = ["a"; "b"].
Proof.
  split; [reflexivity|]. split; [simpl; discriminate|]. split; [reflexivity|].
  split.
  - destruct (calculateNonFollowers_edge_cases (H := Sample.host) (state_of ["a"] []))
      as [Hempty _].
    apply Hempty. reflexivity.
  - destruct (calculateNonFollowers_edge_cases (H := Sample.host) (state_of [] ["b"; "a"]))
      as [_ Hall].
    assert (Hne : following (state_of [] ["b"; "a"]) ≠ []) by (simpl; discriminate).
    destruct (Hall Hne eq_refl) as [_ ->]. reflexivity.
Defined.

Lemma toggleSort_reverses_witness :
  let p := mkPage (set_nonFollowers ["carol"; "alice"; "bob"] initial_state)
                  EmptyString Loader in
  let ascending := map_state (λ s, sortNonFollowers (H := Sample.host) (set_sortAsc true s)) p in
  total_order_on (localeCompare (Host := Sample.host)) (nonFollowers (state p))
  ∧ nonFollowers (state ascending) = ["alice"; "bob"; "carol"]
  ∧ nonFollowers (state (toggleSort (H := Sample.host) ascending)) = ["carol"; "bob"; "alice"].
Proof.
  intros p ascending.
  assert (Hord : total_order_on (localeCompare (Host := Sample.host))
                                (nonFollowers (state p))) by (simpl; compute_done).
  split; [exact Hord|]. split; [reflexivity|].
  destruct (toggleSort_reverses (H := Sample.host) p Hord) as [_ E]. exact E.
Defined.

Lemma invalid_json_leaves_sets_witness :
  let p := run (H := Sample.host)
             [FileChosen (followers_upload (Sample.dq "[{'string_list_data':[{'value':'Alice'}]}]"))]
             initial_page in
  let ev := followers_upload "{not json" in
  let result := handleFileUpload (H := Sample.host) ev p in
  followers (state p) = ["alice"]
  ∧ JSON_parse (Host := Sample.host) "{not json" = inl "Unexpected token"
  ∧ snd result = inr (Failed (InvalidJSON "Unexpected token"))
  ∧ followers (state (fst result)) = ["alice"].
Proof.
  intros p ev result. split; [reflexivity|]. split; [reflexivity|].
  destruct (invalid_json_leaves_sets (H := Sample.host) ev
              (mkFile "followers_1.json" (ReadText "{not json")) []
              "{not json" "Unexpected token" p eq_refl eq_refl eq_refl)
    as (Hout & Hf & _).
  split; [exact Hout | exact Hf].
Defined.

Lemma extractDataArray_resolution_order_witness :
  extractDataArray (JArr [JNum 1]) = inr [JNum 1]
  ∧ extractDataArray
      (JObj [("note", JArr []); ("string_map_data", JArr [JNum 4]);
             ("relationships_following", JArr [JNum 2])]) = inr [JNum 2]
  ∧ extractDataArray (JObj [("mine", JArr [JNum 3]); ("other", JNull)]) = inr [JNum 3]
  ∧ extractDataArray (JObj [("mine", JStr "x"); ("other", JArr [])]) = inl NotRecognized
  ∧ extractDataArray (JStr "x") = inl NotRecognized.
Proof.
  destruct extractDataArray_resolution_order as (Harr & Hkey & Hfirst & Hfail & _).
  split_and!.
  - apply Harr.
  - apply (Hkey _ ["relationships_followers"] "relationships_following"
             ["relationships_unfollowed_users"; "string_map_data"]); [reflexivity | | reflexivity].
    intros k Hk. apply list_elem_of_singleton in Hk as ->. reflexivity.
  - apply Hfirst; [|discriminate].
    intros k Hk. unfold potentialKeys in Hk.
    repeat (apply elem_of_cons in Hk as [->|Hk]; [reflexivity|]).
    by apply elem_of_nil in Hk.
  - apply (Hfail (JObj [("mine", JStr "x"); ("other", JArr [])])). split; [|reflexivity].
    intros k Hk. unfold potentialKeys in Hk.
    repeat (apply elem_of_cons in Hk as [->|Hk]; [reflexivity|]).
    by apply elem_of_nil in Hk.
  - by apply (Hfail (JStr "x")).
Defined.

Lemma filter_by_trimmed_search_witness :
  let p := loaded_page ["alice"; "bob"; "bobby"] " BO " in
  let q := loaded_page ["alice"; "bob"] "  " in
  trim (searchInput q) = EmptyString
  ∧ filteredUsers p ≠ []
  ∧ filteredUsers p = ["bob"; "bobby"]
  ∧ container (renderResults p) = UserList ["bob"; "bobby"]
  ∧ filteredUsers q = ["alice"; "bob"].
Proof.
  intros p q.
  destruct (filter_by_trimmed_search p) as (_ & _ & _ & _ & _ & Hshown).
  destruct (filter_by_trimmed_search q) as (_ & _ & _ & _ & Hempty & _).
  assert (Hne : filteredUsers p ≠ []) by (vm_compute; discriminate).
  split_and!; [reflexivity | exact Hne | reflexivity | | exact (Hempty eq_refl)].
  exact (Hshown eq_refl eq_refl eq_refl Hne).
Defined.

Lemma import_skips_records_without_field_witness :
  Forall (λ item, well_formed item ∨ lacks_string_list_data item) one_without_field
  ∧ lacks_string_list_data (JObj [("no_string_list_data", JBool true)])
  ∧ JSON_parse (Host := Sample.host)
      (Sample.dq "[{'string_list_data':[{'value':'a'}]}, {'no_string_list_data': true}, {'string_list_data':[{'value':'b'}]}]")
    = inr (JArr one_without_field)
  ∧ processFollowerDataBatch one_without_field initial_page
    = processFollowerDataBatch
        [JObj [("string_list_data", JArr [JObj [("value", JStr "a")]])];
         JObj [("string_list_data", JArr [JObj [("value", JStr "b")]])]] initial_page
  ∧ ∃ p', processFollowerDataBatch one_without_field initial_page = (p', inr tt)
          ∧ followers (state p') = ["a"; "b"].
Proof.
  assert (Hall : Forall (λ item, well_formed item ∨ lacks_string_list_data item)
                        one_without_field).
  { unfold one_without_field. repeat apply Forall_cons_2; [| | |apply Forall_nil_2].
    - left. eexists. split; [reflexivity|]. repeat constructor. by eexists.
    - right. reflexivity.
    - left. eexists. split; [reflexivity|]. repeat constructor. by eexists. }
  destruct (import_skips_records_without_field one_without_field initial_page)
    as [Hskip Hnames].
  destruct (Hnames Hall) as [(p' & E & _) _].
  destruct (Hskip [JObj [("string_list_data", JArr [JObj [("value", JStr "a")]])]]
                  (JObj [("no_string_list_data", JBool true)])
                  [JObj [("string_list_data", JArr [JObj [("value", JStr "b")]])]]
                  eq_refl eq_refl) as [Hsame _].
  split; [exact Hall|]. split; [reflexivity|]. split; [reflexivity|].
  split; [exact Hsame|].
  exists p'. split; [exact E|].
  vm_compute in E. by injection E as <-.
Defined.

Lemma processInBatches_terminates_witness :
  let data := seq 0 1201 in
  let job := Part000.processInBatches Part000.CONFIG (λ item w, item :: w) data [] in
  data ≠ []
  ∧ Part000.resolved job = true
  ∧ Part000.invoked job = seq 0 1201
  ∧ Part000.world job = rev (seq 0 1201)
  ∧ Part000.batches job = 3.
Proof.
  intros data job.
  assert (Hne : data ≠ []) by (vm_compute; discriminate).
  destruct (processInBatches_terminates (λ item w, item :: w) data [])
    as (Hres & _ & Hinv & Hworld & _ & Hbatches).
  split_and!; [exact Hne | exact Hres | exact Hinv | | ].
  - subst job. rewrite Hworld. by vm_compute.
  - subst job. rewrite (Hbatches Hne). by vm_compute.
Defined.

End Witnesses.

(** C7, as worded, does not hold of a host whose collation ties on two
    distinct names: the sort is stable, so it keeps two names that compare
    as equal in the order of the list in both directions, and the toggle
    does not turn the sequence around. The names [a] and [a] followed by
    U+0001 are distinct, lowercased and not empty, as stored names are. *)
Lemma toggleSort_tie_counterexample :
  let p := Part001.mkPage (listed ["a"; a_and_control]) EmptyString Part001.Loader in
  let ascending :=
    Part001.map_state
      (λ s, Part001.sortNonFollowers (H := Sample.collating_host)
              (Part001.set_sortAsc true s)) p in
  let descending := Part001.toggleSort (H := Sample.collating_host) ascending in
  Part001.names_ok (Part001.nonFollowers (Part001.state p))
  ∧ length (Part001.nonFollowers (Part001.state p)) = 2%nat
  ∧ localeCompare (Host := Sample.collating_host) "a" a_and_control = 0%Z
  ∧ ¬ total_order_on (localeCompare (Host := Sample.collating_host))
        (Part001.nonFollowers (Part001.state p))
  ∧ Part001.sortAsc (Part001.state descending) = false
  ∧ Part001.nonFollowers (Part001.state ascending) = ["a"; a_and_control]
  ∧ Part001.nonFollowers (Part001.state descending) = ["a"; a_and_control]
  ∧ Part001.nonFollowers (Part001.state descending)
    ≠ rev (Part001.nonFollowers (Part001.state ascending)).
Proof.
  intros p ascending descending. split_and!.
  - split; [simpl; compute_done|]. simpl. repeat constructor; discriminate.
  - reflexivity.
  - reflexivity.
  - simpl. compute_done.
  - reflexivity.
  - reflexivity.
  - reflexivity.
  - vm_compute. discriminate.
Qed.

(** ** The earlier revisions *)

Section EarlierRevisions.
Context `{Host}.

(** X24. [Part000] computes the same difference, without the guard on an
    empty following set: a name is in the list exactly when it is in the
    following collection and not in the follower collection. *)
Lemma part000_calculateNonFollowers_difference (s : Part000.State) (u : string) :
  u ∈ Part000.nonFollowers (Part000.calculateNonFollowers s)
  ↔ u ∈ Part000.following s ∧ u ∉ Part000.followers s.
Proof.
  unfold Part000.calculateNonFollowers. simpl.
  rewrite elem_of_Array_sort, list_elem_of_filter.
  unfold Set_has. rewrite negb_True, bool_decide_spec. tauto.
Qed.

(** In [Part000] an empty follower collection stops the analysis: the list
    is not recomputed. [Part001] replaced the test by the two load flags. *)
Lemma part000_processLoadedData_gate (s : Part000.State) :
  Part000.followers s = [] ∨ Part000.following s = [] →
  Part000.processLoadedData s = s.
Proof.
  unfold Part000.processLoadedData, Set_size. by intros [-> | ->]; [|rewrite orb_true_r].
Qed.

(** [Part000] does not trim the search text, and sorts the matches again. *)
Lemma part000_filteredUsers_perm (searchInput : string) (s : Part000.State) :
  Part000.filteredUsers searchInput s ≡ₚ
  Part001.spec_filter searchInput (Part000.nonFollowers s).
Proof. unfold Part000.filteredUsers. apply Array_sort_perm. Qed.

(** [Part000] re-sorts what it shows, not the list it keeps. *)
Lemma part000_toggleSort_keeps_list (s : Part000.State) :
  Part000.nonFollowers (Part000.toggleSort s) = Part000.nonFollowers s
  ∧ Part000.sortAsc (Part000.toggleSort s) = negb (Part000.sortAsc s).
Proof. done. Qed.

(** [Part000] knows no wrapper key: only the first own property counts. *)
Lemma part000_uploaded_dataArray_first_property :
  let data := JObj [("note", JStr "x"); ("relationships_followers", JArr [JNum 1])] in
  Part000.uploaded_dataArray data = inl Part000.NotAnArray
  ∧ Part001.extractDataArray data = inr [JNum 1].
Proof. done. Qed.

End EarlierRevisions.

Lemma mainjs_includes_string (F : list string) (u : string) :
  MainJs.Array_includes ((λ x, Some (JStr x)) <$> F) (Some (JStr u)) = bool_decide (u ∈ F).
Proof.
  unfold MainJs.Array_includes.
  induction F as [|x F IH]; [reflexivity|]. cbn [fmap list_fmap existsb].
  rewrite IH. cbn [MainJs.sameValueZero].
  destruct (String.eqb_spec u x) as [->|Hne]; simpl.
  - symmetry. apply bool_decide_eq_true. left.
  - destruct (decide (u ∈ F)) as [Hin|Hnin].
    + rewrite !bool_decide_eq_true_2; [done | by right | done].
    + rewrite !bool_decide_eq_false_2; [done | | done].
      by intros [?|?]%elem_of_cons.
Qed.

(** X25. [main.js] computes the same difference on its arrays of names:
    the names of [followingNames] that are not in [followersNames], in the
    order of [followingNames], a name kept as often as it is listed. *)
Lemma mainjs_difference (F G : list string) :
  MainJs.getUsersWhoDonotFollowBack ((λ x, Some (JStr x)) <$> G) ((λ x, Some (JStr x)) <$> F)
  = (λ x, Some (JStr x)) <$> filter (λ u, u ∉ F) G.
Proof.
  unfold MainJs.getUsersWhoDonotFollowBack.
  induction G as [|u G IH]; [reflexivity|]. cbn [fmap list_fmap List.filter].
  rewrite mainjs_includes_string. fold (fmap (λ x, Some (JStr x)) G). rewrite IH.
  destruct (decide (u ∈ F)) as [Hin|Hnin].
  - rewrite bool_decide_eq_true_2 by done. simpl. by rewrite filter_cons_False by tauto.
  - rewrite bool_decide_eq_false_2 by done. simpl. by rewrite filter_cons_True by done.
Qed.

(** [main.js] skips a record without the field, but keeps the names as they
    are written, repeated names and missing values included. *)
Lemma mainjs_keeps_names_as_written :
  MainJs.fetchAndProcessJSON (JArr one_without_field) []
    = ([Some (JStr "a"); Some (JStr "b")], None)
  ∧ MainJs.fetchAndProcessJSON (JArr alice_twice) []
    = ([Some (JStr "Alice"); Some (JStr "alice")], None)
  ∧ MainJs.fetchAndProcessJSON
      (JArr [JObj [("string_list_data",
                    JArr [JObj [("value", JStr "a")]; JObj [("href", JStr "h")];
                          JObj [("value", JStr "a")]])]]) []
    = ([Some (JStr "a"); None; Some (JStr "a")], None).
Proof. done. Qed.

(** ** The scenarios of the design document, run on the sample host *)

Section Scenarios.
Import Part001.

Example scenario_x_y_z :
  let p := run (H := Sample.host)
             [FileChosen (followers_upload (names_file ["x"; "y"]));
              FileChosen (following_upload (names_file ["x"; "y"; "z"]))]
             initial_page in
  nonFollowers (state p) = ["z"]
  ∧ (Set_size (followers (state p)), Set_size (following (state p)),
     length (nonFollowers (state p))) = (2, 3, 1).
Proof. by vm_compute. Qed.

Example scenario_no_followers :
  let p := run (H := Sample.host)
             [FileChosen (followers_upload "[]");
              FileChosen (following_upload (names_file ["b"; "a"]))]
             initial_page in
  nonFollowers (state p) = ["a"; "b"].
Proof. by vm_compute. Qed.

Example scenario_wrapper_key :
  let text := Sample.dq "{'relationships_following': [{'string_list_data':[{'value':'bob'}]}]}" in
  let p := run (H := Sample.host) [FileChosen (following_upload text)] initial_page in
  following (state p) = ["bob"].
Proof. by vm_compute. Qed.

(** A record whose [string_list_data] is neither missing, [null] nor an
    array stops the import with a [TypeError], after the side was cleared:
    the names read so far replace the earlier ones. *)
Example scenario_type_error :
  let bad := Sample.dq "[{'string_list_data':[{'value':'bob'}]}, {'string_list_data': 5}]" in
  let p := run (H := Sample.host)
             [FileChosen (followers_upload (names_file ["alice"]))] initial_page in
  let result := handleFileUpload (H := Sample.host) (followers_upload bad) p in
  followers (state p) = ["alice"]
  ∧ snd result
    = inr (Failed (TypeError "item?.string_list_data?.forEach is not a function"))
  ∧ followers (state (fst result)) = ["bob"]
  ∧ followersFileLoaded (state (fst result)) = false.
Proof. by vm_compute. Qed.

End Scenarios.

(* ===================================================================== *)
(** * Part III: further properties of the code *)
(* ===================================================================== *)

(** ** [Part001]: what an upload does, case by case *)

Section UploadCases.
Import Part001.
Context `{Host}.

Lemma import_followers vs p :
  import_values add_follower vs p
  = map_state (λ s, set_followers (add_all vs (followers s)) s) p.
Proof.
  revert p. induction vs as [|v vs IH]; intros p.
  - by destruct p as [[] ? ?].
  - unfold import_values in *. simpl. by rewrite IH.
Qed.

Lemma import_following vs p :
  import_values add_following vs p
  = map_state (λ s, set_following (add_all vs (following s)) s) p.
Proof.
  revert p. induction vs as [|v vs IH]; intros p.
  - by destruct p as [[] ? ?].
  - unfold import_values in *. simpl. by rewrite IH.
Qed.

Lemma forEach_entries_read add entries p :
  ∃ r, forEach (add_entry add) entries p = (import_values add (entries_read entries) p, r)
       ∧ (forallb entry_ok entries = true → r = inr tt)
       ∧ (forallb entry_ok entries = false → ∃ detail, r = inl (TypeError detail)).
Proof.
  revert p. induction entries as [|entry entries IH]; intros p.
  - exists (inr tt). by split_and!.
  - simpl forEach. simpl entries_read. simpl forallb.
    destruct (entry_ok entry) eqn:Hentry.
    + rewrite (bind_inr _ _ _ _ _ (add_entry_ok add entry p Hentry)).
      destruct (IH (import_values add (option_list (entry_value entry)) p))
        as (r & E & Hok & Hfail).
      exists r. rewrite E, import_values_app. by split_and!.
    + destruct (add_entry_fail add entry p Hentry) as [e He].
      rewrite (bind_inl _ _ _ _ _ He). exists (inl e). split_and!; [done | done |].
      intros _. unfold add_entry, entry_ok in *.
      destruct (opt_prop entry "value") as [[| | |s| |]|]; simpl in *;
        try discriminate; try (rewrite negb_false_iff in Hentry; rewrite Hentry in He);
        injection He as <-; eauto.
Qed.

Lemma forEach_items_read add dataArray p :
  ∃ r, forEach (add_item add) dataArray p = (import_values add (file_read dataArray) p, r)
       ∧ (forallb item_ok dataArray = true → r = inr tt)
       ∧ (forallb item_ok dataArray = false → ∃ detail, r = inl (TypeError detail)).
Proof.
  revert p. induction dataArray as [|item items IH]; intros p.
  - exists (inr tt). by split_and!.
  - simpl forEach. simpl file_read. simpl forallb.
    destruct (item_ok item) eqn:Hitem.
    + rewrite (bind_inr _ _ _ _ _ (add_item_ok add item p Hitem)).
      destruct (IH (import_values add (item_values item) p)) as (r & E & Hok & Hfail).
      exists r. rewrite E, import_values_app. by split_and!.
    + unfold add_item, item_ok in *.
      destruct (opt_prop item "string_list_data") as [[| | | |entries|]|];
        try discriminate;
        try (eexists; split_and!; [reflexivity | done | eauto]).
      destruct (forEach_entries_read add entries p) as (r & E & _ & Hfail).
      destruct (Hfail Hitem) as [detail ->].
      exists (inl (TypeError detail)).
      rewrite (bind_inl _ _ _ _ _ E). split_and!; [done | done | eauto].
Qed.

Lemma file_read_all_ok dataArray :
  forallb item_ok dataArray = true → file_read dataArray = file_values dataArray.
Proof.
  induction dataArray as [|item items IH]; [done|]. simpl.
  intros [-> Hrest]%andb_true_iff. unfold file_values in *. simpl. by rewrite IH.
Qed.

(** What [handleFileUpload] does, by the point where it stops. *)
Lemma handleFileUpload_cases ev file rest p :
  files ev = file :: rest →
  match parseJsonFile file with
  | inl e => handleFileUpload ev p = (mark_loaded (type_of ev) false p, inr (Failed e))
  | inr data =>
      match extractDataArray data with
      | inl e => handleFileUpload ev p = (mark_loaded (type_of ev) false p, inr (Failed e))
      | inr dataArray =>
          if forallb item_ok dataArray
          then handleFileUpload ev p
               = (checkAllDataReady
                    (mark_loaded (type_of ev) true
                       (stored (type_of ev) dataArray (file_values dataArray) p)),
                  inr Loaded)
          else ∃ detail,
               handleFileUpload ev p
               = (mark_loaded (type_of ev) false
                    (stored (type_of ev) dataArray (file_read dataArray) p),
                  inr (Failed (TypeError detail)))
      end
  end.
Proof.
  intros Hfiles.
  destruct (parseJsonFile file) as [e|data] eqn:Hparse.
  { unfold handleFileUpload, try_catch. rewrite Hfiles.
    rewrite (bind_inl _ _ p p e); [by destruct (type_of ev)|].
    unfold lift. by rewrite Hparse. }
  destruct (extractDataArray data) as [e|dataArray] eqn:Hextract.
  { unfold handleFileUpload, try_catch. rewrite Hfiles.
    rewrite (bind_inr _ _ p p data) by (unfold lift; by rewrite Hparse).
    rewrite (bind_inl _ _ p p e); [by destruct (type_of ev)|].
    unfold lift. by rewrite Hextract. }
  assert (Hbody : ∀ k : list json → M outcome,
            (lift (parseJsonFile file) ≫= (λ data, lift (extractDataArray data) ≫= k)) p
            = k dataArray p).
  { intros k. rewrite (bind_inr _ _ p p data) by (unfold lift; by rewrite Hparse).
    by rewrite (bind_inr _ _ p p dataArray) by (unfold lift; by rewrite Hextract). }
  unfold handleFileUpload, try_catch. rewrite Hfiles, Hbody. clear Hbody.
  destruct (type_of ev).
  - set (q := map_state (λ s, set_uploadedFollowersData (Some dataArray)
                                (set_followers [] s)) p).
    destruct (forEach_items_read add_follower dataArray q) as (r & E & Hok & Hfail).
    assert (Hbatch : processFollowerDataBatch dataArray
                       (map_state (set_uploadedFollowersData (Some dataArray))
                          (map_state (λ s, set_followers (Set_clear (followers s)) s) p))
                     = (import_values add_follower (file_read dataArray) q, r)).
    { unfold processFollowerDataBatch, mbind, M_bind, bind. simpl. exact E. }
    destruct (forallb item_ok dataArray) eqn:Hall.
    + rewrite (Hok eq_refl) in Hbatch.
      rewrite (file_read_all_ok _ Hall) in Hbatch.
      unfold mbind, M_bind, bind. simpl. unfold mbind, M_bind, bind.
      simpl. rewrite Hbatch. reflexivity.
    + destruct (Hfail eq_refl) as [detail ->]. exists detail.
      unfold mbind, M_bind, bind. simpl. unfold mbind, M_bind, bind.
      simpl. rewrite Hbatch. reflexivity.
  - set (q := map_state (λ s, set_uploadedFollowingData (Some dataArray)
                                (set_following [] s)) p).
    destruct (forEach_items_read add_following dataArray q) as (r & E & Hok & Hfail).
    assert (Hbatch : processFollowingDataBatch dataArray
                       (map_state (set_uploadedFollowingData (Some dataArray))
                          (map_state (λ s, set_following (Set_clear (following s)) s) p))
                     = (import_values add_following (file_read dataArray) q, r)).
    { unfold processFollowingDataBatch, mbind, M_bind, bind. simpl. exact E. }
    destruct (forallb item_ok dataArray) eqn:Hall.
    + rewrite (Hok eq_refl) in Hbatch.
      rewrite (file_read_all_ok _ Hall) in Hbatch.
      unfold mbind, M_bind, bind. simpl. unfold mbind, M_bind, bind.
      simpl. rewrite Hbatch. reflexivity.
    + destruct (Hfail eq_refl) as [detail ->]. exists detail.
      unfold mbind, M_bind, bind. simpl. unfold mbind, M_bind, bind.
      simpl. rewrite Hbatch. reflexivity.
Qed.

Lemma stored_followers dataArray vs p :
  stored Followers dataArray vs p
  = map_state (λ s, set_followers (add_all vs [])
                      (set_uploadedFollowersData (Some dataArray) s)) p.
Proof. unfold stored. by rewrite import_followers. Qed.

Lemma stored_following dataArray vs p :
  stored Following dataArray vs p
  = map_state (λ s, set_following (add_all vs [])
                      (set_uploadedFollowingData (Some dataArray) s)) p.
Proof. unfold stored. by rewrite import_following. Qed.

(** [renderResults] leaves the page alone while an analysis is running. *)
Lemma renderResults_while_processing p :
  isDataProcessing (state p) = true → renderResults p = p.
Proof.
  intros Hproc. unfold renderResults. rewrite Hproc, !orb_true_r. reflexivity.
Qed.

Lemma isDataProcessing_calculateNonFollowers s :
  isDataProcessing (calculateNonFollowers s) = isDataProcessing s.
Proof. unfold calculateNonFollowers. by case_match. Qed.

Lemma renderResults_in_analysis p :
  renderResults (map_state calculateNonFollowers (map_state (set_isDataProcessing true) p))
  = map_state calculateNonFollowers (map_state (set_isDataProcessing true) p).
Proof.
  apply renderResults_while_processing.
  by rewrite state_map_state, isDataProcessing_calculateNonFollowers.
Qed.

Lemma processLoadedData_unfold p :
  followersFileLoaded (state p) = true → followingFileLoaded (state p) = true →
  isDataProcessing (state p) = false →
  processLoadedData p
  = map_state (λ s, set_isDataProcessing false
                      (calculateNonFollowers (set_isDataProcessing true s))) p.
Proof.
  intros Hf Hg Hproc. unfold processLoadedData. rewrite Hf, Hg, Hproc.
  cbn [negb orb]. cbv zeta. by rewrite renderResults_in_analysis.
Qed.

Lemma container_processLoadedData p : container (processLoadedData p) = container p.
Proof.
  unfold processLoadedData. repeat case_match; try reflexivity.
  by rewrite renderResults_in_analysis.
Qed.

Lemma container_checkAllDataReady p : container (checkAllDataReady p) = container p.
Proof. unfold checkAllDataReady. case_match; [apply container_processLoadedData | done]. Qed.

(** The analysis writes the list and the processing flag, nothing else. *)
Lemma checkAllDataReady_frame p :
  let s := state p in
  let s' := state (checkAllDataReady p) in
  followers s' = followers s ∧ following s' = following s
  ∧ uploadedFollowersData s' = uploadedFollowersData s
  ∧ uploadedFollowingData s' = uploadedFollowingData s
  ∧ sortAsc s' = sortAsc s
  ∧ followersFileLoaded s' = followersFileLoaded s
  ∧ followingFileLoaded s' = followingFileLoaded s.
Proof.
  unfold checkAllDataReady, processLoadedData.
  repeat case_match; try done.
  rewrite state_map_state, state_renderResults, !state_map_state.
  unfold calculateNonFollowers. by case_match.
Qed.

Lemma analysed_checkAllDataReady p :
  isDataProcessing (state p) = false → analysed (state (checkAllDataReady p)).
Proof.
  intros Hproc. unfold checkAllDataReady.
  destruct (followersFileLoaded (state p)) eqn:Hf;
    destruct (followingFileLoaded (state p)) eqn:Hg; simpl;
    try (split; [exact Hproc | intros; congruence]).
  rewrite (processLoadedData_unfold p Hf Hg Hproc), state_map_state.
  split; [reflexivity|]. intros _ _. unfold list_is_difference.
  pose proof (calculateNonFollowers_perm (set_isDataProcessing true (state p))) as Hperm.
  destruct (sets_calculateNonFollowers (set_isDataProcessing true (state p))) as [Ef Eg].
  simpl in *. by rewrite Ef, Eg.
Qed.

(** X1. An upload that fails before the records are read (the file cannot be
    read, its text is not JSON, or no record array is found in it) changes
    nothing but the load flag of its side, which it clears: both collections,
    the record arrays kept, the list, the other flag and the view stay. *)
Theorem upload_failure_before_import (ev : change_event) (file : File) (rest : list File)
    (e : error) (p : Page) :
  files ev = file :: rest →
  parseJsonFile file = inl e
  ∨ (∃ data, parseJsonFile file = inr data ∧ extractDataArray data = inl e) →
  handleFileUpload ev p = (mark_loaded (type_of ev) false p, inr (Failed e)).
Proof.
  intros Hfiles Hfail. pose proof (handleFileUpload_cases ev file rest p Hfiles) as Hcases.
  destruct Hfail as [Hparse|(data & Hparse & Hextract)].
  - by rewrite Hparse in Hcases.
  - by rewrite Hparse, Hextract in Hcases.
Qed.

(** X2. An upload that meets a record it cannot read (a [string_list_data]
    that is neither missing, [null] nor an array, or a truthy [value] that is
    no string) fails with a [TypeError] after its side was cleared: the side
    is left holding only the names read before that record, whatever it held
    before, and counts as not loaded; the other side and the list stay. *)
Theorem upload_type_error_overwrites (ev : change_event) (file : File) (rest : list File)
    (data : json) (dataArray : list json) (p : Page) :
  files ev = file :: rest →
  parseJsonFile file = inr data →
  extractDataArray data = inr dataArray →
  forallb item_ok dataArray = false →
  let result := handleFileUpload ev p in
  let s' := state (fst result) in
  (∃ detail, snd result = inr (Failed (TypeError detail)))
  ∧ nonFollowers s' = nonFollowers (state p)
  ∧ match type_of ev with
    | Followers =>
        followers s' = add_all (file_read dataArray) []
        ∧ followersFileLoaded s' = false
        ∧ following s' = following (state p)
        ∧ followingFileLoaded s' = followingFileLoaded (state p)
    | Following =>
        following s' = add_all (file_read dataArray) []
        ∧ followingFileLoaded s' = false
        ∧ followers s' = followers (state p)
        ∧ followersFileLoaded s' = followersFileLoaded (state p)
    end.
Proof.
  intros Hfiles Hparse Hextract Hbad result s'. subst s' result.
  pose proof (handleFileUpload_cases ev file rest p Hfiles) as Hcases.
  rewrite Hparse, Hextract, Hbad in Hcases. destruct Hcases as [detail ->].
  split; [by exists detail|].
  destruct (type_of ev); cbn [fst snd].
  - by rewrite stored_followers.
  - by rewrite stored_following.
Qed.

(** X3. An upload that succeeds replaces its side: the side holds exactly
    the lowercased names of the new file, whatever it held before, the record
    array is kept, the side counts as loaded, and the other side stays. *)
Theorem upload_success_replaces_side (ev : change_event) (file : File) (rest : list File)
    (data : json) (dataArray : list json) (p : Page) :
  files ev = file :: rest →
  parseJsonFile file = inr data →
  extractDataArray data = inr dataArray →
  forallb item_ok dataArray = true →
  let result := handleFileUpload ev p in
  let s' := state (fst result) in
  snd result = inr Loaded
  ∧ match type_of ev with
    | Followers =>
        followers s' = add_all (file_values dataArray) []
        ∧ uploadedFollowersData s' = Some dataArray
        ∧ followersFileLoaded s' = true
        ∧ following s' = following (state p)
        ∧ followingFileLoaded s' = followingFileLoaded (state p)
    | Following =>
        following s' = add_all (file_values dataArray) []
        ∧ uploadedFollowingData s' = Some dataArray
        ∧ followingFileLoaded s' = true
        ∧ followers s' = followers (state p)
        ∧ followersFileLoaded s' = followersFileLoaded (state p)
    end.
Proof.
  intros Hfiles Hparse Hextract Hok result s'. subst s' result.
  pose proof (handleFileUpload_cases ev file rest p Hfiles) as Hcases.
  rewrite Hparse, Hextract, Hok in Hcases. rewrite Hcases.
  split; [reflexivity|]. cbn [fst snd].
  match goal with |- context [checkAllDataReady ?q] =>
    destruct (checkAllDataReady_frame q) as (Ef & Eg & Euf & Eug & _ & Elf & Elg) end.
  destruct (type_of ev).
  - rewrite Ef, Eg, Euf, Elf, Elg. by rewrite stored_followers.
  - rewrite Ef, Eg, Eug, Elf, Elg. by rewrite stored_following.
Qed.

(** X5. An upload does not draw the list: whatever the file, the content of
    [#users-list] after [handleFileUpload] is its content before, because
    the analysis calls [renderResults] while [isDataProcessing] is set. (The
    loader the analysis adds to the element is removed again; whether the
    placeholder is displayed is not part of the page as modelled.) *)
Theorem upload_keeps_view (ev : change_event) (p : Page) :
  container (fst (handleFileUpload ev p)) = container p.
Proof.
  destruct (files ev) as [|file rest] eqn:Hfiles.
  { unfold handleFileUpload. by rewrite Hfiles. }
  pose proof (handleFileUpload_cases ev file rest p Hfiles) as Hcases.
  destruct (parseJsonFile file) as [e|data]; [by rewrite Hcases|].
  destruct (extractDataArray data) as [e|dataArray]; [by rewrite Hcases|].
  destruct (forallb item_ok dataArray).
  - rewrite Hcases. cbn [fst snd]. rewrite container_checkAllDataReady.
    destruct (type_of ev); [by rewrite stored_followers | by rewrite stored_following].
  - destruct Hcases as [detail ->]. cbn [fst snd].
    destruct (type_of ev); [by rewrite stored_followers | by rewrite stored_following].
Qed.

Lemma analysed_handleFileUpload ev p :
  analysed (state p) → analysed (state (fst (handleFileUpload ev p))).
Proof.
  intros [Hproc Hdiff].
  destruct (files ev) as [|file rest] eqn:Hfiles.
  { unfold handleFileUpload. rewrite Hfiles. by split. }
  pose proof (handleFileUpload_cases ev file rest p Hfiles) as Hcases.
  assert (Hfailed : ∀ q, isDataProcessing (state q) = false →
            analysed (state (mark_loaded (type_of ev) false q))).
  { intros q Hq. split; [by destruct (type_of ev)|].
    destruct (type_of ev); simpl; congruence. }
  destruct (parseJsonFile file) as [e|data]; [rewrite Hcases; by apply Hfailed|].
  destruct (extractDataArray data) as [e|dataArray]; [rewrite Hcases; by apply Hfailed|].
  destruct (forallb item_ok dataArray).
  - rewrite Hcases. cbn [fst snd]. apply analysed_checkAllDataReady.
    destruct (type_of ev); [by rewrite stored_followers | by rewrite stored_following].
  - destruct Hcases as [detail ->]. cbn [fst snd]. apply Hfailed.
    destruct (type_of ev); [by rewrite stored_followers | by rewrite stored_following].
Qed.

Lemma analysed_step e p : analysed (state p) → analysed (state (step e p)).
Proof.
  intros Hp. destruct e as [ev|text|]; simpl.
  - by apply analysed_handleFileUpload.
  - unfold handleSearchInput. by rewrite state_renderResults.
  - destruct Hp as [Hproc Hdiff]. unfold toggleSort.
    rewrite state_renderResults, !state_map_state. split; [exact Hproc|].
    intros Hf Hg. unfold list_is_difference.
    rewrite sortNonFollowers_perm. exact (Hdiff Hf Hg).
Qed.

(** X4. After every series of events from the freshly loaded page, no
    analysis is left running, and whenever both files count as loaded the
    list holds exactly the names of the following collection that are not in
    the follower collection: a failed or replaced upload never leaves a list
    that disagrees with the collections while results can be shown. *)
Theorem list_follows_collections (es : list event) :
  let s := state (run es initial_page) in
  isDataProcessing s = false
  ∧ (followersFileLoaded s = true → followingFileLoaded s = true →
     nonFollowers s ≡ₚ filter (λ user, user ∉ followers s) (following s)).
Proof.
  assert (Hrun : ∀ p, analysed (state p) → analysed (state (run es p))).
  { induction es as [|e es IH]; intros p Hp; [exact Hp|].
    apply IH. by apply analysed_step. }
  apply Hrun. split; [reflexivity | discriminate].
Qed.

End UploadCases.

(** ** [Part001]: letter case *)

Section LetterCase.
Import Part001.

Lemma entries_read_nonempty entries :
  Forall (λ v, v ≠ EmptyString) (entries_read entries).
Proof.
  induction entries as [|entry entries IH]; simpl; [constructor|].
  destruct (entry_ok entry); [|constructor]. apply Forall_app. split; [|exact IH].
  destruct (entry_value entry) as [v|] eqn:Hv; simpl; [|constructor].
  repeat constructor. by apply (entry_value_nonempty entry).
Qed.

Lemma file_read_nonempty dataArray :
  Forall (λ v, v ≠ EmptyString) (file_read dataArray).
Proof.
  induction dataArray as [|item items IH]; simpl; [constructor|].
  destruct (item_ok item).
  - apply Forall_app. split; [|exact IH].
    pose proof (file_values_nonempty [item]) as Hitem.
    unfold file_values in Hitem. simpl in Hitem. by rewrite app_nil_r in Hitem.
  - destruct (opt_prop item "string_list_data") as [[| | | |entries|]|];
      try constructor. apply entries_read_nonempty.
Qed.

Lemma batch_read (add : string → State → State) (clear : State → State)
    (dataArray : list json) (p : Page) :
  ∃ r, (modify clear;; forEach (add_item add) dataArray) p
       = (import_values add (file_read dataArray) (map_state clear p), r)
       ∧ (forallb item_ok dataArray = true → r = inr tt)
       ∧ (forallb item_ok dataArray = false → ∃ detail, r = inl (TypeError detail)).
Proof.
  destruct (forEach_items_read add dataArray (map_state clear p)) as (r & E & Hok & Hfail).
  exists r. split; [|by split].
  by rewrite (bind_inr _ _ p (map_state clear p) tt).
Qed.

(** C4. On either side and for every file, two entry values that differ
    only in letter case collapse to a single stored user name. The import
    stores the values it reads, in lowercased form: of a file whose records
    all pass it reads every value and returns normally, and of any other
    file it reads the values before the entry it fails at. Any two values
    read that are equal up to case are stored as exactly one name, their
    lowercased form, and every stored name is in lowercased form. *)
Theorem import_collapses_letter_case (dataArray : list json) (p : Page) (a b : string) :
  a ∈ file_read dataArray → b ∈ file_read dataArray →
  toLowerCase a = toLowerCase b →
  let collapsed (stored : list string) :=
    filter (λ u, toLowerCase u = toLowerCase a) stored = [toLowerCase a]
    ∧ filter (λ u, toLowerCase u = toLowerCase b) stored = [toLowerCase a]
    ∧ Forall (λ u, toLowerCase u = u) stored in
  let followers_side := processFollowerDataBatch dataArray p in
  let following_side := processFollowingDataBatch dataArray p in
  collapsed (followers (state (fst followers_side)))
  ∧ collapsed (following (state (fst following_side)))
  ∧ (forallb item_ok dataArray = true →
     file_read dataArray = file_values dataArray
     ∧ snd followers_side = inr tt ∧ snd following_side = inr tt)
  ∧ (snd followers_side = inr tt ∨ snd following_side = inr tt →
     forallb item_ok dataArray = true).
Proof.
  intros Ha Hb Hab collapsed followers_side following_side.
  pose proof (file_read_nonempty dataArray) as Hne.
  pose proof (add_all_collapses _ a Hne Ha) as Hcol.
  destruct (names_ok_add_all _ [] Hne names_ok_nil) as [_ Hall].
  assert (Hstored : collapsed (add_all (file_read dataArray) [])).
  { subst collapsed. cbv beta. rewrite <- Hab. split; [exact Hcol|]. split; [exact Hcol|].
    eapply Forall_impl; [exact Hall|]. by intros u [_ ?]. }
  destruct (batch_read add_follower (λ s, set_followers (Set_clear (followers s)) s)
              dataArray p) as (r & E & Hok & Hfail).
  destruct (batch_read add_following (λ s, set_following (Set_clear (following s)) s)
              dataArray p) as (r' & E' & Hok' & Hfail').
  change (processFollowerDataBatch dataArray p
          = (import_values add_follower (file_read dataArray)
               (map_state (λ s, set_followers (Set_clear (followers s)) s) p), r)) in E.
  change (processFollowingDataBatch dataArray p
          = (import_values add_following (file_read dataArray)
               (map_state (λ s, set_following (Set_clear (following s)) s) p), r')) in E'.
  subst followers_side following_side. rewrite E, E'. cbn [fst snd].
  rewrite import_followers, import_following, !state_map_state.
  split; [exact Hstored|]. split; [exact Hstored|]. split.
  - intros Hpass. split; [by apply file_read_all_ok|]. by rewrite Hok, Hok'.
  - intros Hreturned. destruct (forallb item_ok dataArray) eqn:Hpass; [done|].
    destruct (Hfail eq_refl) as [detail ->]. destruct (Hfail' eq_refl) as [detail' ->].
    by destruct Hreturned.
Qed.

Lemma import_collapses_letter_case_witness :
  let followers_side := processFollowerDataBatch alice_twice initial_page in
  let following_side := processFollowingDataBatch alice_twice initial_page in
  "Alice" ∈ file_read alice_twice
  ∧ "alice" ∈ file_read alice_twice
  ∧ toLowerCase "Alice" = toLowerCase "alice"
  ∧ snd followers_side = inr tt
  ∧ snd following_side = inr tt
  ∧ followers (state (fst followers_side)) = ["alice"]
  ∧ following (state (fst following_side)) = ["alice"]
  ∧ filter (λ u, toLowerCase u = toLowerCase "Alice") (followers (state (fst followers_side)))
    = [toLowerCase "Alice"]
  ∧ filter (λ u, toLowerCase u = toLowerCase "alice") (following (state (fst following_side)))
    = [toLowerCase "Alice"].
Proof.
  intros followers_side following_side.
  assert (Ha : "Alice" ∈ file_read alice_twice) by (simpl; compute_done).
  assert (Hb : "alice" ∈ file_read alice_twice) by (simpl; compute_done).
  destruct (import_collapses_letter_case alice_twice initial_page "Alice" "alice"
              Ha Hb eq_refl)
    as ((Hfollowers & _ & _) & (_ & Hfollowing & _) & Hpass & _).
  destruct (Hpass eq_refl) as (_ & Hout & Hout').
  split_and!; [exact Ha | exact Hb | reflexivity | exact Hout | exact Hout'
              | reflexivity | reflexivity | exact Hfollowers | exact Hfollowing].
Defined.

End LetterCase.

(** ** [Part001]: the order of the list *)

Lemma total_order_on_subseteq cmp (l L : list string) :
  total_order_on cmp L → l ⊆ L → total_order_on cmp l.
Proof.
  intros Hord Hsub. unfold total_order_on, cmp_antisym, cmp_trans, cmp_separates.
  split_and!.
  - apply Forall_forall; intros a Ha. apply Forall_forall; intros b Hb.
    apply (cmp_flip cmp L Hord); by apply Hsub.
  - apply Forall_forall; intros a Ha. apply Forall_forall; intros b Hb.
    apply Forall_forall; intros c Hc.
    apply (cmp_lt_trans cmp L Hord); by apply Hsub.
  - apply Forall_forall; intros a Ha. apply Forall_forall; intros b Hb.
    apply (cmp_zero cmp L Hord); by apply Hsub.
Qed.

(** Two sorted arrangements of the same names are the same list. *)
Lemma sorted_unique cmp (L l1 l2 : list string) :
  total_order_on cmp L → l1 ⊆ L → l1 ≡ₚ l2 →
  StronglySorted (before cmp) l1 → StronglySorted (before cmp) l2 → l1 = l2.
Proof.
  intros Hord Hsub Hperm Hs1 Hs2.
  apply (StronglySorted_unique_strong (before cmp)); [|done..].
  intros a b Ha Hb. apply (before_antisym cmp L Hord); [by apply Hsub|].
  apply Hsub. by rewrite Hperm.
Qed.

Lemma Array_sort_again cmp cmp' (l : list string) :
  total_order_on cmp l → Array_sort cmp (Array_sort cmp' l) = Array_sort cmp l.
Proof.
  intros Hord. apply (sorted_unique cmp l _ _ Hord).
  - intros x. by rewrite !elem_of_Array_sort.
  - by rewrite !Array_sort_perm.
  - apply (Array_sort_sorted cmp l Hord). intros x. by rewrite elem_of_Array_sort.
  - by apply (Array_sort_sorted cmp l Hord).
Qed.

Lemma Array_sort_sorted_id cmp (l : list string) :
  total_order_on cmp l → StronglySorted (before cmp) l → Array_sort cmp l = l.
Proof.
  intros Hord Hs. apply (sorted_unique cmp l _ _ Hord).
  - intros x. by rewrite elem_of_Array_sort.
  - apply Array_sort_perm.
  - by apply (Array_sort_sorted cmp l Hord).
  - exact Hs.
Qed.

Section Order.
Import Part001.
Context `{Host}.

Lemma current_order_total s L :
  total_order_on localeCompare L → total_order_on (current_order s) L.
Proof.
  intros Hord. unfold current_order. destruct (sortAsc s); [exact Hord|].
  by apply descending_order.
Qed.

Lemma filter_difference_subseteq (F G : list string) :
  filter (λ user, negb (Set_has F user)) G ⊆ G.
Proof. intros x Hx. by apply list_elem_of_filter in Hx as [_ ?]. Qed.

Lemma analysis_sorts (s : State) :
  total_order_on localeCompare (following s) →
  StronglySorted (before (current_order s)) (nonFollowers (calculateNonFollowers s)).
Proof.
  intros Hord. destruct (decide (following s = [])) as [HG|HG].
  - rewrite (calculateNonFollowers_empty s HG). constructor.
  - rewrite (calculateNonFollowers_nonempty s HG), nonFollowers_sortNonFollowers.
    apply (Array_sort_sorted _ (following s) (current_order_total s _ Hord)).
    apply filter_difference_subseteq.
Qed.

(** X6. The analysis leaves the list sorted: when [localeCompare] orders the
    names of the following collection consistently and ties on no two
    distinct ones, no name of the computed list is asked to come after a
    later one, in the direction of the sort flag, and sorting the list
    again changes nothing. *)
Theorem calculateNonFollowers_sorted (s : State) :
  total_order_on localeCompare (following s) →
  StronglySorted (before (current_order s)) (nonFollowers (calculateNonFollowers s))
  ∧ sortNonFollowers (calculateNonFollowers s) = calculateNonFollowers s.
Proof.
  intros Hord. pose proof (analysis_sorts s Hord) as Hsorted.
  split; [exact Hsorted|].
  assert (Hsub : nonFollowers (calculateNonFollowers s) ⊆ following s).
  { intros x. rewrite calculateNonFollowers_perm, list_elem_of_filter. tauto. }
  assert (Hasc : sortAsc (calculateNonFollowers s) = sortAsc s).
  { unfold calculateNonFollowers. by case_match. }
  pose proof (Array_sort_sorted_id _ _
                (total_order_on_subseteq _ _ _ (current_order_total s _ Hord) Hsub)
                Hsorted) as Hid.
  revert Hid Hasc. unfold current_order. generalize (calculateNonFollowers s).
  intros [F G l uF uG asc proc lF lG] Hid Hasc. simpl in Hasc. subst asc.
  unfold sortNonFollowers, set_nonFollowers. simpl. f_equal.
  destruct (sortAsc s); exact Hid.
Qed.

(** X7. The list shown does not depend on the order in which the files list
    the names: two states with the same sort flag whose collections hold the
    same names in different orders get the very same list, name by name, when
    [localeCompare] orders the names consistently and without ties. *)
Theorem calculateNonFollowers_order_independent (s s' : State) :
  total_order_on localeCompare (following s) →
  sortAsc s' = sortAsc s →
  followers s' ≡ₚ followers s →
  following s' ≡ₚ following s →
  nonFollowers (calculateNonFollowers s') = nonFollowers (calculateNonFollowers s).
Proof.
  intros Hord Hasc HF HG.
  assert (Hord' : total_order_on localeCompare (following s')).
  { apply (total_order_on_subseteq _ _ _ Hord). intros x. by rewrite HG. }
  assert (Hcur : current_order s' = current_order s)
    by (unfold current_order; by rewrite Hasc).
  apply (sorted_unique (current_order s) (following s) _ _
           (current_order_total s _ Hord)).
  - intros x. rewrite calculateNonFollowers_perm, list_elem_of_filter, HG. tauto.
  - rewrite !calculateNonFollowers_perm, HG.
    erewrite list_filter_iff; [reflexivity|]. intros x. simpl. by rewrite HF.
  - rewrite <- Hcur. by apply analysis_sorts.
  - by apply analysis_sorts.
Qed.

Lemma state_toggleSort p :
  state (toggleSort p)
  = sortNonFollowers (set_sortAsc (negb (sortAsc (state p))) (state p)).
Proof. unfold toggleSort. by rewrite state_renderResults. Qed.

(** X8. Toggling the sort twice is sorting once in the direction the page
    had: the flag is back, and the list is the list sorted in that direction;
    a list that was sorted, as the analysis leaves it, is back as it was. *)
Theorem toggleSort_twice (p : Page) :
  total_order_on localeCompare (nonFollowers (state p)) →
  state (toggleSort (toggleSort p)) = sortNonFollowers (state p)
  ∧ (StronglySorted (before (current_order (state p))) (nonFollowers (state p)) →
     state (toggleSort (toggleSort p)) = state p).
Proof.
  intros Hord.
  assert (Hlist : ∀ cmp', Array_sort (current_order (state p))
                            (Array_sort cmp' (nonFollowers (state p)))
                          = Array_sort (current_order (state p)) (nonFollowers (state p))).
  { intros cmp'. by apply Array_sort_again, current_order_total. }
  assert (Htwice : state (toggleSort (toggleSort p)) = sortNonFollowers (state p)).
  { rewrite !state_toggleSort. revert Hlist. generalize (state p). intros s Hlist.
    destruct s as [F G l uF uG asc proc lF lG].
    unfold current_order in Hlist. simpl in Hlist.
    destruct asc; unfold sortNonFollowers, set_nonFollowers, set_sortAsc; simpl; f_equal.
    - exact (Hlist (descending localeCompare)).
    - exact (Hlist localeCompare). }
  split; [exact Htwice|]. intros Hsorted. rewrite Htwice.
  pose proof (Array_sort_sorted_id _ _ (current_order_total (state p) _ Hord) Hsorted) as Hid.
  revert Hid. generalize (state p). intros s Hid.
  destruct s as [F G l uF uG asc proc lF lG].
  unfold current_order in Hid. simpl in Hid.
  destruct asc; unfold sortNonFollowers, set_nonFollowers; simpl; f_equal; exact Hid.
Qed.

Lemma length_filter_split {A} (P : A → Prop) `{∀ x, Decision (P x)} (l : list A) :
  length (filter P l) + length (filter (λ x, ¬ P x) l) = length l.
Proof.
  induction l as [|x l IH]; [reflexivity|].
  destruct (decide (P x)).
  - rewrite filter_cons_True, filter_cons_False by tauto. simpl. lia.
  - rewrite filter_cons_False, filter_cons_True by tauto. simpl. lia.
Qed.

(** X9. The counts the page shows add up: the names of the list and the
    names of the following collection that are followers together are the
    whole following collection, so the list is never longer than it. *)
Theorem nonFollowers_count (s : State) :
  length (nonFollowers (calculateNonFollowers s))
  + length (filter (λ user, user ∈ followers s) (following s))
  = Set_size (following s)
  ∧ length (nonFollowers (calculateNonFollowers s)) ≤ Set_size (following s).
Proof.
  assert (E : length (nonFollowers (calculateNonFollowers s))
              + length (filter (λ user, user ∈ followers s) (following s))
              = Set_size (following s)).
  { rewrite calculateNonFollowers_perm. unfold Set_size.
    rewrite <- (length_filter_split (λ user, user ∈ followers s) (following s)). lia. }
  split; [exact E | lia].
Qed.

End Order.

(** ** [Part001]: searching, and the view after an upload *)

Lemma append_assoc (a b c : string) : (a +:+ b) +:+ c = a +:+ b +:+ c.
Proof. induction a as [|x a IH]; [reflexivity|]. by rewrite !append_cons, IH. Qed.

Lemma includes_trans (u t t' : string) :
  includes u t' = true → includes t' t = true → includes u t = true.
Proof.
  rewrite !includes_spec. intros (a & b & ->) (c & d & ->).
  exists (a +:+ c), (d +:+ b). by rewrite !append_assoc.
Qed.

Section Searching.
Import Part001.
Context `{Host}.

Lemma filteredUsers_by_searchTerm p :
  filteredUsers p
  = filter (λ user, includes (toLowerCase user) (searchTerm p)) (nonFollowers (state p)).
Proof.
  rewrite filteredUsers_spec. unfold spec_filter, searchTerm.
  by rewrite trim_toLowerCase.
Qed.

(** X10. Typing on narrows the list: when the search term of one page
    contains the search term of another page with the same list, every name
    the first shows is shown by the second, in the same order. *)
Theorem search_narrows (p p' : Page) :
  nonFollowers (state p') = nonFollowers (state p) →
  includes (searchTerm p') (searchTerm p) = true →
  (filteredUsers p') `sublist_of` (filteredUsers p).
Proof.
  intros Hlist Hterm. rewrite !filteredUsers_by_searchTerm, Hlist.
  rewrite <- (list_filter_filter_l
                (λ user, includes (toLowerCase user) (searchTerm p'))
                (λ user, includes (toLowerCase user) (searchTerm p))).
  - apply sublist_filter.
  - intros user Huser. apply Is_true_true. apply Is_true_true in Huser.
    by apply (includes_trans _ _ (searchTerm p')).
Qed.

(** X11. After an upload that failed, the results are hidden: with no
    analysis running, the next search or sort event shows the placeholder,
    whatever list the state still holds. *)
Theorem failed_upload_hides_results (ev : change_event) (e : error) (text : string)
    (p : Page) :
  isDataProcessing (state p) = false →
  snd (handleFileUpload ev p) = inr (Failed e) →
  let p' := fst (handleFileUpload ev p) in
  container (step (SearchTyped text) p') = Placeholder
  ∧ container (step SortClicked p') = Placeholder.
Proof.
  intros Hproc Hout p'.
  assert (Hflag : isDataProcessing (state p') = false
                  ∧ (followersFileLoaded (state p') = false
                     ∨ followingFileLoaded (state p') = false)).
  { subst p'. destruct (files ev) as [|file rest] eqn:Hfiles.
    { unfold handleFileUpload in Hout. by rewrite Hfiles in Hout. }
    pose proof (handleFileUpload_cases ev file rest p Hfiles) as Hcases.
    assert (Hfailed : ∀ q, isDataProcessing (state q) = false →
              isDataProcessing (state (mark_loaded (type_of ev) false q)) = false
              ∧ (followersFileLoaded (state (mark_loaded (type_of ev) false q)) = false
                 ∨ followingFileLoaded (state (mark_loaded (type_of ev) false q)) = false)).
    { intros q Hq. destruct (type_of ev); simpl; auto. }
    destruct (parseJsonFile file) as [e'|data]; [rewrite Hcases; by apply Hfailed|].
    destruct (extractDataArray data) as [e'|dataArray]; [rewrite Hcases; by apply Hfailed|].
    destruct (forallb item_ok dataArray).
    - by rewrite Hcases in Hout.
    - destruct Hcases as [detail ->]. cbn [fst]. apply Hfailed.
      destruct (type_of ev); [by rewrite stored_followers | by rewrite stored_following]. }
  destruct Hflag as [Hproc' Hflag].
  assert (Hrender : ∀ q, isDataProcessing (state q) = false →
            (followersFileLoaded (state q) = false ∨ followingFileLoaded (state q) = false) →
            container (renderResults q) = Placeholder).
  { intros q Hq [Hf|Hg]; unfold renderResults; rewrite Hq.
    - by rewrite Hf.
    - rewrite Hg. by destruct (followersFileLoaded (state q)). }
  split.
  - simpl. unfold handleSearchInput. by apply Hrender.
  - simpl. unfold toggleSort. apply Hrender; rewrite !state_map_state; [done|].
    destruct Hflag; [by left | by right].
Qed.

Lemma analysis_again s :
  set_isDataProcessing false
    (calculateNonFollowers
       (set_isDataProcessing true
          (set_isDataProcessing false
             (calculateNonFollowers (set_isDataProcessing true s)))))
  = set_isDataProcessing false (calculateNonFollowers (set_isDataProcessing true s)).
Proof.
  destruct s as [F G l uF uG asc proc lF lG].
  unfold calculateNonFollowers, sortNonFollowers. simpl. by destruct G.
Qed.

Lemma checkAllDataReady_again p :
  checkAllDataReady (checkAllDataReady p) = checkAllDataReady p.
Proof.
  destruct (followersFileLoaded (state p) && followingFileLoaded (state p)) eqn:Hfg.
  2: { assert (E : checkAllDataReady p = p) by (unfold checkAllDataReady; by rewrite Hfg).
       by rewrite !E. }
  apply andb_prop in Hfg as [Hf Hg].
  assert (E : checkAllDataReady p = processLoadedData p).
  { unfold checkAllDataReady. by rewrite Hf, Hg. }
  rewrite E.
  destruct (isDataProcessing (state p)) eqn:Hproc.
  - assert (E' : processLoadedData p = p).
    { unfold processLoadedData. by rewrite Hf, Hg, Hproc. }
    by rewrite E', E.
  - rewrite (processLoadedData_unfold p Hf Hg Hproc).
    set (q := map_state _ p).
    assert (Hf' : followersFileLoaded (state q) = true).
    { subst q. rewrite state_map_state. unfold calculateNonFollowers.
      by case_match. }
    assert (Hg' : followingFileLoaded (state q) = true).
    { subst q. rewrite state_map_state. unfold calculateNonFollowers.
      by case_match. }
    unfold checkAllDataReady. rewrite Hf', Hg'. simpl.
    rewrite (processLoadedData_unfold q Hf' Hg' eq_refl). subst q.
    destruct p as [s input view]. unfold map_state. simpl. f_equal.
    apply analysis_again.
Qed.

Lemma stored_again type dataArray vs (c : Page) (v : bool) :
  match type with
  | Followers => followers (state c) = add_all vs []
                 ∧ uploadedFollowersData (state c) = Some dataArray
                 ∧ followersFileLoaded (state c) = v
  | Following => following (state c) = add_all vs []
                 ∧ uploadedFollowingData (state c) = Some dataArray
                 ∧ followingFileLoaded (state c) = v
  end →
  mark_loaded type v (stored type dataArray vs c) = c.
Proof.
  destruct c as [[F G l uF uG asc proc lF lG] input view].
  destruct type; intros (E1 & E2 & E3);
    [rewrite stored_followers | rewrite stored_following]; simpl in *; subst;
    reflexivity.
Qed.

Lemma side_of_stored type dataArray vs (p : Page) (v : bool) :
  let c := mark_loaded type v (stored type dataArray vs p) in
  match type with
  | Followers => followers (state c) = add_all vs []
                 ∧ uploadedFollowersData (state c) = Some dataArray
                 ∧ followersFileLoaded (state c) = v
  | Following => following (state c) = add_all vs []
                 ∧ uploadedFollowingData (state c) = Some dataArray
                 ∧ followingFileLoaded (state c) = v
  end.
Proof.
  destruct type; [rewrite stored_followers | rewrite stored_following]; done.
Qed.

(** X12. Choosing the same file again changes nothing: handling the same
    upload event a second time, right after the first, leaves the page
    exactly as the first left it, with the same outcome. *)
Theorem upload_again_changes_nothing (ev : change_event) (p : Page) :
  fst (handleFileUpload ev (fst (handleFileUpload ev p))) = fst (handleFileUpload ev p).
Proof.
  destruct (files ev) as [|file rest] eqn:Hfiles.
  { unfold handleFileUpload. by rewrite Hfiles. }
  pose proof (handleFileUpload_cases ev file rest p Hfiles) as Hcases.
  pose proof (handleFileUpload_cases ev file rest (fst (handleFileUpload ev p)) Hfiles)
    as Hagain.
  destruct (parseJsonFile file) as [e|data].
  { rewrite Hagain, Hcases. cbn [fst].
    destruct p as [[] ? ?]. by destruct (type_of ev). }
  destruct (extractDataArray data) as [e|dataArray].
  { rewrite Hagain, Hcases. cbn [fst].
    destruct p as [[] ? ?]. by destruct (type_of ev). }
  destruct (forallb item_ok dataArray).
  - rewrite Hagain, Hcases. cbn [fst].
    set (q := mark_loaded (type_of ev) true
                (stored (type_of ev) dataArray (file_values dataArray) p)).
    assert (E : mark_loaded (type_of ev) true
                  (stored (type_of ev) dataArray (file_values dataArray)
                     (checkAllDataReady q))
                = checkAllDataReady q).
    { apply stored_again.
      destruct (checkAllDataReady_frame q) as (Ef & Eg & Euf & Eug & _ & Elf & Elg).
      pose proof (side_of_stored (type_of ev) dataArray (file_values dataArray) p true)
        as Hside.
      fold q in Hside. destruct (type_of ev).
      - by rewrite Ef, Euf, Elf.
      - by rewrite Eg, Eug, Elg. }
    rewrite E. apply checkAllDataReady_again.
  - destruct Hagain as [detail' ->]. destruct Hcases as [detail ->]. cbn [fst].
    apply stored_again, side_of_stored.
Qed.

End Searching.

(** ** Lines of a text *)

Lemma split_on_cons c s : ∃ x xs, split_on c s = x :: xs.
Proof.
  induction s as [|d s (x & xs & IH)]; simpl; [by eexists _, _|].
  destruct (Ascii.eqb d c); [by eexists _, _|]. rewrite IH. by eexists _, _.
Qed.

Lemma split_on_single c s :
  c ∉ list_ascii_of_string s → split_on c s = [s].
Proof.
  induction s as [|d s IH]; simpl; [done|]. intros Hc.
  apply not_elem_of_cons in Hc as [Hd Hc].
  destruct (Ascii.eqb_spec d c) as [->|_]; [done|]. by rewrite IH.
Qed.

Lemma split_on_append c a b :
  split_on c (a +:+ String c b) = split_on c a ++ split_on c b.
Proof.
  induction a as [|d a IH].
  - change (EmptyString +:+ String c b) with (String c b). simpl.
    by rewrite Ascii.eqb_refl.
  - rewrite append_cons. simpl. destruct (Ascii.eqb d c); [by rewrite IH|].
    rewrite IH. by destruct (split_on_cons c a) as (x & xs & ->).
Qed.

Lemma split_on_join c l :
  l ≠ [] → Forall (λ x, c ∉ list_ascii_of_string x) l →
  split_on c (Array_join (String c EmptyString) l) = l.
Proof.
  intros Hl Hall. induction Hall as [|x l Hx Hall IH]; [done|].
  destruct l as [|y l]; [by apply split_on_single|].
  change (Array_join (String c EmptyString) (x :: y :: l))
    with (x +:+ String c EmptyString +:+ Array_join (String c EmptyString) (y :: l)).
  change (String c EmptyString +:+ ?t) with (String c t).
  rewrite split_on_append, IH by done. by rewrite split_on_single.
Qed.

Lemma join_split_on c s : Array_join (String c EmptyString) (split_on c s) = s.
Proof.
  induction s as [|d s IH]; [done|]. simpl.
  destruct (Ascii.eqb_spec d c) as [->|_].
  - destruct (split_on_cons c s) as (x & xs & E). rewrite E in *.
    change (Array_join (String c EmptyString) (EmptyString :: x :: xs))
      with (String c (Array_join (String c EmptyString) (x :: xs))).
    by rewrite IH.
  - destruct (split_on_cons c s) as (x & xs & E). rewrite E in *.
    destruct xs as [|y xs]; simpl in *; [by rewrite IH|].
    by rewrite <- IH.
Qed.

Lemma split_on_lines c s : Forall (λ x, c ∉ list_ascii_of_string x) (split_on c s).
Proof.
  induction s as [|d s IH]; simpl.
  - repeat constructor. by intros ?%elem_of_nil.
  - destruct (Ascii.eqb_spec d c) as [->|Hd].
    + constructor; [by intros ?%elem_of_nil | done].
    + destruct (split_on_cons c s) as (x & xs & E). rewrite E in *.
      apply Forall_cons in IH as [Hx Hxs]. constructor; [|done].
      simpl. by intros [?|?]%elem_of_cons.
Qed.

Lemma list_ascii_of_string_append a b :
  list_ascii_of_string (a +:+ b) = list_ascii_of_string a ++ list_ascii_of_string b.
Proof. induction a as [|d a IH]; [done|]. rewrite append_cons. simpl. by rewrite IH. Qed.

Section Exporting.
Import Part001.

Lemma usersToExport_lines d s :
  Forall (λ user, newline ∉ list_ascii_of_string user) (nonFollowers s) →
  Forall (λ user, newline ∉ list_ascii_of_string user) (usersToExport d s).
Proof.
  unfold usersToExport. intros Hall. apply Forall_fmap.
  eapply Forall_impl; [exact Hall|]. intros user Huser. simpl.
  destruct (cleanUsernames d); [done|].
  rewrite list_ascii_of_string_append. intros [Hat|Hin]%elem_of_app; [|done].
  simpl in Hat. apply list_elem_of_singleton in Hat. discriminate Hat.
Qed.

(** X13. The text and the CSV export hold one name per line: when the list
    is not empty and no name holds a line feed, the lines of the text export
    are the exported names, in the order of the list, and the lines of the
    CSV export are the heading and then the exported names; with clean user
    names the lines of the text export are the list itself. *)
Theorem export_one_name_per_line (d : ExportDialog) (s : State) :
  nonFollowers s ≠ [] →
  Forall (λ user, newline ∉ list_ascii_of_string user) (nonFollowers s) →
  (format d = "csv" →
   split_on newline (generateExportContent d s) = "Username" :: usersToExport d s)
  ∧ (format d ≠ "csv" → format d ≠ "json" →
     split_on newline (generateExportContent d s) = usersToExport d s)
  ∧ (format d ≠ "csv" → format d ≠ "json" → cleanUsernames d = true →
     split_on newline (generateExportContent d s) = nonFollowers s).
Proof.
  intros Hne Hall.
  assert (Hne' : usersToExport d s ≠ []).
  { unfold usersToExport. by destruct (nonFollowers s). }
  pose proof (usersToExport_lines d s Hall) as Hall'.
  assert (Htxt : format d ≠ "csv" → format d ≠ "json" →
            split_on newline (generateExportContent d s) = usersToExport d s).
  { intros Hcsv Hjson. unfold generateExportContent.
    apply String.eqb_neq in Hcsv, Hjson. rewrite Hcsv, Hjson.
    by apply split_on_join. }
  split; [|split]; [|done|].
  - intros Hcsv. unfold generateExportContent. rewrite Hcsv. simpl String.eqb. cbv iota.
    change ("Username" +:+ nl +:+ ?t) with ("Username" +:+ String newline t).
    rewrite split_on_append. unfold nl. rewrite split_on_join by done. reflexivity.
  - intros Hcsv Hjson Hclean. rewrite Htxt by done.
    unfold usersToExport. rewrite Hclean. apply list_fmap_id.
Qed.

(** X14. The preview is the head of the export: while the dialog is not
    hidden, the lines of the preview are the lines of the export when those
    are at most ten, and else its first ten lines and a line of three
    dots. *)
Theorem preview_shows_first_lines (s : State) (d : ExportDialog) :
  display d ≠ "none" →
  let lines := split_on newline (generateExportContent d s) in
  split_on newline (exportPreview (updateExportPreview s d))
  = if (10 <? length lines)%nat then take 10 lines ++ ["..."] else lines.
Proof.
  intros Hshown lines. unfold updateExportPreview.
  apply String.eqb_neq in Hshown. rewrite Hshown. cbv zeta. fold lines.
  unfold maxPreviewLines. destruct (10 <? length lines)%nat eqn:Hlong; [|done].
  simpl exportPreview.
  change (?a +:+ nl +:+ "...") with (a +:+ String newline "...").
  rewrite split_on_append. unfold nl. rewrite split_on_join; [done| |].
  - apply Nat.ltb_lt in Hlong. destruct lines; simpl in *; [lia|done].
  - apply Forall_take, split_on_lines.
Qed.

(** X15. A dialog that was hidden opens with the preview it had: the preview
    is updated before the dialog is displayed, and the update does nothing
    on a hidden dialog, so after a download or a cancel the next opening
    shows the old preview, whatever the list has become. *)
Theorem reopened_dialog_keeps_preview (today : string) (s s' : State) (d : ExportDialog) :
  exportPreview (showExportModal s' (hideExportModal d)) = exportPreview d
  ∧ exportPreview (showExportModal s' (snd (performExport today s d))) = exportPreview d.
Proof.
  assert (E : exportPreview (showExportModal s' (hideExportModal d)) = exportPreview d).
  { unfold showExportModal, updateExportPreview, hideExportModal.
    by destruct (length (nonFollowers s') =? 0)%nat. }
  by split.
Qed.

End Exporting.

(** ** Lines of the JSON export *)

Lemma length_split_on_append c a b :
  (length (split_on c (a +:+ b)) + 1 = length (split_on c a) + length (split_on c b))%nat.
Proof.
  induction a as [|d a IH].
  - change (EmptyString +:+ b) with b. simpl. lia.
  - rewrite append_cons. simpl. destruct (Ascii.eqb d c); simpl; [lia|].
    destruct (split_on_cons c (a +:+ b)) as (x & xs & E).
    destruct (split_on_cons c a) as (y & ys & E').
    rewrite E, E' in *. simpl in *. lia.
Qed.

Lemma escape_unit_line c : newline ∉ list_ascii_of_string (escape_unit c).
Proof.
  assert (E : forallb (λ x, negb (Ascii.eqb x newline))
                (list_ascii_of_string (escape_unit c)) = true).
  { destruct c as [[] [] [] [] [] [] [] []]; vm_compute; reflexivity. }
  intros Hin. rewrite forallb_forall in E. apply list_elem_of_In, E in Hin.
  by rewrite Ascii.eqb_refl in Hin.
Qed.

Lemma quoteJSONString_line s : newline ∉ list_ascii_of_string (quoteJSONString s).
Proof.
  assert (Hescape : newline ∉ list_ascii_of_string (escape s)).
  { induction s as [|c s IH]; simpl; [by intros ?%elem_of_nil|].
    rewrite list_ascii_of_string_append. intros [?|?]%elem_of_app; [|done].
    by apply (escape_unit_line c). }
  unfold quoteJSONString. simpl. rewrite list_ascii_of_string_append. simpl.
  intros [?|[?|[?|?%elem_of_nil]%elem_of_cons]%elem_of_app]%elem_of_cons; done.
Qed.

Lemma length_split_on_entries current l :
  l ≠ [] → newline ∉ list_ascii_of_string current →
  length (split_on newline
            (Array_join ("," +:+ nl) ((λ x, current +:+ "  " +:+ quoteJSONString x) <$> l)))
  = length l.
Proof.
  intros Hl Hcurrent.
  assert (Hline : ∀ x, split_on newline (current +:+ "  " +:+ quoteJSONString x)
                       = [current +:+ "  " +:+ quoteJSONString x]).
  { intros x. apply split_on_single. rewrite !list_ascii_of_string_append.
    intros [?|[Hsp|?]%elem_of_app]%elem_of_app; [done| |by apply (quoteJSONString_line x)].
    simpl in Hsp. by repeat (apply elem_of_cons in Hsp as [?|Hsp]; [done|]);
      apply elem_of_nil in Hsp. }
  induction l as [|x l IH]; [done|]. destruct l as [|y l].
  - simpl. by rewrite Hline.
  - change (Array_join ("," +:+ nl) ((λ x, current +:+ "  " +:+ quoteJSONString x) <$> x :: y :: l))
      with ((current +:+ "  " +:+ quoteJSONString x) +:+ ("," +:+ nl)
            +:+ Array_join ("," +:+ nl)
                  ((λ x, current +:+ "  " +:+ quoteJSONString x) <$> y :: l)).
    pose proof (length_split_on_append newline (current +:+ "  " +:+ quoteJSONString x)
                  (("," +:+ nl) +:+ Array_join ("," +:+ nl)
                     ((λ x, current +:+ "  " +:+ quoteJSONString x) <$> y :: l))) as E1.
    pose proof (length_split_on_append newline ("," +:+ nl)
                  (Array_join ("," +:+ nl)
                     ((λ x, current +:+ "  " +:+ quoteJSONString x) <$> y :: l))) as E2.
    rewrite Hline in E1. rewrite IH in E2 by done.
    change (length (split_on newline ("," +:+ nl))) with 2%nat in E2.
    simpl length in *. lia.
Qed.

Section ExportJson.
Import Part001.

(** X16. The JSON export holds one name per line between two opening and
    two closing lines, whatever the names are: a line feed inside a name is
    written as an escape. *)
Theorem json_export_line_count (d : ExportDialog) (s : State) :
  format d = "json" → nonFollowers s ≠ [] →
  length (split_on newline (generateExportContent d s))
  = (length (nonFollowers s) + 4)%nat.
Proof.
  intros Hjson Hne. unfold generateExportContent. rewrite Hjson.
  simpl String.eqb. cbv iota.
  assert (Hne' : usersToExport d s ≠ []).
  { unfold usersToExport. by destruct (nonFollowers s). }
  assert (Hlen : length (usersToExport d s) = length (nonFollowers s)).
  { unfold usersToExport. apply length_fmap. }
  rewrite <- Hlen. clear Hlen. generalize dependent (usersToExport d s). intros l Hl.
  unfold stringify_object, stringify_array. destruct l as [|x l]; [done|].
  set (entries := Array_join _ _).
  assert (Hentries : length (split_on newline entries) = length (x :: l)).
  { apply length_split_on_entries; [done|]. simpl.
    intros Hsp. by repeat (apply elem_of_cons in Hsp as [?|Hsp]; [done|]);
      apply elem_of_nil in Hsp. }
  assert (Hquote : split_on newline (quoteJSONString "nonFollowers")
                   = [quoteJSONString "nonFollowers"]) by reflexivity.
  clearbody entries.
  assert (Happend : ∀ a b, length (split_on newline (a +:+ b))
                           = (length (split_on newline a)
                              + length (split_on newline b) - 1)%nat).
  { intros a b. pose proof (length_split_on_append newline a b). lia. }
  rewrite !Happend, Hquote, Hentries. simpl. lia.
Qed.

End ExportJson.

(** ** [Part000]: import, batches and the start of the page *)

Section Part000Import.
Import Part000.


Lemma part000_add_entries_read entries set :
  ∃ r, add_entries entries set
       = (Part001.add_all (Part001.entries_read entries) set, r)
       ∧ (forallb Part001.entry_ok entries = true → r = None).
Proof.
  revert set. induction entries as [|entry entries IH]; intros set.
  - exists None. by split.
  - simpl. unfold Part001.entry_ok, Part001.entry_value.
    destruct (opt_prop entry "value") as [[| | |s| |]|] eqn:Hv; simpl;
      try (destruct (IH set) as (r & -> & Hr); exists r; by split);
      try (eexists; split; [reflexivity|done]).
    + destruct b; simpl;
        [eexists; split; [reflexivity|done]
        |destruct (IH set) as (r & -> & Hr); exists r; by split].
    + destruct (z =? 0)%Z; simpl;
        [destruct (IH set) as (r & -> & Hr); exists r; by split
        |eexists; split; [reflexivity|done]].
    + destruct (truthy_string s); simpl.
      * destruct (IH (Set_add (toLowerCase s) set)) as (r & -> & Hr). exists r. by split.
      * destruct (IH set) as (r & -> & Hr). exists r. by split.
Qed.

Lemma entries_read_all_ok entries :
  forallb Part001.entry_ok entries = true →
  Part001.entries_read entries = omap Part001.entry_value entries.
Proof.
  induction entries as [|entry entries IH]; [done|]. simpl.
  intros [-> Hrest]%andb_true_iff. rewrite IH by done.
  by destruct (Part001.entry_value entry).
Qed.


Lemma part000_flatMap_ok dataArray :
  JNull ∉ dataArray → forallb Part001.item_ok dataArray = true →
  ∃ flat, Array_flatMap string_list_data_or_empty dataArray = inr flat
          ∧ forallb Part001.entry_ok flat = true
          ∧ omap Part001.entry_value flat = Part001.file_values dataArray.
Proof.
  induction dataArray as [|item items IH]; intros Hnull Hok.
  - by exists [].
  - apply not_elem_of_cons in Hnull as [Hitem Hnull].
    simpl in Hok. apply andb_true_iff in Hok as [Hitem_ok Hok].
    destruct (IH Hnull Hok) as (flat & Hflat & Hentries & Hvalues).
    simpl. rewrite Hflat. unfold Part001.file_values in *. simpl.
    unfold Part001.item_ok, Part001.item_values in *.
    destruct item as [| | | |elements|fields]; try done; simpl in *;
      try (exists flat; by split_and!).
    destruct (assoc "string_list_data" fields) as [[| | | |entries|]|]; try done;
      simpl; try (exists flat; by split_and!).
    exists (entries ++ flat). split; [done|]. rewrite forallb_app, Hitem_ok, Hentries.
    split; [done|]. by rewrite omap_app, Hvalues.
Qed.

(** X17. The first analyzer reads an uploaded file as the latest one does,
    when no record is [null] and every record passes: the collection is
    emptied and then holds the lowercased names of the file, in the order
    of the file, and nothing is thrown. *)
Theorem part000_batch_agrees (dataArray : list json) (s : State) :
  JNull ∉ dataArray → forallb Part001.item_ok dataArray = true →
  processFollowerDataBatch dataArray s
  = (set_followers (Part001.add_all (Part001.file_values dataArray) []) s, None)
  ∧ processFollowingDataBatch dataArray s
    = (set_following (Part001.add_all (Part001.file_values dataArray) []) s, None).
Proof.
  intros Hnull Hok.
  destruct (part000_flatMap_ok dataArray Hnull Hok) as (flat & Hflat & Hentries & Hvalues).
  unfold processFollowerDataBatch, processFollowingDataBatch,
    processFollowerData, processFollowingData. rewrite Hflat. simpl. unfold Set_clear.
  destruct (part000_add_entries_read flat []) as (r & -> & Hr).
  rewrite (Hr Hentries), (entries_read_all_ok flat Hentries), Hvalues.
  by destruct s.
Qed.

(** X18. In the first analyzer one [null] record costs the whole file: the
    records are flattened before any name is added, so the collection is
    left empty and the upload fails, wherever the [null] stands. *)
Theorem part000_null_record_empties (dataArray : list json) (s : State) :
  JNull ∈ dataArray →
  ∃ e, processFollowerDataBatch dataArray s = (set_followers [] s, Some e)
       ∧ processFollowingDataBatch dataArray s = (set_following [] s, Some e).
Proof.
  intros Hnull.
  assert (Hflat : ∃ e, Array_flatMap string_list_data_or_empty dataArray = inl e).
  { induction dataArray as [|item items IH]; [by apply elem_of_nil in Hnull|].
    apply elem_of_cons in Hnull as [<-|Hnull]; [by eexists|].
    destruct (IH Hnull) as [e He]. simpl. rewrite He.
    destruct (string_list_data_or_empty item); by eexists. }
  destruct Hflat as [e He]. exists e.
  unfold processFollowerDataBatch, processFollowingDataBatch. by rewrite He.
Qed.




(** X20. Of the two static files the page asks for at its start, the second
    is never fetched: the first call raises [isDataProcessing] before it
    waits, or [showLoader] has raised it, so the call for the following
    file returns at once. The first file is fetched exactly when the page
    holds its loader and no processing is marked. The collections and the
    list are not touched. *)
Theorem part000_second_static_file_never_fetched (has_loader : bool) (s : State) :
  let '(s', (followers_fetched, following_fetched)) := initializeApp_enter has_loader s in
  following_fetched = false
  ∧ followers_fetched = has_loader && negb (isDataProcessing s)
  ∧ isDataProcessing s' = true
  ∧ followers s' = followers s ∧ following s' = following s
  ∧ nonFollowers s' = nonFollowers s.
Proof.
  unfold initializeApp_enter, showLoader, loadStaticJsonData_enter.
  destruct has_loader, s as [F G l uF uG asc []]; simpl; by split_and!.
Qed.

End Part000Import.

(** ** [main.js]: the order in which the two responses arrive *)

Lemma mainjs_includes_nil x : MainJs.Array_includes [] x = false.
Proof. done. Qed.

Lemma mainjs_difference_nil_followers g : MainJs.getUsersWhoDonotFollowBack g [] = g.
Proof.
  unfold MainJs.getUsersWhoDonotFollowBack. induction g as [|x g IH]; [done|].
  simpl. f_equal. exact IH.
Qed.

(** X21. What [main.js] shows depends on which response arrives first. With
    two files that are read to the end and hold names, the arrays end the
    same either way; when the followers arrive first the page gets the
    difference, if not empty, as one paragraph; when the following arrive
    first it gets a paragraph of every followed account, and then the
    difference. *)
Theorem mainjs_arrival_order (F G : json) (f g : list value) (p : MainJs.Page) :
  MainJs.followersNames p = [] → MainJs.followingNames p = [] →
  MainJs.fetchAndProcessJSON F [] = (f, None) →
  MainJs.fetchAndProcessJSON G [] = (g, None) →
  f ≠ [] → g ≠ [] →
  let difference := MainJs.getUsersWhoDonotFollowBack g f in
  let shown := match difference with [] => [] | _ => [difference] end in
  let followers_first :=
    MainJs.response_arrives MainJs.FollowingNames G
      (MainJs.response_arrives MainJs.FollowersNames F p) in
  let following_first :=
    MainJs.response_arrives MainJs.FollowersNames F
      (MainJs.response_arrives MainJs.FollowingNames G p) in
  followers_first = MainJs.mkPage f g (MainJs.container p ++ shown)
  ∧ following_first = MainJs.mkPage f g (MainJs.container p ++ [g] ++ shown).
Proof.
  intros Hf0 Hg0 HF HG Hf Hg difference shown followers_first following_first.
  subst followers_first following_first.
  destruct p as [f0 g0 c]. cbn [MainJs.followersNames MainJs.followingNames] in Hf0, Hg0.
  subst f0 g0. cbn [MainJs.container].
  assert (Hlen : ∀ l : list value, l ≠ [] → (0 <? length l)%nat = true).
  { intros [|? ?]; done. }
  assert (Hshow_first : MainJs.show_users (MainJs.mkPage f [] c) = MainJs.mkPage f [] c).
  { reflexivity. }
  assert (Hshow_all : MainJs.show_users (MainJs.mkPage [] g c)
                      = MainJs.mkPage [] g (c ++ [g])).
  { unfold MainJs.show_users. cbn [MainJs.followersNames MainJs.followingNames
      MainJs.container]. rewrite mainjs_difference_nil_followers. by rewrite Hlen. }
  assert (Hshow : ∀ c', MainJs.show_users (MainJs.mkPage f g c')
                        = MainJs.mkPage f g (c' ++ shown)).
  { intros c'. unfold MainJs.show_users. cbn [MainJs.followersNames MainJs.followingNames
      MainJs.container]. fold difference. subst shown.
    destruct difference; simpl; [by rewrite app_nil_r | done]. }
  unfold MainJs.response_arrives.
  cbn [MainJs.followersNames MainJs.followingNames MainJs.container].
  rewrite HF, HG. cbn [MainJs.followersNames MainJs.followingNames MainJs.container].
  rewrite !Hlen by done. rewrite Hshow_first, Hshow_all.
  cbn [MainJs.followersNames MainJs.followingNames MainJs.container].
  rewrite HF, HG. rewrite !Hlen by done.
  cbn [MainJs.followersNames MainJs.followingNames MainJs.container].
  rewrite !Hshow. by rewrite <- app_assoc.
Qed.

(** ** [Part000]: the list view *)

Lemma flipped_order (cmp : string → string → Z) (L : list string) :
  total_order_on cmp L → total_order_on (λ a b, cmp b a) L.
Proof.
  intros Hord. unfold total_order_on, cmp_antisym, cmp_trans, cmp_separates.
  split_and!.
  - apply Forall_forall; intros a Ha. apply Forall_forall; intros b Hb.
    pose proof (cmp_flip cmp L Hord a b Ha Hb). lia.
  - apply Forall_forall; intros a Ha. apply Forall_forall; intros b Hb.
    apply Forall_forall; intros c Hc. intros Hab Hbc.
    exact (cmp_lt_trans cmp L Hord c b a Hc Hb Ha Hbc Hab).
  - apply Forall_forall; intros a Ha. apply Forall_forall; intros b Hb.
    intros E. symmetry. exact (cmp_zero cmp L Hord b a Hb Ha E).
Qed.

Lemma sorted_rev_flip (R R' : string → string → Prop) (l : list string) :
  (∀ a b, a ∈ l → b ∈ l → R a b → R' b a) →
  StronglySorted R l → StronglySorted R' (rev l).
Proof.
  intros Hflip Hs. induction Hs as [|x l Hs IH Hall]; simpl; [constructor|].
  apply StronglySorted_app_2; [|apply IH|repeat constructor].
  - intros z y Hz ->%list_elem_of_singleton. rewrite elem_of_rev in Hz.
    apply Hflip; [left|by right|]. rewrite Forall_forall in Hall. by apply Hall.
  - intros a b Ha Hb. apply Hflip; by right.
Qed.

Section Part000View.
Context `{Host}.

Lemma by_sortAsc_total (s : Part000.State) (L : list string) :
  total_order_on localeCompare L → total_order_on (Part000.by_sortAsc s) L.
Proof.
  intros Hord. unfold Part000.by_sortAsc. destruct (Part000.sortAsc s).
  - exact Hord.
  - by apply flipped_order.
Qed.

(** X22. The list view of the first analyzer: when [localeCompare] orders
    the names of the list consistently and ties on no two distinct ones, the
    view holds the names of the list that contain the lowercased search
    text, sorted in the direction of the flag, and the sort button turns the
    view around while the list itself stays as it is. *)
Theorem part000_view_sorted_matches (text : string) (s : Part000.State) :
  total_order_on localeCompare (Part000.nonFollowers s) →
  let view := Part000.filteredUsers text s in
  view ≡ₚ Part001.spec_filter text (Part000.nonFollowers s)
  ∧ StronglySorted (before (Part000.by_sortAsc s)) view
  ∧ Part000.filteredUsers text (Part000.toggleSort s) = rev view
  ∧ Part000.nonFollowers (Part000.toggleSort s) = Part000.nonFollowers s.
Proof.
  intros Hord view.
  set (matches := filter (λ user, includes (toLowerCase user) (toLowerCase text))
                    (Part000.nonFollowers s)).
  assert (Hsub : matches ⊆ Part000.nonFollowers s).
  { intros x Hx. by apply list_elem_of_filter in Hx as [_ ?]. }
  assert (Hview : view ⊆ Part000.nonFollowers s).
  { intros x Hx. apply Hsub. subst view. unfold Part000.filteredUsers in Hx.
    by rewrite elem_of_Array_sort in Hx. }
  assert (Hsorted : StronglySorted (before (Part000.by_sortAsc s)) view).
  { apply (Array_sort_sorted _ _ (by_sortAsc_total s _ Hord)). exact Hsub. }
  split_and!; [apply Array_sort_perm|exact Hsorted| |done].
  apply (sorted_unique (Part000.by_sortAsc (Part000.toggleSort s))
           (Part000.nonFollowers s)).
  - by apply by_sortAsc_total.
  - intros x Hx. apply Hsub. unfold Part000.filteredUsers in Hx.
    by rewrite elem_of_Array_sort in Hx.
  - unfold Part000.filteredUsers. cbn [Part000.nonFollowers Part000.toggleSort
      Part000.set_sortAsc]. rewrite Array_sort_perm.
    rewrite <- Permutation_rev. subst view. unfold Part000.filteredUsers.
    by rewrite Array_sort_perm.
  - apply (Array_sort_sorted _ _ (by_sortAsc_total (Part000.toggleSort s) _ Hord)).
    exact Hsub.
  - apply (sorted_rev_flip (before (Part000.by_sortAsc s))); [|exact Hsorted].
    intros a b _ _. unfold before, Part000.by_sortAsc, Part000.toggleSort. simpl.
    by destruct (Part000.sortAsc s).
Qed.

End Part000View.

(** ** [Part001]: the messages of the list view *)

Section Messages.
Import Part001.

(** X23. The request to upload files is only drawn for an empty analysis:
    when no analysis is running and [renderResults] draws that message,
    both files count as loaded and the two collections and the list hold no
    name. *)
Theorem upload_prompt_only_when_empty (p : Page) :
  isDataProcessing (state p) = false →
  container (renderResults p) = Info UploadYourFiles →
  followersFileLoaded (state p) = true ∧ followingFileLoaded (state p) = true
  ∧ followers (state p) = [] ∧ following (state p) = [] ∧ nonFollowers (state p) = [].
Proof.
  intros Hproc. unfold renderResults. rewrite Hproc. cbv zeta.
  destruct (followersFileLoaded (state p)); [|done].
  destruct (followingFileLoaded (state p)); [|done].
  cbn [negb orb].
  destruct (length (filteredUsers p) =? 0)%nat eqn:Hnone; [|done].
  apply Nat.eqb_eq in Hnone.
  destruct (nonFollowers (state p)) as [|u l] eqn:Hlist.
  - cbn [length Nat.ltb Nat.leb andb Nat.eqb].
    destruct (followers (state p)), (following (state p)); done.
  - cbn [length Nat.ltb Nat.leb andb Nat.eqb].
    destruct (truthy_string (searchTerm p)) eqn:Hterm; [done|].
    exfalso. unfold truthy_string in Hterm. apply negb_false_iff in Hterm.
    apply String.eqb_eq in Hterm.
    rewrite filteredUsers_by_searchTerm, Hterm, Hlist in Hnone.
    rewrite filter_cons_True in Hnone; [done|].
    apply Is_true_true. apply includes_spec. exists EmptyString, (toLowerCase u).
    reflexivity.
Qed.

End Messages.

(** ** The further properties on concrete pages and files *)

Section FurtherWitnesses.
Import Part001.

Lemma upload_failure_before_import_witness :
  let ev := following_upload "{not json" in
  let p := loaded_page ["x"] EmptyString in
  handleFileUpload (H := Sample.host) ev p
  = (mark_loaded Following false p, inr (Failed (InvalidJSON "Unexpected token"))).
Proof.
  intros ev p.
  apply (upload_failure_before_import (H := Sample.host) ev
           (mkFile "following.json" (ReadText "{not json")) []
           (InvalidJSON "Unexpected token") p eq_refl).
  left. reflexivity.
Defined.

Lemma upload_type_error_overwrites_witness :
  let ev := followers_upload number_for_name in
  let p := mkPage (state_of ["old"; "names"] ["x"]) EmptyString Loader in
  let s' := state (fst (handleFileUpload (H := Sample.host) ev p)) in
  followers s' = ["ann"] ∧ followersFileLoaded s' = false ∧ following s' = ["x"].
Proof.
  intros ev p s'.
  destruct (upload_type_error_overwrites (H := Sample.host) ev
              (mkFile "followers_1.json" (ReadText number_for_name)) []
              (JArr [JObj [("string_list_data",
                            JArr [JObj [("value", JStr "Ann")]; JObj [("value", JNum 7)];
                                  JObj [("value", JStr "Bob")]])]])
              [JObj [("string_list_data",
                      JArr [JObj [("value", JStr "Ann")]; JObj [("value", JNum 7)];
                            JObj [("value", JStr "Bob")]])]]
              p eq_refl eq_refl eq_refl eq_refl)
    as (_ & _ & Hf & Hlf & Hg & _).
  split; [exact Hf|]. split; [exact Hlf | exact Hg].
Defined.

Lemma upload_success_replaces_side_witness :
  let ev := following_upload (names_file ["Ann"; "bob"; "ANN"]) in
  let p := mkPage (state_of ["x"] ["old"; "names"]) EmptyString Loader in
  let result := handleFileUpload (H := Sample.host) ev p in
  snd result = inr Loaded
  ∧ following (state (fst result)) = ["ann"; "bob"]
  ∧ followingFileLoaded (state (fst result)) = true
  ∧ followers (state (fst result)) = ["x"].
Proof.
  intros ev p result.
  destruct (upload_success_replaces_side (H := Sample.host) ev
              (mkFile "following.json" (ReadText (names_file ["Ann"; "bob"; "ANN"]))) []
              (JArr [JObj [("string_list_data", JArr [JObj [("value", JStr "Ann")]])];
                     JObj [("string_list_data", JArr [JObj [("value", JStr "bob")]])];
                     JObj [("string_list_data", JArr [JObj [("value", JStr "ANN")]])]])
              [JObj [("string_list_data", JArr [JObj [("value", JStr "Ann")]])];
               JObj [("string_list_data", JArr [JObj [("value", JStr "bob")]])];
               JObj [("string_list_data", JArr [JObj [("value", JStr "ANN")]])]]
              p eq_refl eq_refl eq_refl eq_refl)
    as (Hout & Hg & _ & Hlg & Hf & _).
  split; [exact Hout|]. split; [exact Hg|]. split; [exact Hlg | exact Hf].
Defined.

Lemma calculateNonFollowers_sorted_witness :
  let s := set_sortAsc false (state_of ["x"] ["c"; "a"; "x"; "b"]) in
  total_order_on (localeCompare (Host := Sample.host)) (following s)
  ∧ nonFollowers (calculateNonFollowers (H := Sample.host) s) = ["c"; "b"; "a"]
  ∧ StronglySorted (before (current_order (H := Sample.host) s))
      (nonFollowers (calculateNonFollowers (H := Sample.host) s)).
Proof.
  intros s.
  assert (Hord : total_order_on (localeCompare (Host := Sample.host)) (following s))
    by (simpl; compute_done).
  split; [exact Hord|]. split; [reflexivity|].
  destruct (calculateNonFollowers_sorted (H := Sample.host) s Hord) as [Hsorted _].
  exact Hsorted.
Defined.

Lemma calculateNonFollowers_order_independent_witness :
  let s := state_of ["x"; "y"] ["x"; "y"; "z"; "w"] in
  let s' := state_of ["y"; "x"] ["w"; "y"; "z"; "x"] in
  total_order_on (localeCompare (Host := Sample.host)) (following s)
  ∧ nonFollowers (calculateNonFollowers (H := Sample.host) s) = ["w"; "z"]
  ∧ nonFollowers (calculateNonFollowers (H := Sample.host) s')
    = nonFollowers (calculateNonFollowers (H := Sample.host) s).
Proof.
  intros s s'.
  assert (Hord : total_order_on (localeCompare (Host := Sample.host)) (following s))
    by (simpl; compute_done).
  assert (HF : followers s' ≡ₚ followers s) by (simpl; compute_done).
  assert (HG : following s' ≡ₚ following s) by (simpl; compute_done).
  split; [exact Hord|]. split; [reflexivity|].
  exact (calculateNonFollowers_order_independent (H := Sample.host) s s' Hord eq_refl HF HG).
Defined.

Lemma toggleSort_twice_witness :
  let p := mkPage (listed ["carol"; "alice"; "bob"]) EmptyString Loader in
  total_order_on (localeCompare (Host := Sample.host)) (nonFollowers (state p))
  ∧ nonFollowers (state (toggleSort (H := Sample.host) (toggleSort (H := Sample.host) p)))
    = ["alice"; "bob"; "carol"]
  ∧ state (toggleSort (H := Sample.host) (toggleSort (H := Sample.host) p))
    = sortNonFollowers (H := Sample.host) (state p).
Proof.
  intros p.
  assert (Hord : total_order_on (localeCompare (Host := Sample.host))
                                (nonFollowers (state p))) by (simpl; compute_done).
  split; [exact Hord|]. split; [reflexivity|].
  destruct (toggleSort_twice (H := Sample.host) p Hord) as [E _]. exact E.
Defined.

Lemma search_narrows_witness :
  let p := loaded_page ["alice"; "bob"; "alina"; "malik"] " AL" in
  let p' := loaded_page ["alice"; "bob"; "alina"; "malik"] "ali" in
  filteredUsers p = ["alice"; "alina"; "malik"]
  ∧ filteredUsers p' = ["alice"; "alina"; "malik"]
  ∧ (filteredUsers p') `sublist_of` (filteredUsers p).
Proof.
  intros p p'. split; [reflexivity|]. split; [reflexivity|].
  exact (search_narrows p p' eq_refl eq_refl).
Defined.

Lemma failed_upload_hides_results_witness :
  let ev := followers_upload "{not json" in
  let p := loaded_page ["alice"; "bob"] EmptyString in
  let p' := fst (handleFileUpload (H := Sample.host) ev p) in
  nonFollowers (state p') = ["alice"; "bob"]
  ∧ container (step (H := Sample.host) (SearchTyped "a") p') = Placeholder
  ∧ container (step (H := Sample.host) SortClicked p') = Placeholder.
Proof.
  intros ev p p'. split; [reflexivity|].
  exact (failed_upload_hides_results (H := Sample.host) ev
           (InvalidJSON "Unexpected token") "a" p eq_refl eq_refl).
Defined.

Lemma export_one_name_per_line_witness :
  let s := listed ["alice"; "bob"] in
  split_on newline (generateExportContent (dialog_for "csv" false) s)
  = ["Username"; "@alice"; "@bob"]
  ∧ split_on newline (generateExportContent (dialog_for "txt" true) s) = ["alice"; "bob"].
Proof.
  intros s.
  assert (Hne : nonFollowers s ≠ []) by (simpl; discriminate).
  assert (Hall : Forall (λ user, newline ∉ list_ascii_of_string user) (nonFollowers s))
    by (simpl; compute_done).
  destruct (export_one_name_per_line (dialog_for "csv" false) s Hne Hall) as (Hcsv & _ & _).
  destruct (export_one_name_per_line (dialog_for "txt" true) s Hne Hall) as (_ & _ & Htxt).
  split.
  - exact (Hcsv eq_refl).
  - apply Htxt; [simpl; discriminate | simpl; discriminate | reflexivity].
Defined.

Lemma preview_shows_first_lines_witness :
  let s := listed ["a"; "b"; "c"; "d"; "e"; "f"; "g"; "h"; "i"; "j"; "k"; "l"] in
  let d := dialog_for "csv" true in
  display d ≠ "none"
  ∧ split_on newline (exportPreview (updateExportPreview s d))
    = ["Username"; "a"; "b"; "c"; "d"; "e"; "f"; "g"; "h"; "i"; "..."].
Proof.
  intros s d.
  assert (Hshown : display d ≠ "none") by (simpl; discriminate).
  split; [exact Hshown|].
  exact (preview_shows_first_lines s d Hshown).
Defined.

Lemma json_export_line_count_witness :
  let s := listed ["alice"; "line" +:+ nl +:+ "feed"] in
  length (split_on newline (generateExportContent (dialog_for "json" true) s)) = 6%nat.
Proof.
  intros s.
  apply (json_export_line_count (dialog_for "json" true) s eq_refl).
  simpl. discriminate.
Defined.

Lemma upload_prompt_only_when_empty_witness :
  let p := loaded_page [] EmptyString in
  container (renderResults p) = Info UploadYourFiles
  ∧ followers (state p) = [] ∧ following (state p) = [] ∧ nonFollowers (state p) = [].
Proof.
  intros p.
  destruct (upload_prompt_only_when_empty p eq_refl eq_refl) as (_ & _ & Hf & Hg & Hl).
  split; [reflexivity|]. split; [exact Hf|]. split; [exact Hg | exact Hl].
Defined.

Lemma part000_batch_agrees_witness :
  let s := part000_state ["old"] ["x"] [] true in
  (JNull ∉ alice_twice)
  ∧ Part000.processFollowerDataBatch alice_twice s
    = (part000_state ["alice"] ["x"] [] true, None).
Proof.
  intros s.
  assert (Hnull : JNull ∉ alice_twice).
  { unfold alice_twice. intros Hin.
    repeat (apply elem_of_cons in Hin as [Hin|Hin]; [discriminate Hin|]).
    by apply elem_of_nil in Hin. }
  split; [exact Hnull|].
  destruct (part000_batch_agrees alice_twice s Hnull eq_refl) as [E _]. exact E.
Defined.

Lemma part000_null_record_empties_witness :
  let s := part000_state ["old"] ["x"] [] true in
  ∃ e, Part000.processFollowerDataBatch null_record_last s
       = (part000_state [] ["x"] [] true, Some e)
       ∧ Part000.processFollowingDataBatch null_record_last s
         = (part000_state ["old"] [] [] true, Some e).
Proof.
  intros s.
  apply (part000_null_record_empties null_record_last s).
  unfold null_record_last. apply elem_of_cons. right. apply elem_of_cons. by left.
Defined.


Lemma part000_view_sorted_matches_witness :
  let s := part000_state [] ["alice"; "bob"; "alina"] ["alice"; "alina"; "bob"] true in
  total_order_on (localeCompare (Host := Sample.host)) (Part000.nonFollowers s)
  ∧ Part000.filteredUsers (H := Sample.host) "AL" s = ["alice"; "alina"]
  ∧ Part000.filteredUsers (H := Sample.host) "AL" (Part000.toggleSort s)
    = rev (Part000.filteredUsers (H := Sample.host) "AL" s).
Proof.
  intros s.
  assert (Hord : total_order_on (localeCompare (Host := Sample.host))
                                (Part000.nonFollowers s)) by (simpl; compute_done).
  split; [exact Hord|]. split; [reflexivity|].
  destruct (part000_view_sorted_matches (H := Sample.host) "AL" s Hord) as (_ & _ & E & _).
  exact E.
Defined.

Lemma mainjs_arrival_order_witness :
  let F := JArr [JObj [("string_list_data", JArr [JObj [("value", JStr "ann")]])]] in
  let G := JArr [JObj [("string_list_data",
                        JArr [JObj [("value", JStr "ann")]; JObj [("value", JStr "bob")]])]] in
  let p := MainJs.mkPage [] [] [] in
  MainJs.container
    (MainJs.response_arrives MainJs.FollowingNames G
       (MainJs.response_arrives MainJs.FollowersNames F p))
  = [[Some (JStr "bob")]]
  ∧ MainJs.container
      (MainJs.response_arrives MainJs.FollowersNames F
         (MainJs.response_arrives MainJs.FollowingNames G p))
    = [[Some (JStr "ann"); Some (JStr "bob")]; [Some (JStr "bob")]].
Proof.
  intros F G p.
  destruct (mainjs_arrival_order F G [Some (JStr "ann")]
              [Some (JStr "ann"); Some (JStr "bob")] p
              eq_refl eq_refl eq_refl eq_refl) as [E1 E2];
    [discriminate | discriminate |].
  split; [by rewrite E1 | by rewrite E2].
Defined.

End FurtherWitnesses.

(** ** [Part000]: the export preview *)

Section Part000Export.
Import Part000.

Lemma processedUsers_lines clean users :
  Forall (λ user, newline ∉ list_ascii_of_string user) users →
  Forall (λ user, newline ∉ list_ascii_of_string user) (processedUsers clean users).
Proof.
  unfold processedUsers. intros Hall. apply Forall_fmap.
  eapply Forall_impl; [exact Hall|]. intros user Huser. simpl.
  destruct clean; [done|].
  rewrite list_ascii_of_string_append. intros [Hat|Hin]%elem_of_app; [|done].
  simpl in Hat. apply list_elem_of_singleton in Hat. discriminate Hat.
Qed.

Lemma processedUsers_take clean n users :
  processedUsers clean (take n users) = take n (processedUsers clean users).
Proof. unfold processedUsers. by rewrite fmap_take. Qed.

(** X26. In the first analyzer the preview is the head of the file that
    would be downloaded: when the list is not empty and no name holds a
    line feed, the lines of the text preview are the first five lines of
    the text file, and the lines of the CSV preview are the first six lines
    of the CSV file, the heading and five names. *)
Theorem part000_preview_is_head (format : string) (clean : bool) (s : State) :
  nonFollowers s ≠ [] →
  Forall (λ user, newline ∉ list_ascii_of_string user) (nonFollowers s) →
  format = "txt" ∨ format = "csv" →
  ∃ download,
    performExport format clean s = Some download
    ∧ fileExtension download = format
    ∧ split_on newline (previewText format clean s)
      = take (if String.eqb format "txt" then 5 else 6)
          (split_on newline (fileContent download)).
Proof.
  intros Hne Hall Hformat.
  assert (Hfile : processedUsers clean (nonFollowers s) ≠ []).
  { unfold processedUsers. by destruct (nonFollowers s). }
  assert (Hhead : take 5 (nonFollowers s) ≠ []) by (by destruct (nonFollowers s)).
  assert (Hpreview : processedUsers clean (take 5 (nonFollowers s)) ≠ []).
  { unfold processedUsers. by destruct (take 5 (nonFollowers s)). }
  assert (Hlen : ∀ l : list string, l ≠ [] → (length l =? 0)%nat = false).
  { by intros [|? ?]. }
  pose proof (processedUsers_lines clean _ Hall) as Hlines.
  assert (Hlines' : Forall (λ user, newline ∉ list_ascii_of_string user)
                      (processedUsers clean (take 5 (nonFollowers s)))).
  { by apply processedUsers_lines, Forall_take. }
  unfold performExport, previewText. cbv zeta. rewrite !Hlen by done.
  destruct Hformat as [-> | ->]; simpl String.eqb; cbv iota.
  - eexists. split; [reflexivity|]. split; [reflexivity|]. cbn [fileContent].
    unfold nl. rewrite !split_on_join by done. apply processedUsers_take.
  - eexists. split; [reflexivity|]. split; [reflexivity|]. cbn [fileContent].
    change ("Username" +:+ nl +:+ ?t) with ("Username" +:+ String newline t).
    rewrite !split_on_append. unfold nl. rewrite !split_on_join by done.
    rewrite processedUsers_take. reflexivity.
Qed.

Lemma part000_preview_is_head_witness :
  let s := part000_state [] [] ["a"; "b"; "c"; "d"; "e"; "f"; "g"] true in
  split_on newline (previewText "csv" false s) = ["Username"; "@a"; "@b"; "@c"; "@d"; "@e"]
  ∧ ∃ download,
      performExport "csv" false s = Some download
      ∧ fileExtension download = "csv"
      ∧ split_on newline (previewText "csv" false s)
        = take 6 (split_on newline (fileContent download)).
Proof.
  intros s. split; [reflexivity|].
  apply (part000_preview_is_head "csv" false s).
  - simpl. discriminate.
  - simpl. compute_done.
  - by right.
Defined.

End Part000Export.

(** ** Records without the field, in the earlier revisions *)

(** X27. [main.js] passes over a record without a truthy [string_list_data]:
    a file with such a record, [null] apart, anywhere among its records
    gives the names, and the error if any, of the file without it. *)
Theorem mainjs_skips_record_without_field (before_it after_it : list json) (item : json)
    (namesArray : list value) :
  item ≠ JNull →
  truthy (prop item "string_list_data") = false →
  MainJs.fetchAndProcessJSON (JArr (before_it ++ item :: after_it)) namesArray
  = MainJs.fetchAndProcessJSON (JArr (before_it ++ after_it)) namesArray.
Proof.
  intros Hnull Hfield. unfold MainJs.fetchAndProcessJSON.
  assert (Hitem : ∀ acc, MainJs.visit_item item acc = (acc, None)).
  { intros acc. unfold MainJs.visit_item. destruct item; try done; by rewrite Hfield. }
  revert namesArray. induction before_it as [|x l IH]; intros namesArray.
  - simpl. by rewrite Hitem.
  - simpl. destruct (MainJs.visit_item x namesArray) as [acc [e|]]; [done|]. apply IH.
Qed.

Lemma mainjs_skips_record_without_field_witness :
  MainJs.fetchAndProcessJSON (JArr one_without_field) []
  = MainJs.fetchAndProcessJSON
      (JArr [JObj [("string_list_data", JArr [JObj [("value", JStr "a")]])];
             JObj [("string_list_data", JArr [JObj [("value", JStr "b")]])]]) [].
Proof.
  apply (mainjs_skips_record_without_field
           [JObj [("string_list_data", JArr [JObj [("value", JStr "a")]])]]
           [JObj [("string_list_data", JArr [JObj [("value", JStr "b")]])]]
           (JObj [("no_string_list_data", JBool true)]) []).
  - discriminate.
  - reflexivity.
Defined.

Section Part000Skips.
Import Part000.

Lemma part000_flatMap_skips before_it after_it item :
  item ≠ JNull →
  truthy (prop item "string_list_data") = false →
  Array_flatMap string_list_data_or_empty (before_it ++ item :: after_it)
  = Array_flatMap string_list_data_or_empty (before_it ++ after_it).
Proof.
  intros Hnull Hfield.
  assert (Hitem : string_list_data_or_empty item = inr (Some (JArr []))).
  { unfold string_list_data_or_empty. destruct item; try done; by rewrite Hfield. }
  induction before_it as [|x l IH]; simpl.
  - rewrite Hitem. by destruct (Array_flatMap string_list_data_or_empty after_it).
  - by rewrite IH.
Qed.

(** X28. The first analyzer passes over a record without a truthy
    [string_list_data] when it reads an uploaded file: a file with such a
    record, [null] apart, anywhere among its records is read as the file
    without it. *)
Theorem part000_skips_record_without_field (before_it after_it : list json) (item : json)
    (s : State) :
  item ≠ JNull →
  truthy (prop item "string_list_data") = false →
  processFollowerDataBatch (before_it ++ item :: after_it) s
  = processFollowerDataBatch (before_it ++ after_it) s
  ∧ processFollowingDataBatch (before_it ++ item :: after_it) s
    = processFollowingDataBatch (before_it ++ after_it) s.
Proof.
  intros Hnull Hfield. unfold processFollowerDataBatch, processFollowingDataBatch.
  by rewrite (part000_flatMap_skips before_it after_it item Hnull Hfield).
Qed.

Lemma part000_skips_record_without_field_witness :
  let s := part000_state ["old"] [] [] true in
  processFollowerDataBatch one_without_field s
  = (part000_state ["a"; "b"] [] [] true, None).
Proof.
  intros s.
  destruct (part000_skips_record_without_field
              [JObj [("string_list_data", JArr [JObj [("value", JStr "a")]])]]
              [JObj [("string_list_data", JArr [JObj [("value", JStr "b")]])]]
              (JObj [("no_string_list_data", JBool true)]) s) as [E _].
  - discriminate.
  - reflexivity.
  - change (processFollowerDataBatch one_without_field s)
      with (processFollowerDataBatch
              ([JObj [("string_list_data", JArr [JObj [("value", JStr "a")]])]]
               ++ JObj [("no_string_list_data", JBool true)]
               :: [JObj [("string_list_data", JArr [JObj [("value", JStr "b")]])]]) s).
    rewrite E. reflexivity.
Defined.

End Part000Skips.
